(** * AgentMemory: vector store, fallback embedding, chunking and skill
      recommendation

    A shallow embedding of the algorithmic core of the TypeScript sources

      - [src/vector/store.ts]       (class [VectorStore]),
      - [src/vector/embeddings.ts]  (class [EmbeddingService]),
      - [src/skills/manager.ts]     (class [SkillManager]),
      - [src/core/memory.ts]        (class [AgentMemory]),
      - [src/convert/service.ts]    (class [ConvertService]),
      - [src/types/index.ts]        (the record types),

    followed by the properties of these functions.

    Modelling conventions.

      - A JavaScript [number] is an element of a type [num] that carries the
        operations of the interface [Number].  Two instances are given: the
        IEEE-754 binary64 numbers of the kernel ([FloatNumber]), on which the
        definitions run exactly as they do in JavaScript, and the real numbers
        ([RealNumber]), which is the arithmetic the exact statements ("norm 1",
        "sorted", "in [0,1]") are proved in.  Statements that do not depend
        on the laws of arithmetic are proved for every instance.
      - A JavaScript string is the list of its UTF-16 code units.
        [String.prototype.toLowerCase] is a parameter ([Lowercase]).
      - A [Map] is an association list in insertion order, an array is a list.
      - [throw] is the constructor [Throw] of [result]; [async] functions
        are modelled by the value their promise settles to.
      - Writing the JSON files ([saveVectors], [saveHistory]) and console
        output are not modelled; randomness, the clock, the file system and
        the packages that read PDF and DOCX files are oracles. *)

From stdpp Require Import base list gmap sets.
From Stdlib Require Import ZArith NArith List Sorted Permutation Bool Lia.
From Stdlib Require Import Reals Lra Psatz.
From Stdlib Require PrimFloat Uint63 Ascii String.
Import ListNotations String.StringSyntax.

(* ================================================================== *)
(** * JavaScript numbers *)

(** The operations on [number] that the sources use.  [ofN n] is the number
    denoted by the non-negative integer literal (or array length) [n]. *)
Class Number (num : Type) : Type := {
  ofN : N -> num;
  add : num -> num -> num;
  sub : num -> num -> num;
  mul : num -> num -> num;
  div : num -> num -> num;
  sqrt : num -> num;              (* Math.sqrt *)
  nmin : num -> num -> num;       (* Math.min *)
  ltb : num -> num -> bool;       (* x < y *)
  leb : num -> num -> bool;       (* x <= y *)
  eqb : num -> num -> bool        (* x === y *)
}.

(** IEEE-754 binary64, as in JavaScript. *)
Definition float_ofN (n : N) : PrimFloat.float :=
  PrimFloat.of_uint63 (Uint63.of_Z (Z.of_N n)).

(** [Math.min]: NaN if an argument is NaN, and [-0] is below [+0]. *)
Definition float_min (x y : PrimFloat.float) : PrimFloat.float :=
  if PrimFloat.is_nan x then x
  else if PrimFloat.is_nan y then y
  else if PrimFloat.ltb x y then x
  else if PrimFloat.ltb y x then y
  else if PrimFloat.get_sign x then x else y.

#[export] Instance FloatNumber : Number PrimFloat.float := {|
  ofN := float_ofN;
  add := PrimFloat.add;
  sub := PrimFloat.sub;
  mul := PrimFloat.mul;
  div := PrimFloat.div;
  sqrt := PrimFloat.sqrt;
  nmin := float_min;
  ltb := PrimFloat.ltb;
  leb := PrimFloat.leb;
  eqb := PrimFloat.eqb
|}.

(** Exact (real) arithmetic. *)
Definition Rltb (x y : R) : bool := if Rlt_dec x y then true else false.
Definition Rleb (x y : R) : bool := if Rle_dec x y then true else false.
Definition Reqb (x y : R) : bool := if Req_dec_T x y then true else false.

#[export] Instance RealNumber : Number R := {|
  ofN := fun n => IZR (Z.of_N n);
  add := Rplus;
  sub := Rminus;
  mul := Rmult;
  div := Rdiv;
  sqrt := R_sqrt.sqrt;
  nmin := Rmin;
  ltb := Rltb;
  leb := Rleb;
  eqb := Reqb
|}.

Section Literals.
Context {num : Type} {NUM : Number num}.

Definition zero : num := ofN 0.
Definition one : num := ofN 1.
(** The decimal literals [0.2], [0.3] and [0.5]: the quotient of two small
    integers, which on binary64 (where division rounds to nearest) is the
    number the literal denotes. *)
Definition lit_0_2 : num := div (ofN 2) (ofN 10).
Definition lit_0_3 : num := div (ofN 3) (ofN 10).
Definition lit_0_5 : num := div (ofN 1) (ofN 2).

(** Truthiness of a number ([x || d] takes [d] when [x] is [0], [-0] or
    NaN). *)
Definition truthy (x : num) : bool := eqb x x && negb (eqb x zero).
End Literals.

(* ================================================================== *)
(** * JavaScript strings *)

(** A string is the list of its UTF-16 code units. *)
Definition jsstring : Type := list N.

(** A string literal (code units below 256). *)
Definition js (s : String.string) : jsstring :=
  List.map Ascii.N_of_ascii (String.list_ascii_of_string s).
Arguments js s%_string_scope.

(** [String.prototype.toLowerCase], a parameter of the model. *)
Class Lowercase : Type := toLowerCase : jsstring -> jsstring.

(** Lower-casing of the ASCII letters, used to run the model on examples. *)
Definition asciiLower : Lowercase :=
  List.map (fun c => if (65 <=? c)%N && (c <=? 90)%N then (c + 32)%N else c).

(** The class [\s] of regular expressions. *)
Definition isWhiteSpace (c : N) : bool :=
  ((9 <=? c) && (c <=? 13) || (c =? 32) || (c =? 160) || (c =? 5760)
   || (8192 <=? c) && (c <=? 8202) || (c =? 8232) || (c =? 8233)
   || (c =? 8239) || (c =? 8287) || (c =? 12288) || (c =? 65279))%N.

Definition isNewline (c : N) : bool := (c =? 10)%N.

(** Prepend a code unit to the first piece of a split. *)
Definition consHead (c : N) (pieces : list jsstring) : list jsstring :=
  match pieces with
  | [] => [[c]]
  | w :: ws => (c :: w) :: ws
  end.

(** [s.split(/\s+/)]: the pieces between the maximal runs of white space.
    [skip] says that the previous code unit belonged to a separator. *)
Fixpoint splitWhite (skip : bool) (s : jsstring) : list jsstring :=
  match s with
  | [] => [[]]
  | c :: s' =>
      if isWhiteSpace c then
        if skip then splitWhite true s' else [] :: splitWhite true s'
      else consHead c (splitWhite false s')
  end.

(** [s.split(/\n\n+/)]: the pieces between the maximal runs of two or more
    line feeds; a single line feed is an ordinary character. *)
Fixpoint splitBlank (skip : bool) (s : jsstring) : list jsstring :=
  match s with
  | [] => [[]]
  | c :: s' =>
      if isNewline c then
        if skip then splitBlank true s'
        else match s' with
             | c' :: _ =>
                 if isNewline c' then [] :: splitBlank true s'
                 else consHead c (splitBlank false s')
             | [] => consHead c (splitBlank false s')
             end
      else consHead c (splitBlank false s')
  end.

Fixpoint isPrefixOf (p s : jsstring) : bool :=
  match p, s with
  | [], _ => true
  | _ :: _, [] => false
  | x :: p', y :: s' => (x =? y)%N && isPrefixOf p' s'
  end.

(** [s.includes(p)] *)
Fixpoint includes (s p : jsstring) : bool :=
  isPrefixOf p s ||
  match s with
  | [] => false
  | _ :: s' => includes s' p
  end.

(** [parts.join(sep)] *)
Fixpoint join (sep : jsstring) (parts : list jsstring) : jsstring :=
  match parts with
  | [] => []
  | [p] => p
  | p :: ps => p ++ sep ++ join sep ps
  end.

(* ================================================================== *)
(** * Arrays, maps and exceptions *)

(** [arr.slice(0, end)] for an integral [end]: a negative [end] counts from
    the end of the array. *)
Definition slice0 {A : Type} (arr : list A) (end_ : Z) : list A :=
  let len := Z.of_nat (length arr) in
  let final := if (end_ <? 0)%Z then Z.max (len + end_) 0 else Z.min end_ len in
  firstn (Z.to_nat final) arr.

Section Sort.
Context {num : Type} {NUM : Number num} {A : Type}.
Variable comparefn : A -> A -> num.

(** [x] stood to the left of the sorted elements [l]: it moves to the right
    only past the elements the comparator puts strictly before it. *)
Fixpoint sortInsert (x : A) (l : list A) : list A :=
  match l with
  | [] => [x]
  | y :: l' =>
      if ltb zero (comparefn x y) then y :: sortInsert x l'
      else x :: y :: l'
  end.

(** [arr.sort(comparefn)], which is a stable sort. *)
Definition sort (arr : list A) : list A := foldr sortInsert [] arr.
End Sort.

(** The errors the modelled code throws. *)
Inductive exn : Type :=
  | VectorsLengthMismatch            (* 'Vectors must have the same length' *)
  | SkillNotFound (skillId : jsstring) (* `Skill not found: ${skillId}` *)
  | ConvertError (message : jsstring). (* the errors of [convertToText] *)

Inductive result (A : Type) : Type :=
  | Ok (a : A)
  | Throw (e : exn).
Arguments Ok {A} a.
Arguments Throw {A} e.

(** A [Map<string, V>]: keys in insertion order, no key twice. *)
Definition jsmap (V : Type) : Type := list (jsstring * V).

Fixpoint mapSet {V : Type} (k : jsstring) (v : V) (m : jsmap V) : jsmap V :=
  match m with
  | [] => [(k, v)]
  | (k', v') :: m' =>
      if decide (k' = k) then (k, v) :: m' else (k', v') :: mapSet k v m'
  end.

Fixpoint mapGet {V : Type} (k : jsstring) (m : jsmap V) : option V :=
  match m with
  | [] => None
  | (k', v') :: m' => if decide (k' = k) then Some v' else mapGet k m'
  end.

Definition mapDelete {V : Type} (k : jsstring) (m : jsmap V) : jsmap V :=
  List.filter (fun kv => negb (bool_decide (fst kv = k))) m.

(* ================================================================== *)
(** * types/index.ts *)

Inductive MemoryType : Type :=
  | document | skill_execution | conversation | experience.

Definition MemoryType_eqb (a b : MemoryType) : bool :=
  match a, b with
  | document, document | skill_execution, skill_execution
  | conversation, conversation | experience, experience => true
  | _, _ => false
  end.

Section Types.
Context {num : Type}.

(** The values of type [any] that the sources build. *)
Inductive jsany : Type :=
  | JNull
  | JBool (b : bool)
  | JNumber (x : num)
  | JString (s : jsstring).

Record MemoryMetadata : Type := {
  source : option jsstring;
  type : MemoryType;
  tags : option (list jsstring);
  context : option (jsmap jsany)
}.

Record MemoryEntry : Type := {
  id : jsstring;
  content : jsstring;
  metadata : MemoryMetadata;
  embedding : option (list num);
  timestamp : Z
}.

Record MemoryRecallResult : Type := {
  entry : MemoryEntry;
  similarity : num
}.

Record SkillContext : Type := {
  query : jsstring;
  memories : option (list MemoryEntry);
  context_metadata : option (jsmap jsany)
}.

Record SkillResult : Type := {
  success : bool;
  output : jsany;
  error : option jsstring;
  result_metadata : option (jsmap jsany)
}.

(** What a skill's [execute] throws: an [Error] with its message, or any
    other value, of which the catch clause keeps [String(value)]. *)
Inductive thrown : Type :=
  | ThrownError (message : jsstring)
  | ThrownOther (asString : jsstring).

(** [execute] returns a promise: it resolves to a result or rejects. *)
Record Skill : Type := {
  skill_id : jsstring;
  name : jsstring;
  description : jsstring;
  execute : SkillContext -> SkillResult + thrown
}.

Record SkillExecutionHistory : Type := {
  skillId : jsstring;
  history_context : SkillContext;
  history_result : SkillResult;
  history_timestamp : Z
}.

(** The phrases a recommendation's [reason] is made of; the first one
    stands for [`high success rate (${percent.toFixed(0)}%)`]. *)
Inductive reasonPhrase : Type :=
  | HighSuccessRate (percent : num)
  | StrongRelevance                  (* 'strong relevance to query' *)
  | PotentialMatch.                  (* 'potential match' *)

Record SkillRecommendation : Type := {
  skill : Skill;
  confidence : num;
  reason : list reasonPhrase;
  historicalSuccessRate : option num
}.

Record IngestionOptions : Type := {
  opt_tags : option (list jsstring);
  opt_source : option jsstring;
  chunkSize : option Z;
  generateEmbedding : option bool
}.

Record RecallFilters : Type := {
  filter_type : option MemoryType;
  filter_tags : option (list jsstring);
  filter_source : option jsstring
}.

Record RecallOptions : Type := {
  limit : option Z;
  threshold : option num;
  filters : option RecallFilters
}.

Record ConversionResult : Type := {
  conv_content : jsstring;
  originalFormat : jsstring
}.
End Types.
Arguments jsany : clear implicits.
Arguments MemoryMetadata : clear implicits.
Arguments MemoryEntry : clear implicits.
Arguments MemoryRecallResult : clear implicits.
Arguments SkillContext : clear implicits.
Arguments SkillResult : clear implicits.
Arguments thrown : clear implicits.
Arguments Skill : clear implicits.
Arguments SkillExecutionHistory : clear implicits.
Arguments reasonPhrase : clear implicits.
Arguments SkillRecommendation : clear implicits.
Arguments RecallOptions : clear implicits.

(* ================================================================== *)
(** * vector/store.ts *)

Section VectorStore.
Context {num : Type} {NUM : Number num}.

(** The field [vectors]: the entry and its embedding under the entry's id. *)
Definition VectorStore : Type := jsmap (MemoryEntry num * list num).

(** [new VectorStore(path)] when no file has been saved at [path]. *)
Definition emptyStore : VectorStore := [].

(** [store(entry, embedding)] *)
Definition store (vectors : VectorStore) (e : MemoryEntry num)
    (emb : list num) : VectorStore :=
  mapSet (id e) (e, emb) vectors.

(** The loop of [cosineSimilarity]: [dotProduct], [normA] and [normB]
    after the elements of [a] and [b] at the indices seen so far. *)
Definition cosineStep (acc : num * num * num) (xy : num * num)
    : num * num * num :=
  let '(dotProduct, normA, normB) := acc in
  let '(x, y) := xy in
  (add dotProduct (mul x y), add normA (mul x x), add normB (mul y y)).

(** [cosineSimilarity(a, b)] *)
Definition cosineSimilarity (a b : list num) : result num :=
  if negb (length a =? length b)%nat then Throw VectorsLengthMismatch
  else
    let '(dotProduct, normA, normB) :=
      fold_left cosineStep (combine a b) (zero, zero, zero) in
    let normA := sqrt normA in
    let normB := sqrt normB in
    if eqb normA zero || eqb normB zero then Ok zero
    else Ok (div dotProduct (mul normA normB)).

(** The [for ... of this.vectors.entries()] loop of [search]: [results]
    is the array built so far. *)
Fixpoint searchLoop (queryEmbedding : list num) (thr : num)
    (entries : VectorStore) (results : list (MemoryRecallResult num))
    : result (list (MemoryRecallResult num)) :=
  match entries with
  | [] => Ok results
  | (_, (e, emb)) :: rest =>
      match cosineSimilarity queryEmbedding emb with
      | Throw err => Throw err
      | Ok sim =>
          searchLoop queryEmbedding thr rest
            (if leb thr sim
             then results ++ [{| entry := e; similarity := sim |}]
             else results)
      end
  end.

(** The comparator [(a, b) => b.similarity - a.similarity]. *)
Definition bySimilarityDesc (a b : MemoryRecallResult num) : num :=
  sub (similarity b) (similarity a).

(** [search(queryEmbedding, limit = 5, threshold = 0.5)]; [None] is an
    argument left out. *)
Definition search (vectors : VectorStore) (queryEmbedding : list num)
    (lim : option Z) (thr : option num)
    : result (list (MemoryRecallResult num)) :=
  let lim := default 5%Z lim in
  let thr := default lit_0_5 thr in
  match searchLoop queryEmbedding thr vectors [] with
  | Throw err => Throw err
  | Ok results => Ok (slice0 (sort bySimilarityDesc results) lim)
  end.

(** [get(id)] *)
Definition get (vectors : VectorStore) (k : jsstring)
    : option (MemoryEntry num) :=
  match mapGet k vectors with
  | Some r => Some (fst r)
  | None => None
  end.

(** [getAll()] *)
Definition getAll (vectors : VectorStore) : list (MemoryEntry num) :=
  List.map (fun kv => fst (snd kv)) vectors.

(** [delete(id)] *)
Definition delete (vectors : VectorStore) (k : jsstring)
    : bool * VectorStore :=
  match mapGet k vectors with
  | Some _ => (true, mapDelete k vectors)
  | None => (false, vectors)
  end.

(** [clear()] *)
Definition clear (vectors : VectorStore) : VectorStore := [].

(** [count()] *)
Definition count (vectors : VectorStore) : nat := length vectors.
End VectorStore.
Arguments VectorStore : clear implicits.

(* ================================================================== *)
(** * vector/embeddings.ts *)

Section EmbeddingService.
Context {num : Type} {NUM : Number num} {LC : Lowercase}.

(** The inner loop of [simpleFallbackEmbedding] over the code units of the
    word at index [i], from position [j] on; [inc] is
    [1 / Math.sqrt(words.length)].  The index arithmetic is on integers
    (exact on binary64 below 2^53). *)
Fixpoint hashChars (inc : num) (i j : nat) (word : jsstring)
    (embedding : list num) : list num :=
  match word with
  | [] => embedding
  | charCode :: rest =>
      let index := ((charCode + N.of_nat j * 17 + N.of_nat i * 31) mod 384)%N in
      hashChars inc i (S j) rest
        (alter (fun v => add v inc) (N.to_nat index) embedding)
  end.

(** The outer loop, from the word at index [i] on. *)
Fixpoint hashWords (inc : num) (i : nat) (words : list jsstring)
    (embedding : list num) : list num :=
  match words with
  | [] => embedding
  | word :: rest => hashWords inc (S i) rest (hashChars inc i 0 word embedding)
  end.

(** [embedding.reduce((sum, val) => sum + val * val, 0)] *)
Definition sumSquares (embedding : list num) : num :=
  fold_left (fun sum val => add sum (mul val val)) embedding zero.

(** [simpleFallbackEmbedding(text)] *)
Definition simpleFallbackEmbedding (text : jsstring) : list num :=
  let words := splitWhite false (toLowerCase text) in
  let inc := div one (sqrt (ofN (N.of_nat (length words)))) in
  let embedding := hashWords inc 0 words (replicate 384 zero) in
  let norm := sqrt (sumSquares embedding) in
  if ltb zero norm then List.map (fun v => div v norm) embedding
  else embedding.

(** The field [embedder] after [initialize]: [None] when the model could
    not be loaded; a loaded model maps a text to its embedding or fails
    ([None]). *)
Definition Embedder : Type := option (jsstring -> option (list num)).

(** [embed(text)] on an initialized service. *)
Definition embed (embedder : Embedder) (text : jsstring) : list num :=
  match embedder with
  | None => simpleFallbackEmbedding text
  | Some model =>
      match model text with
      | Some data => data
      | None => simpleFallbackEmbedding text
      end
  end.

(** [embedBatch(texts)] *)
Definition embedBatch (embedder : Embedder) (texts : list jsstring)
    : list (list num) :=
  List.map (embed embedder) texts.
End EmbeddingService.

(* ================================================================== *)
(** * skills/manager.ts *)

(** [new Set(arr)]: the distinct elements in the order of their first
    occurrence. *)
Definition newSet (arr : list jsstring) : list jsstring :=
  fold_left (fun s x => if bool_decide (x ∈ s) then s else s ++ [x]) arr [].

Section SkillManager.
Context {num : Type} {NUM : Number num} {LC : Lowercase}.

Record SkillManager : Type := {
  skills : jsmap (Skill num);
  executionHistory : list (SkillExecutionHistory num)
}.

(** [new SkillManager(path)] when no history has been saved at [path]. *)
Definition newSkillManager : SkillManager :=
  {| skills := []; executionHistory := [] |}.

(** [registerSkill(skill)] *)
Definition registerSkill (m : SkillManager) (s : Skill num) : SkillManager :=
  {| skills := mapSet (skill_id s) s (skills m);
     executionHistory := executionHistory m |}.

(** The [try]/[catch] around [skill.execute(context)]. *)
Definition runSkill (s : Skill num) (ctx : SkillContext num)
    : SkillResult num :=
  match execute s ctx with
  | inl r => r
  | inr (ThrownError message) =>
      {| success := false; output := JNull; error := Some message;
         result_metadata := None |}
  | inr (ThrownOther asString) =>
      {| success := false; output := JNull; error := Some asString;
         result_metadata := None |}
  end.

(** [executeSkill(skillId, context)]; [now] is the value of [new Date()]. *)
Definition executeSkill (m : SkillManager) (now : Z) (sid : jsstring)
    (ctx : SkillContext num) : result (SkillResult num) * SkillManager :=
  match mapGet sid (skills m) with
  | None => (Throw (SkillNotFound sid), m)
  | Some s =>
      let r := runSkill s ctx in
      let historyEntry :=
        {| skillId := sid; history_context := ctx; history_result := r;
           history_timestamp := now |} in
      (Ok r, {| skills := skills m;
                executionHistory := executionHistory m ++ [historyEntry] |})
  end.

(** [isSimilarContext(context1, context2)] *)
Definition isSimilarContext (context1 context2 : SkillContext num) : bool :=
  let query1 := toLowerCase (query context1) in
  let query2 := toLowerCase (query context2) in
  let words1 := newSet (splitWhite false query1) in
  let words2 := newSet (splitWhite false query2) in
  let intersection :=
    newSet (List.filter (fun x => bool_decide (x ∈ words2)) words1) in
  let union := newSet (words1 ++ words2) in
  ltb lit_0_3 (div (ofN (N.of_nat (length intersection)))
                   (ofN (N.of_nat (length union)))).

(** [calculateSuccessRate(skillId, context)] *)
Definition calculateSuccessRate (m : SkillManager) (sid : jsstring)
    (ctx : SkillContext num) : num :=
  let relevantHistory :=
    List.filter (fun h => bool_decide (skillId h = sid)
                          && isSimilarContext (history_context h) ctx)
      (executionHistory m) in
  if (length relevantHistory =? 0)%nat then lit_0_5
  else
    let successfulExecutions :=
      length (List.filter (fun h => success (history_result h))
                relevantHistory) in
    div (ofN (N.of_nat successfulExecutions))
        (ofN (N.of_nat (length relevantHistory))).

(** The body of the loop over [keywords] in [calculateRelevance]. *)
Definition relevanceStep (skillName skillDesc : jsstring) (relevance : num)
    (keyword : jsstring) : num :=
  let relevance :=
    if includes skillName keyword then add relevance lit_0_3
    else relevance in
  if includes skillDesc keyword then add relevance lit_0_2 else relevance.

(** [calculateRelevance(skill, context)] *)
Definition calculateRelevance (s : Skill num) (ctx : SkillContext num)
    : num :=
  let queryLower := toLowerCase (query ctx) in
  let skillName := toLowerCase (name s) in
  let skillDesc := toLowerCase (description s) in
  let keywords :=
    List.filter (fun w => (3 <? length w)%nat)
      (splitWhite false queryLower) in
  nmin (fold_left (relevanceStep skillName skillDesc) keywords zero) one.

(** The two comparisons of [generateRecommendationReason]; the phrases are
    joined by [', '], and no phrase gives ['potential match']. *)
Definition generateRecommendationReason (s : Skill num)
    (successRate relevanceScore : num) : list (reasonPhrase num) :=
  let reasons :=
    (if ltb (div (ofN 7) (ofN 10)) successRate
     then [HighSuccessRate (mul successRate (ofN 100))] else [])
    ++ (if ltb lit_0_5 relevanceScore then [StrongRelevance] else []) in
  if (length reasons =? 0)%nat then [PotentialMatch] else reasons.

(** The body of the loop over the entries [[skillId, skill]] of the map of
    registered skills. *)
Definition recommendation (m : SkillManager) (ctx : SkillContext num)
    (sid : jsstring) (s : Skill num) : SkillRecommendation num :=
  let successRate := calculateSuccessRate m sid ctx in
  let relevanceScore := calculateRelevance s ctx in
  let confidence := div (add successRate relevanceScore) (ofN 2) in
  {| skill := s;
     confidence := confidence;
     reason := generateRecommendationReason s successRate relevanceScore;
     historicalSuccessRate := Some successRate |}.

(** The comparator [(a, b) => b.confidence - a.confidence]. *)
Definition byConfidenceDesc (a b : SkillRecommendation num) : num :=
  sub (confidence b) (confidence a).

(** [recommendSkills(context, limit = 3)] *)
Definition recommendSkills (m : SkillManager) (ctx : SkillContext num)
    (lim : option Z) : list (SkillRecommendation num) :=
  let lim := default 3%Z lim in
  let recommendations :=
    List.map (fun kv => recommendation m ctx (fst kv) (snd kv)) (skills m) in
  slice0 (sort byConfidenceDesc recommendations) lim.

(** [getSkills()] *)
Definition getSkills (m : SkillManager) : list (Skill num) :=
  List.map snd (skills m).

(** [getSkillHistory(skillId)] *)
Definition getSkillHistory (m : SkillManager) (sid : jsstring)
    : list (SkillExecutionHistory num) :=
  List.filter (fun h => bool_decide (skillId h = sid)) (executionHistory m).

(** [clearHistory()] *)
Definition clearHistory (m : SkillManager) : SkillManager :=
  {| skills := skills m; executionHistory := [] |}.
End SkillManager.
Arguments SkillManager : clear implicits.

(* ================================================================== *)
(** * core/memory.ts *)

(** [x || d] on an optional integral number: [undefined] and [0] give [d]. *)
Definition orNumber (x : option Z) (d : Z) : Z :=
  match x with
  | Some v => if (v =? 0)%Z then d else v
  | None => d
  end.

(** [x || d] on an optional string: [undefined] and [''] give [d]. *)
Definition orString (x : option jsstring) (d : jsstring) : jsstring :=
  match x with
  | Some [] | None => d
  | Some v => v
  end.

(** The separator ['\n\n'] between the paragraphs of a chunk. *)
Definition blankLine : jsstring := [10; 10]%N.

(** The body of the loop of [chunkText]: the state is [chunks] and
    [currentChunk] (a non-empty string is truthy). *)
Definition chunkStep (maxChunkSize : Z) (st : list jsstring * jsstring)
    (paragraph : jsstring) : list jsstring * jsstring :=
  let '(chunks, currentChunk) := st in
  if (Z.of_nat (length currentChunk) + Z.of_nat (length paragraph)
      <=? maxChunkSize)%Z
  then (chunks,
        currentChunk
          ++ (match currentChunk with [] => [] | _ => blankLine end)
          ++ paragraph)
  else (match currentChunk with [] => chunks | _ => chunks ++ [currentChunk] end,
        paragraph).

(** [chunkText(text, maxChunkSize)] *)
Definition chunkText (text : jsstring) (maxChunkSize : Z) : list jsstring :=
  let paragraphs := splitBlank false text in
  let '(chunks, currentChunk) :=
    fold_left (chunkStep maxChunkSize) paragraphs ([], []) in
  let chunks :=
    match currentChunk with [] => chunks | _ => chunks ++ [currentChunk] end in
  if (0 <? length chunks)%nat then chunks else [text].

Section AgentMemory.
Context {num : Type} {NUM : Number num} {LC : Lowercase}.

(** [convertService.convertToText(filePath)]: the text extraction is an
    external collaborator. *)
Variable convertToText : jsstring -> result ConversionResult.
(** The [n]-th value of [crypto.randomBytes(16).toString('hex')] drawn in
    this process, and the value of [new Date()] when the entry that takes
    this id is built. *)
Variable randomHex : nat -> jsstring.
Variable dateNow : nat -> Z.

Record AgentMemory : Type := {
  similarityThreshold : num;       (* [config.similarityThreshold] *)
  vectorStore : VectorStore num;
  embeddingService : Embedder (num := num);
  skillManager : SkillManager num;
  idsDrawn : nat                   (* calls of [generateId] so far *)
}.

(** [new AgentMemory(config)] followed by [initialize()], on empty storage:
    [threshold] is [config.similarityThreshold], [embedder] what loading the
    model gave, and [builtInSkills] the skills of [skills/builtin.ts]. *)
Definition newAgentMemory (thr : option num) (embedder : Embedder)
    (builtInSkills : list (Skill num)) : AgentMemory :=
  {| similarityThreshold :=
       match thr with
       | Some t => if truthy t then t else lit_0_5
       | None => lit_0_5
       end;
     vectorStore := emptyStore;
     embeddingService := embedder;
     skillManager := fold_left registerSkill builtInSkills newSkillManager;
     idsDrawn := 0 |}.

(** One round of the loop of [ingest], for the chunk at index [i]. *)
Definition ingestChunk (filePath : jsstring) (options : IngestionOptions)
    (conv : ConversionResult) (totalChunks : nat)
    (st : AgentMemory * list jsstring) (i : nat) (chunk : jsstring)
    : AgentMemory * list jsstring :=
  let '(am, memoryIds) := st in
  let memoryId := randomHex (idsDrawn am) in
  let emb :=
    match generateEmbedding options with
    | Some false => []
    | _ => embed (embeddingService am) chunk
    end in
  let meta :=
    {| source := Some (orString (opt_source options) filePath);
       type := document;
       tags := Some (default [] (opt_tags options));
       context := Some
         [(js "chunkIndex", JNumber (ofN (N.of_nat i)));
          (js "totalChunks", JNumber (ofN (N.of_nat totalChunks)));
          (js "originalFormat", JString (originalFormat conv))] |} in
  let e :=
    {| id := memoryId; content := chunk; metadata := meta;
       embedding := Some emb; timestamp := dateNow (idsDrawn am) |} in
  ({| similarityThreshold := similarityThreshold am;
      vectorStore := store (vectorStore am) e emb;
      embeddingService := embeddingService am;
      skillManager := skillManager am;
      idsDrawn := S (idsDrawn am) |},
   memoryIds ++ [memoryId]).

(** The loop [for (let i = 0; i < chunks.length; i++)], from index [i] on. *)
Fixpoint ingestLoop (filePath : jsstring) (options : IngestionOptions)
    (conv : ConversionResult) (totalChunks : nat) (i : nat)
    (chunks : list jsstring) (st : AgentMemory * list jsstring)
    : AgentMemory * list jsstring :=
  match chunks with
  | [] => st
  | chunk :: rest =>
      ingestLoop filePath options conv totalChunks (S i) rest
        (ingestChunk filePath options conv totalChunks st i chunk)
  end.

(** [ingest(filePath, options)]: the returned string and the new state. *)
Definition ingest (am : AgentMemory) (filePath : jsstring)
    (options : IngestionOptions) : result jsstring * AgentMemory :=
  match convertToText filePath with
  | Throw err => (Throw err, am)
  | Ok conversionResult =>
      let chunks :=
        chunkText (conv_content conversionResult)
          (orNumber (chunkSize options) 1000) in
      let '(am', memoryIds) :=
        ingestLoop filePath options conversionResult (length chunks) 0 chunks
          (am, []) in
      (Ok (join (js ",") memoryIds), am')
  end.

(** [ingestText(text, metadata)] *)
Definition ingestText (am : AgentMemory) (text : jsstring)
    (mtype : option MemoryType) (msource : option jsstring)
    (mtags : option (list jsstring)) (mcontext : option (jsmap (jsany num)))
    : jsstring * AgentMemory :=
  let memoryId := randomHex (idsDrawn am) in
  let emb := embed (embeddingService am) text in
  let e :=
    {| id := memoryId; content := text;
       metadata := {| type := default conversation mtype;
                      source := msource;
                      tags := Some (default [] mtags);
                      context := mcontext |};
       embedding := Some emb; timestamp := dateNow (idsDrawn am) |} in
  (memoryId,
   {| similarityThreshold := similarityThreshold am;
      vectorStore := store (vectorStore am) e emb;
      embeddingService := embeddingService am;
      skillManager := skillManager am;
      idsDrawn := S (idsDrawn am) |}).

(** The predicate of [applyFilters]. *)
Definition passesFilters (f : RecallFilters) (r : MemoryRecallResult num)
    : bool :=
  let e := entry r in
  match filter_type f with
  | Some t => MemoryType_eqb (type (metadata e)) t
  | None => true
  end
  &&
  match filter_source f with
  | Some (c :: s) => bool_decide (source (metadata e) = Some (c :: s))
  | _ => true
  end
  &&
  match filter_tags f with
  | Some (t :: ts) =>
      let entryTags := default [] (tags (metadata e)) in
      existsb (fun tag => bool_decide (tag ∈ entryTags)) (t :: ts)
  | _ => true
  end.

(** [applyFilters(results, filters)] *)
Definition applyFilters (results : list (MemoryRecallResult num))
    (f : RecallFilters) : list (MemoryRecallResult num) :=
  List.filter (passesFilters f) results.

(** [recall(query, options)] *)
Definition recall (am : AgentMemory) (q : jsstring)
    (options : RecallOptions num) : result (list (MemoryRecallResult num)) :=
  let queryEmbedding := embed (embeddingService am) q in
  let lim := orNumber (limit options) 5 in
  let thr :=
    match threshold options with
    | Some t => if truthy t then t else
                if truthy (similarityThreshold am) then similarityThreshold am
                else lit_0_5
    | None => if truthy (similarityThreshold am) then similarityThreshold am
              else lit_0_5
    end in
  match search (vectorStore am) queryEmbedding (Some lim) (Some thr) with
  | Throw err => Throw err
  | Ok results =>
      match filters options with
      | Some f => Ok (applyFilters results f)
      | None => Ok results
      end
  end.
End AgentMemory.
Arguments AgentMemory : clear implicits.

(** ** [getStats] *)

(** The object [memoryTypes]: its properties in insertion order, each the
    name of a memory type with its count. *)
Definition typeCounts : Type := list (MemoryType * nat).

Fixpoint typeGet (t : MemoryType) (m : typeCounts) : option nat :=
  match m with
  | [] => None
  | (t', n) :: m' => if MemoryType_eqb t' t then Some n else typeGet t m'
  end.

Fixpoint typeSet (t : MemoryType) (n : nat) (m : typeCounts) : typeCounts :=
  match m with
  | [] => [(t, n)]
  | (t', n') :: m' =>
      if MemoryType_eqb t' t then (t, n) :: m' else (t', n') :: typeSet t n m'
  end.

(** The body of the loop of [getStats]: the state is [memoryTypes],
    [oldestMemory] and [newestMemory]; a [Date] is truthy, and two dates
    compare by their time values. *)
Definition statsStep {num : Type} (st : typeCounts * option Z * option Z)
    (memory : MemoryEntry num) : typeCounts * option Z * option Z :=
  let '(types, oldest, newest) := st in
  let t := type (metadata memory) in
  (typeSet t (default 0%nat (typeGet t types) + 1)%nat types,
   match oldest with
   | Some o => if (timestamp memory <? o)%Z then Some (timestamp memory)
               else Some o
   | None => Some (timestamp memory)
   end,
   match newest with
   | Some n => if (n <? timestamp memory)%Z then Some (timestamp memory)
               else Some n
   | None => Some (timestamp memory)
   end).

Record MemoryStats : Type := {
  totalMemories : nat;
  memoryTypes : typeCounts;
  storageSize : nat;
  oldestMemory : option Z;
  newestMemory : option Z
}.

(** [getStats()] *)
Definition getStats {num : Type} (am : AgentMemory num) : MemoryStats :=
  let memories := getAll (vectorStore am) in
  let '(types, oldest, newest) :=
    fold_left statsStep memories ([], None, None) in
  {| totalMemories := length memories; memoryTypes := types;
     storageSize := 0; oldestMemory := oldest; newestMemory := newest |}.

(* ================================================================== *)
(** * convert/service.ts *)

(** What the [try] block around an external package ends in: a value, an
    error whose [code] is ['MODULE_NOT_FOUND'], or another error, of which
    the handler keeps [String(error)]. *)
Inductive external (A : Type) : Type :=
  | Returned (a : A)
  | ModuleNotFound
  | Failed (asString : jsstring).
Arguments Returned {A} a.
Arguments ModuleNotFound {A}.
Arguments Failed {A} asString.

(** A [ConversionResult] with all the metadata the service fills in. *)
Record Converted : Type := {
  conversion : ConversionResult;  (* [content], [metadata.originalFormat] *)
  convertedFormat : jsstring;
  pageCount : option nat;
  wordCount : nat
}.

(** The formats of the first group of [case] labels of [convertToText]. *)
Definition plainTextFormats : list jsstring :=
  [js ".txt"; js ".md"; js ".json"; js ".yaml"; js ".yml"; js ".js";
   js ".ts"; js ".py"; js ".java"; js ".cpp"; js ".c"; js ".go"; js ".rs";
   js ".html"; js ".css"; js ".xml"; js ".csv"].

(** The field [supportedFormats]. *)
Definition supportedFormats : list jsstring :=
  [js ".txt"; js ".md"; js ".json"; js ".yaml"; js ".yml";
   js ".js"; js ".ts"; js ".py"; js ".java"; js ".cpp"; js ".c"; js ".go";
   js ".rs";
   js ".html"; js ".css"; js ".xml"; js ".csv";
   js ".pdf"; js ".docx"].

(** [set.has(x)], and a [case] label among [labels] matching [x]. *)
Definition has (labels : list jsstring) (x : jsstring) : bool :=
  existsb (fun l => bool_decide (l = x)) labels.

Section ConvertService.
Context {LC : Lowercase}.

(** The file system and the packages [convertToText] calls. *)
Variable existsSync : jsstring -> bool.
Variable extname : jsstring -> jsstring.               (* [path.extname] *)
(** [fs.readFileSync(filePath, 'utf-8')]: the content, or the message of
    the error it throws. *)
Variable readFileSync : jsstring -> jsstring + jsstring.
(** The [try] block of [convertPDF]: [text] and [numpages]. *)
Variable pdfParse : jsstring -> external (jsstring * nat).
(** The [try] block of [convertDOCX]: [result.value]. *)
Variable extractRawText : jsstring -> external jsstring.

(** [isSupported(filePath)] *)
Definition isSupported (filePath : jsstring) : bool :=
  let ext := toLowerCase (extname filePath) in
  has supportedFormats ext.

(** [convertPlainText(filePath, format)] *)
Definition convertPlainText (filePath format : jsstring) : result Converted :=
  match readFileSync filePath with
  | inr message => Throw (ConvertError message)
  | inl content =>
      let words :=
        List.filter (fun w => (0 <? length w)%nat) (splitWhite false content) in
      Ok {| conversion := {| conv_content := content;
                             originalFormat := skipn 1 format |};
            convertedFormat := js "text";
            pageCount := None;
            wordCount := length words |}
  end.

(** [convertPDF(filePath, options)] *)
Definition convertPDF (filePath : jsstring) : result Converted :=
  match pdfParse filePath with
  | Returned (text, numpages) =>
      Ok {| conversion := {| conv_content := text;
                             originalFormat := js "pdf" |};
            convertedFormat := js "text";
            pageCount := Some numpages;
            wordCount := length (splitWhite false text) |}
  | ModuleNotFound =>
      Throw (ConvertError
               (js "PDF support requires " ++ [34%N] ++ js "pdf-parse"
                ++ [34%N]
                ++ js " package. Install it with: npm install pdf-parse"))
  | Failed error =>
      Throw (ConvertError (js "Failed to convert PDF: " ++ error))
  end.

(** [convertDOCX(filePath, options)] *)
Definition convertDOCX (filePath : jsstring) : result Converted :=
  match extractRawText filePath with
  | Returned content =>
      Ok {| conversion := {| conv_content := content;
                             originalFormat := js "docx" |};
            convertedFormat := js "text";
            pageCount := None;
            wordCount := length (splitWhite false content) |}
  | ModuleNotFound =>
      Throw (ConvertError
               (js "DOCX support requires " ++ [34%N] ++ js "mammoth"
                ++ [34%N]
                ++ js " package. Install it with: npm install mammoth"))
  | Failed error =>
      Throw (ConvertError (js "Failed to convert DOCX: " ++ error))
  end.

(** [convertToText(filePath, options)] *)
Definition convertToText (filePath : jsstring) : result Converted :=
  if negb (existsSync filePath)
  then Throw (ConvertError (js "File not found: " ++ filePath))
  else
    let ext := toLowerCase (extname filePath) in
    if negb (isSupported filePath)
    then Throw (ConvertError (js "Unsupported file format: " ++ ext))
    else if has plainTextFormats ext then convertPlainText filePath ext
    else if bool_decide (ext = js ".pdf") then convertPDF filePath
    else if bool_decide (ext = js ".docx") then convertDOCX filePath
    else Throw (ConvertError (js "Conversion not implemented for: " ++ ext)).

(** The converter as [AgentMemory.ingest] uses it: of the result it reads
    [content] and [metadata.originalFormat]. *)
Definition convertForIngest (filePath : jsstring) : result ConversionResult :=
  match convertToText filePath with
  | Ok converted => Ok (conversion converted)
  | Throw err => Throw err
  end.

(** [getSupportedFormats()] *)
Definition getSupportedFormats : list jsstring := supportedFormats.
End ConvertService.

(* ================================================================== *)
(** * Notions used in the statements *)

(** The stored embeddings all have the dimension of the query. *)
Definition dimensionsMatch {num : Type} (vectors : VectorStore num)
    (q : list num) : Prop :=
  Forall (fun kv => length (snd (snd kv)) = length q) vectors.

(** [r] is the search result of a stored entry: its [similarity] is the
    cosine similarity of the query and the entry's stored embedding. *)
Definition resultOf {num : Type} {NUM : Number num}
    (vectors : VectorStore num) (q : list num)
    (r : MemoryRecallResult num) : Prop :=
  exists k emb,
    In (k, (entry r, emb)) vectors
    /\ cosineSimilarity q emb = Ok (similarity r).

(** Similarities in descending order. *)
Definition similarityDescending (rs : list (MemoryRecallResult R)) : Prop :=
  StronglySorted (fun a b => (similarity b <= similarity a)%R) rs.

(** ** Example data *)

Definition exampleMetadata {num : Type} (t : MemoryType) : MemoryMetadata num :=
  {| source := None; type := t; tags := None; context := None |}.

Definition exampleEntry {num : Type} (i : jsstring) (t : MemoryType)
    : MemoryEntry num :=
  {| id := i; content := js "Test content"; metadata := exampleMetadata t;
     embedding := None; timestamp := 0 |}.

(** Two entries with the embedding [[1, 0, 0]]. *)
Definition twoEntries {num : Type} {NUM : Number num} : VectorStore num :=
  store (store emptyStore (exampleEntry (js "test-1") document)
           [one; zero; zero])
    (exampleEntry (js "test-2") document) [one; zero; zero].

(** Embeddings of lengths 3 and 2 stored side by side. *)
Definition mixedEntries {num : Type} {NUM : Number num} : VectorStore num :=
  store (store emptyStore (exampleEntry (js "test-1") document)
           [one; zero; zero])
    (exampleEntry (js "test-2") document) [one; zero].

(** A vector of binary64 numbers all of whose elements are [0] or [-0]. *)
Definition allZero (v : list PrimFloat.float) : Prop :=
  Forall (fun x => x = PrimFloat.zero \/ x = PrimFloat.neg_zero) v.

(** The sum of the squares of a real vector: the square of its L2 norm. *)
Fixpoint sumSq (l : list R) : R :=
  match l with
  | [] => 0%R
  | x :: l' => (x * x + sumSq l')%R
  end.

(** The L2 norm of a real vector, computed as the source computes it. *)
Definition l2norm (v : list R) : R := sqrt (sumSquares v).

(** The chunks [chunkText] has when its loop ends in the state [st]. *)
Definition closeChunks (st : list jsstring * jsstring) : list jsstring :=
  match snd st with
  | [] => fst st
  | _ => fst st ++ [snd st]
  end.

(** Two paragraphs of five characters each, separated by a blank line. *)
Definition twoParagraphs : jsstring := js "aaaaa" ++ blankLine ++ js "bbbbb".

(** ** Words and tokens of a query *)

(** The words of a text, read from left to right: the maximal runs of code
    units that are not white space.  [cur] is the run read so far. *)
Fixpoint wordsFrom (cur s : jsstring) : list jsstring :=
  match s with
  | [] => match cur with [] => [] | _ => [cur] end
  | c :: s' =>
      if isWhiteSpace c
      then match cur with
           | [] => wordsFrom [] s'
           | _ => cur :: wordsFrom [] s'
           end
      else wordsFrom (cur ++ [c]) s'
  end.

Definition wordsOf (s : jsstring) : list jsstring := wordsFrom [] s.

(** The text ends with white space. *)
Fixpoint endsBlank (s : jsstring) : bool :=
  match s with
  | [] => false
  | [c] => isWhiteSpace c
  | _ :: s' => endsBlank s'
  end.

(** The text is empty, or begins or ends with white space. *)
Definition edgeBlank (s : jsstring) : bool :=
  match s with
  | [] => true
  | c :: _ => isWhiteSpace c || endsBlank s
  end.

(** ** The success rate, after the specification *)

Section SuccessRateSpec.
Context {num : Type} {NUM : Number num} {LC : Lowercase}.

(** The pieces of [q.toLowerCase().split(/\s+/)], as a set. *)
Definition pieceSet (q : jsstring) : gset jsstring :=
  list_to_set (splitWhite false (toLowerCase q)).

(** The set of the words of a query, case-insensitively. *)
Definition wordSet (q : jsstring) : gset jsstring :=
  list_to_set (wordsOf (toLowerCase q)).

(** The tokens of a query: its words and, when the query is empty or begins
    or ends with white space, the empty string. *)
Definition tokenSet (q : jsstring) : gset jsstring :=
  wordSet q ∪ (if edgeBlank (toLowerCase q) then {[ [] ]} else ∅).

(** Jaccard similarity of two sets: the size of the intersection over the
    size of the union. *)
Definition jaccard (A B : gset jsstring) : num :=
  div (ofN (N.of_nat (size (A ∩ B)))) (ofN (N.of_nat (size (A ∪ B)))).

(** Two queries are similar when the Jaccard similarity of their token sets
    exceeds 0.3. *)
Definition similarQueries (q1 q2 : jsstring) : bool :=
  ltb lit_0_3 (jaccard (tokenSet q1) (tokenSet q2)).

(** The records of the skill [sid] whose stored query is similar to [q]. *)
Definition matchingRecords (history : list (SkillExecutionHistory num))
    (sid : jsstring) (q : jsstring) : list (SkillExecutionHistory num) :=
  List.filter (fun h => bool_decide (skillId h = sid)
                        && similarQueries (query (history_context h)) q)
    history.

(** The fraction of the records with [success = true]. *)
Definition successFraction (records : list (SkillExecutionHistory num))
    : num :=
  div (ofN (N.of_nat (count_occ bool_dec
                        (List.map (fun h => success (history_result h)) records)
                        true)))
      (ofN (N.of_nat (length records))).

Definition specSuccessRate (history : list (SkillExecutionHistory num))
    (sid : jsstring) (q : jsstring) : num :=
  match matchingRecords history sid q with
  | [] => lit_0_5
  | records => successFraction records
  end.

(** Word-level similarity: the Jaccard similarity of the word sets exceeds
    0.3. *)
Definition similarWords (q1 q2 : jsstring) : bool :=
  ltb lit_0_3 (jaccard (wordSet q1) (wordSet q2)).

(** The success rate over the records whose stored query is similar to [q]
    at word level. *)
Definition wordLevelSuccessRate (history : list (SkillExecutionHistory num))
    (sid : jsstring) (q : jsstring) : num :=
  match List.filter (fun h => bool_decide (skillId h = sid)
                              && similarWords (query (history_context h)) q)
          history with
  | [] => lit_0_5
  | records => successFraction records
  end.
End SuccessRateSpec.

(** ** The relevance score, after the specification *)

Section RelevanceSpec.
Context {LC : Lowercase}.

(** The words of the query of length above 3, lower-cased. *)
Definition keywords (q : jsstring) : list jsstring :=
  List.filter (fun w => (3 <? length w)%nat) (wordsOf (toLowerCase q)).







End RelevanceSpec.

(** ** Example skills *)

(** A skill whose [execute] throws [new Error('boom')]. *)
Definition failingSkill {num : Type} : Skill num :=
  {| skill_id := js "fail"; name := js "Failing skill";
     description := js "always throws";
     execute := fun _ => inr (ThrownError (js "boom")) |}.

Definition exampleContext {num : Type} : SkillContext num :=
  {| query := js "search the document"; memories := None;
     context_metadata := None |}.

(** ** Ingestion: the ids drawn and the examples *)

(** The [k] values that [generateId] returns from the [n]-th draw on. *)
Fixpoint idsFrom (randomHex : nat -> jsstring) (n k : nat) : list jsstring :=
  match k with
  | O => []
  | S k' => randomHex n :: idsFrom randomHex (S n) k'
  end.

(** A generator of ids of 32 hexadecimal digits: 31 zeros and the digit of
    the draw (distinct for the first ten draws). *)
Definition hexId (n : nat) : jsstring :=
  replicate 31 48%N ++ [(48 + N.of_nat n)%N].

(** A converter that reads the text [twoParagraphs] from every file. *)
Definition readTwoParagraphs (filePath : jsstring) : result ConversionResult :=
  Ok {| conv_content := twoParagraphs; originalFormat := js "txt" |}.

(** Ingestion options with a chunk size of 5 and nothing else. *)
Definition chunksOfFive : IngestionOptions :=
  {| opt_tags := None; opt_source := None; chunkSize := Some 5%Z;
     generateEmbedding := None |}.

(** A fresh memory on binary64 numbers, without a loaded model (so that
    [embed] is the fallback embedding) and without built-in skills. *)
Definition freshMemory : AgentMemory PrimFloat.float :=
  newAgentMemory None None [].

(** The entries of the store that reach the threshold for the query and
    pass the filters. *)
Definition qualifying {num : Type} {NUM : Number num} {LC : Lowercase}
    (am : AgentMemory num) (q : jsstring) (thr : num) (f : RecallFilters)
    : list (MemoryEntry num) :=
  List.map (fun kv => fst (snd kv))
    (List.filter
       (fun kv =>
          match cosineSimilarity (embed (embeddingService am) q)
                  (snd (snd kv)) with
          | Ok sim =>
              leb thr sim
              && passesFilters f {| entry := fst (snd kv); similarity := sim |}
          | Throw _ => false
          end)
       (vectorStore am)).

(** The memory after [ingestText('hello', {type})] for the types
    conversation, conversation and document, in this order. *)
Definition threeHellos : AgentMemory PrimFloat.float :=
  let ingestHello am t :=
    snd (ingestText (LC := asciiLower) hexId (fun _ => 0%Z) am (js "hello")
           (Some t) None None None) in
  ingestHello (ingestHello (ingestHello freshMemory conversation) conversation)
    document.

Definition documentsOnly : RecallFilters :=
  {| filter_type := Some document; filter_tags := None;
     filter_source := None |}.

(** The decimal fraction [n / d] of two integer literals. *)
Definition decimal {num : Type} {NUM : Number num} (n d : N) : num :=
  div (ofN n) (ofN d).

(** The store of the test 'should find similar memories': the embeddings
    [[1, 0, 0]] and [[0.9, 0.1, 0]]. *)
Definition similarEntries : VectorStore PrimFloat.float :=
  store (store emptyStore (exampleEntry (js "test-1") document)
           [one; zero; zero])
    (exampleEntry (js "test-2") document) [decimal 9 10; decimal 1 10; zero].

(** ** Store states *)

(** The keys of a store are distinct, and every entry sits under its own
    id. *)
Definition wellKeyed {num : Type} (vectors : VectorStore num) : Prop :=
  NoDup (List.map fst vectors)
  /\ Forall (fun kv => fst kv = id (fst (snd kv))) vectors.

(** The mutating operations of [VectorStore]. *)
Inductive storeOp (num : Type) : Type :=
  | OpStore (e : MemoryEntry num) (emb : list num)
  | OpDelete (k : jsstring)
  | OpClear.
Arguments OpStore {num} e emb.
Arguments OpDelete {num} k.
Arguments OpClear {num}.

Definition applyOp {num : Type} {NUM : Number num} (vectors : VectorStore num)
    (op : storeOp num) : VectorStore num :=
  match op with
  | OpStore e emb => store vectors e emb
  | OpDelete k => snd (delete vectors k)
  | OpClear => clear vectors
  end.

(** The store after a sequence of operations on a new, empty store. *)
Definition storeAfter {num : Type} {NUM : Number num} (ops : list (storeOp num))
    : VectorStore num :=
  fold_left applyOp ops emptyStore.

(** The dot product of two real vectors (up to the shorter length). *)
Fixpoint dot (a b : list R) : R :=
  match a, b with
  | x :: a', y :: b' => (x * y + dot a' b')%R
  | _, _ => 0%R
  end.

(** The stored entries whose similarity to the query reaches the threshold,
    in the order of the store, each with its similarity. *)
Definition candidates {num : Type} {NUM : Number num}
    (vectors : VectorStore num) (q : list num) (thr : num)
    : list (MemoryRecallResult num) :=
  flat_map
    (fun kv =>
       match cosineSimilarity q (snd (snd kv)) with
       | Ok sim =>
           if leb thr sim
           then [{| entry := fst (snd kv); similarity := sim |}] else []
       | Throw _ => []
       end)
    vectors.

(** The results with the similarity [s]. *)
Definition withSimilarity (s : R) (rs : list (MemoryRecallResult R))
    : list (MemoryRecallResult R) :=
  List.filter (fun r => Reqb (similarity r) s) rs.

(** ** The history of a skill *)

(** The records that [calculateSuccessRate] takes into account for the
    skill [sid] and the context [ctx]. *)
Definition relevantHistory {num : Type} {NUM : Number num} {LC : Lowercase}
    (m : SkillManager num) (sid : jsstring) (ctx : SkillContext num)
    : list (SkillExecutionHistory num) :=
  List.filter (fun h => bool_decide (skillId h = sid)
                        && isSimilarContext (history_context h) ctx)
    (executionHistory m).

(** The number of successful records. *)
Definition successes {num : Type} (records : list (SkillExecutionHistory num))
    : nat :=
  length (List.filter (fun h => success (history_result h)) records).

(** Confidences in descending order. *)
Definition confidenceDescending (rs : list (SkillRecommendation R)) : Prop :=
  StronglySorted (fun a b => (confidence b <= confidence a)%R) rs.

(** A skill that always succeeds. *)
Definition succeedingSkill {num : Type} : Skill num :=
  {| skill_id := js "ok"; name := js "Search documents";
     description := js "search the stored documents";
     execute := fun _ => inl {| success := true; output := JNull;
                                error := None; result_metadata := None |} |}.

(** The context of a query, without memories or metadata. *)
Definition queryContext {num : Type} (q : jsstring) : SkillContext num :=
  {| query := q; memories := None; context_metadata := None |}.

(** A manager on binary64 in which the skill ['ok'] has run once, with
    success, for the query ['bar '] (that ends with a space). *)
Definition barManager : SkillManager PrimFloat.float :=
  snd (executeSkill (registerSkill newSkillManager succeedingSkill) 0
         (js "ok") (queryContext (js "bar "))).

(** What a join appends after its first part: every further part, each
    after a separator. *)
Definition joinRest (sep : jsstring) (parts : list jsstring) : jsstring :=
  flat_map (fun p => sep ++ p) parts.

(** Ingestion options that suppress the embedding. *)
Definition withoutEmbedding : IngestionOptions :=
  {| opt_tags := None; opt_source := None; chunkSize := None;
     generateEmbedding := Some false |}.

(** ** The options of a recall, as [recall] reads them *)

(** [options.limit || 5] *)
Definition effectiveLimit {num : Type} (options : RecallOptions num) : Z :=
  orNumber (limit options) 5.

(** [options.threshold || this.config.similarityThreshold || 0.5] *)
Definition effectiveThreshold {num : Type} {NUM : Number num}
    (am : AgentMemory num) (options : RecallOptions num) : num :=
  let configured :=
    if truthy (similarityThreshold am) then similarityThreshold am
    else lit_0_5 in
  match threshold options with
  | Some t => if truthy t then t else configured
  | None => configured
  end.

(** The options [{}]. *)
Definition noOptions {num : Type} : RecallOptions num :=
  {| limit := None; threshold := None; filters := None |}.

(** ** Statistics and conversions *)

(** The number of entries of the type [t]. *)
Definition ofType {num : Type} (t : MemoryType)
    (entries : list (MemoryEntry num)) : nat :=
  length (List.filter (fun e => MemoryType_eqb (type (metadata e)) t) entries).

(** The number of non-empty pieces of [content.split(/\s+/)]. *)
Definition nonEmptyWords (content : jsstring) : nat :=
  length (List.filter (fun w => (0 <? length w)%nat)
            (splitWhite false content)).

(** The number of empty pieces of a split. *)
Definition emptyPieces (pieces : list jsstring) : nat :=
  length (List.filter (fun w => negb (0 <? length w)%nat) pieces).

(** A file system in which every file exists, has the extension [.TXT] and
    holds the text ['hello world'], and in which the packages for PDF and
    DOCX are not installed. *)
Definition helloFile (filePath : jsstring) : result Converted :=
  convertToText (LC := asciiLower) (fun _ => true) (fun _ => js ".TXT")
    (fun _ => inl (js "hello world")) (fun _ => ModuleNotFound)
    (fun _ => ModuleNotFound) filePath.

(* ================================================================== *)
(** * Properties *)

(** ** Arrays *)

Lemma slice0_firstn {A : Type} (arr : list A) (e : Z) :
  exists n, slice0 arr e = firstn n arr.
Proof. unfold slice0. eexists. reflexivity. Qed.

Lemma slice0_length {A : Type} (arr : list A) (e : Z) :
  (0 <= e)%Z -> (Z.of_nat (length (slice0 arr e)) <= e)%Z.
Proof.
  intros He. unfold slice0.
  destruct (Z.ltb_spec e 0) as [Hneg | _]; [lia |].
  rewrite length_take. lia.
Qed.

Lemma firstn_In {A : Type} (n : nat) (l : list A) (x : A) :
  In x (firstn n l) -> In x l.
Proof.
  revert n. induction l as [| y l IH]; intros [| n]; simpl; try tauto.
  intros [-> | H]; [now left | right; eauto].
Qed.

Lemma slice0_In {A : Type} (arr : list A) (e : Z) (x : A) :
  In x (slice0 arr e) -> In x arr.
Proof.
  destruct (slice0_firstn arr e) as [n ->]. apply firstn_In.
Qed.

Lemma firstn_StronglySorted {A : Type} (Rel : A -> A -> Prop) (n : nat)
    (l : list A) :
  StronglySorted Rel l -> StronglySorted Rel (firstn n l).
Proof.
  intros Hs. revert n.
  induction Hs as [| x l Hs IH Hx]; intros [| n]; simpl; try constructor.
  - apply IH.
  - rewrite Forall_forall in *. intros y Hy.
    apply Hx. eapply firstn_In. exact Hy.
Qed.

Section SortFacts.
Context {num : Type} {NUM : Number num} {A : Type}.
Variable comparefn : A -> A -> num.

Lemma sortInsert_perm (x : A) (l : list A) :
  Permutation (sortInsert comparefn x l) (x :: l).
Proof.
  induction l as [| y l IH]; simpl; [reflexivity |].
  destruct (ltb zero (comparefn x y)); [| reflexivity].
  rewrite IH. apply perm_swap.
Qed.

Lemma sort_perm (l : list A) : Permutation (sort comparefn l) l.
Proof.
  induction l as [| x l IH]; simpl; [reflexivity |].
  rewrite sortInsert_perm. now constructor.
Qed.

Lemma sort_In (l : list A) (x : A) : In x (sort comparefn l) <-> In x l.
Proof.
  split; apply Permutation_in; [| symmetry]; apply sort_perm.
Qed.
End SortFacts.

(** On real numbers, sorting with [(a, b) => key(b) - key(a)] puts the keys
    in descending order. *)
Section SortDescending.
Context {A : Type}.
Variable key : A -> R.
Let comparefn (a b : A) : R := sub (key b) (key a).
Let desc (a b : A) : Prop := (key b <= key a)%R.

Lemma sortInsert_descending (x : A) (l : list A) :
  StronglySorted desc l -> StronglySorted desc (sortInsert comparefn x l).
Proof.
  induction 1 as [| y l Hs IH Hy]; simpl.
  - repeat constructor.
  - unfold comparefn at 1. cbn [ltb sub RealNumber]. unfold Rltb.
    destruct (Rlt_dec _ _) as [Hlt | Hge].
    + constructor; [exact IH |].
      rewrite Forall_forall. intros z Hz.
      apply (Permutation_in _ (sortInsert_perm comparefn x l)) in Hz.
      destruct Hz as [<- | Hz].
      * unfold desc. cbn in Hlt. unfold zero in Hlt. cbn in Hlt. lra.
      * rewrite Forall_forall in Hy. now apply Hy.
    + assert (Hxy : (key y <= key x)%R).
      { unfold zero in Hge. cbn in Hge. lra. }
      constructor; [now constructor |].
      constructor; [exact Hxy |].
      rewrite Forall_forall in *. intros z Hz.
      unfold desc in *. specialize (Hy z Hz). lra.
Qed.

Lemma sort_descending (l : list A) : StronglySorted desc (sort comparefn l).
Proof.
  induction l as [| x l IH]; simpl; [constructor |].
  now apply sortInsert_descending.
Qed.
End SortDescending.

(** ** Sortedness on an arithmetic whose comparator is consistent *)

(** Sorting by [(a, b) => key(b) - key(a)] gives descending keys on every
    arithmetic in which, on the numbers at hand ([dom]), the sign of a
    difference agrees with the comparison and the comparison is transitive.
    IEEE-754 subtraction and comparison agree in this way on the numbers
    that are not NaN. *)
Section SortConsistent.
Context {num : Type} {NUM : Number num} {A : Type}.
Variable key : A -> num.
Variable dom : A -> Prop.
Let comparefn (a b : A) : num := sub (key b) (key a).
Let desc (a b : A) : Prop := leb (key b) (key a) = true.
Hypothesis keep_desc : forall x y, dom x -> dom y ->
  ltb zero (comparefn x y) = false -> desc x y.
Hypothesis swap_desc : forall x y, dom x -> dom y ->
  ltb zero (comparefn x y) = true -> desc y x.
Hypothesis desc_trans : forall x y z, dom x -> dom y -> dom z ->
  desc x y -> desc y z -> desc x z.

Lemma sortInsert_consistent (x : A) (l : list A) :
  dom x -> Forall dom l -> StronglySorted desc l ->
  StronglySorted desc (sortInsert comparefn x l).
Proof.
  intros Hx Hdom Hs. induction Hs as [| y l Hs IH Hy]; simpl.
  - repeat constructor.
  - inversion Hdom as [| ? ? Hdy Hdl]; subst.
    destruct (ltb zero (comparefn x y)) eqn:Hc.
    + constructor; [now apply IH |].
      rewrite Forall_forall. intros z Hz.
      apply (Permutation_in _ (sortInsert_perm comparefn x l)) in Hz.
      destruct Hz as [<- | Hz]; [now apply swap_desc |].
      rewrite Forall_forall in Hy. now apply Hy.
    + pose proof (keep_desc x y Hx Hdy Hc) as Hxy.
      constructor; [now constructor |].
      constructor; [exact Hxy |].
      rewrite Forall_forall in *. intros z Hz.
      apply (desc_trans x y z); auto.
Qed.

Lemma sort_consistent (l : list A) :
  Forall dom l -> StronglySorted desc (sort comparefn l).
Proof.
  induction 1 as [| x l Hx Hl IH]; simpl; [constructor |].
  apply sortInsert_consistent; [exact Hx | | exact IH].
  rewrite Forall_forall in *. intros y Hy. apply Hl.
  now apply (sort_In comparefn).
Qed.
End SortConsistent.

(** ** VectorStore: cosine similarity and search *)

Section SearchFacts.
Context {num : Type} {NUM : Number num}.

Lemma cosineSimilarity_mismatch (a b : list num) :
  length a <> length b -> cosineSimilarity a b = Throw VectorsLengthMismatch.
Proof.
  intros Hne. unfold cosineSimilarity.
  destruct (Nat.eqb_spec (length a) (length b)) as [Heq | _]; [| reflexivity].
  contradiction.
Qed.

Lemma cosineSimilarity_returns (a b : list num) :
  length a = length b -> exists s, cosineSimilarity a b = Ok s.
Proof.
  intros Heq. unfold cosineSimilarity.
  rewrite Heq, Nat.eqb_refl. simpl.
  destruct (fold_left cosineStep (combine a b) (zero, zero, zero))
    as [[dotProduct normA] normB].
  destruct (eqb (sqrt normA) zero || eqb (sqrt normB) zero); eauto.
Qed.

Lemma cosineSimilarity_throws (a b : list num) (e : exn) :
  cosineSimilarity a b = Throw e ->
  e = VectorsLengthMismatch /\ length a <> length b.
Proof.
  intros H. destruct (Nat.eq_dec (length a) (length b)) as [Heq | Hne].
  - destruct (cosineSimilarity_returns a b Heq) as [s Hs]. congruence.
  - rewrite (cosineSimilarity_mismatch a b Hne) in H.
    split; [congruence | exact Hne].
Qed.

(** When the dimensions match the loop of [search] ends normally, and it
    adds to [results] only stored entries that reach the threshold. *)
Lemma searchLoop_returns (q : list num) (thr : num) (entries : VectorStore num) :
  dimensionsMatch entries q ->
  forall results, exists results',
    searchLoop q thr entries results = Ok results'
    /\ forall r, In r results' ->
         In r results \/ (resultOf entries q r /\ leb thr (similarity r) = true).
Proof.
  induction 1 as [| [k [e emb]] rest Hlen _ IH]; intros results; simpl.
  - exists results. split; [reflexivity | tauto].
  - simpl in Hlen.
    destruct (cosineSimilarity_returns q emb (eq_sym Hlen)) as [s Hs].
    rewrite Hs.
    destruct (IH (if leb thr s
                  then results ++ [{| entry := e; similarity := s |}]
                  else results)) as [results' [Hrun Hin]].
    exists results'. split; [exact Hrun |].
    intros r Hr. destruct (Hin r Hr) as [Hacc | [[k' [emb' [Hk' Hc']]] Hthr]].
    + destruct (leb thr s) eqn:Hleb; [| now left].
      apply in_app_or in Hacc. destruct Hacc as [Hacc | [<- | []]];
        [now left |].
      right. split; [| exact Hleb].
      exists k, emb. simpl. split; [now left | exact Hs].
    + right. split; [| exact Hthr].
      exists k', emb'. split; [now right | exact Hc'].
Qed.

(** The loop of [search] throws exactly when it meets a stored embedding
    whose length differs from the query's. *)
Lemma searchLoop_throws (q : list num) (thr : num) (entries : VectorStore num)
    (results : list (MemoryRecallResult num)) :
  (exists e, searchLoop q thr entries results = Throw e)
  <-> Exists (fun kv => length (snd (snd kv)) <> length q) entries.
Proof.
  revert results.
  induction entries as [| [k [e emb]] rest IH]; intros results; simpl.
  - split; [intros [e He]; discriminate | intros H; inversion H].
  - destruct (cosineSimilarity q emb) as [s | err] eqn:Hc.
    + rewrite IH. split.
      * intros H. now apply Exists_cons_tl.
      * intros H. inversion H as [? ? Hhd | ? ? Htl]; subst; [| exact Htl].
        simpl in Hhd.
        assert (Hne : length q <> length emb) by congruence.
        rewrite (cosineSimilarity_mismatch q emb Hne) in Hc. discriminate.
    + split; [| eauto].
      intros _. apply Exists_cons_hd. simpl.
      apply cosineSimilarity_throws in Hc. intros Heq.
      destruct Hc as [_ Hc]. congruence.
Qed.

Lemma searchLoop_error (q : list num) (thr : num) (entries : VectorStore num)
    (results : list (MemoryRecallResult num)) (e : exn) :
  searchLoop q thr entries results = Throw e -> e = VectorsLengthMismatch.
Proof.
  revert results.
  induction entries as [| [k [en emb]] rest IH]; intros results; simpl.
  - discriminate.
  - destruct (cosineSimilarity q emb) as [s | err] eqn:Hc.
    + apply IH.
    + intros [= <-]. now apply cosineSimilarity_throws in Hc.
Qed.

Lemma search_throws (vectors : VectorStore num) (q : list num)
    (lim : option Z) (thr : option num) :
  search vectors q lim thr = Throw VectorsLengthMismatch
  <-> Exists (fun kv => length (snd (snd kv)) <> length q) vectors.
Proof.
  rewrite <- (searchLoop_throws q (default lit_0_5 thr) vectors []).
  unfold search.
  destruct (searchLoop q (default lit_0_5 thr) vectors []) as [res | e] eqn:Hl.
  - split; [discriminate | intros [e He]; discriminate].
  - apply searchLoop_error in Hl. subst e. split; eauto.
Qed.
End SearchFacts.

(** ** Search on any arithmetic, and the scenarios of the test suite *)

(** Threshold and count do not depend on the laws of arithmetic: on every
    [Number], binary64 included, the results of a search that returns are
    stored entries that passed the test [similarity >= threshold], and for a
    limit that is not negative there are at most [limit] of them. *)
Lemma search_threshold_limit {num : Type} {NUM : Number num}
    (vectors : VectorStore num) (q : list num) (lim : option Z)
    (thr : option num) (results : list (MemoryRecallResult num)) :
  search vectors q lim thr = Ok results ->
  Forall (fun r => resultOf vectors q r
                   /\ leb (default lit_0_5 thr) (similarity r) = true) results
  /\ ((0 <= default 5 lim)%Z ->
      (Z.of_nat (length results) <= default 5 lim)%Z).
Proof.
  unfold search. intros Hs.
  destruct (searchLoop q (default lit_0_5 thr) vectors []) as [found | e]
    eqn:Hrun; [| discriminate].
  injection Hs as <-.
  assert (Hdim : dimensionsMatch vectors q).
  { unfold dimensionsMatch. rewrite Forall_forall. intros kv Hkv.
    destruct (Nat.eq_dec (length (snd (snd kv))) (length q)) as [| Hne];
      [assumption |].
    assert (Hthrow : exists e, searchLoop q (default lit_0_5 thr) vectors []
                               = Throw e).
    { apply searchLoop_throws. apply Exists_exists. eauto. }
    destruct Hthrow as [e He]. congruence. }
  destruct (searchLoop_returns q (default lit_0_5 thr) vectors Hdim [])
    as [found' [Hrun' Hfound]].
  rewrite Hrun in Hrun'. injection Hrun' as <-.
  split; [| apply slice0_length].
  rewrite Forall_forall. intros r Hr. apply slice0_In, sort_In in Hr.
  destruct (Hfound r Hr) as [[] | H]. exact H.
Qed.

(** The scenarios of the specification, on binary64: the query
    [[0.95, 0.05, 0]] with limit 5 and threshold 0.5 finds both entries of
    [similarEntries], the one with the higher cosine first; a query
    orthogonal to the only stored embedding finds nothing above 0.9. *)
Lemma search_scenarios :
  (exists s1 s2,
     search similarEntries [decimal 95 100; decimal 5 100; zero]
       (Some 5%Z) (Some lit_0_5)
     = Ok [{| entry := exampleEntry (js "test-1") document; similarity := s1 |};
           {| entry := exampleEntry (js "test-2") document; similarity := s2 |}]
     /\ PrimFloat.ltb s2 s1 = true)
  /\ search (store emptyStore (exampleEntry (js "test-1") document)
               [one; zero; zero])
       [zero; one; zero : PrimFloat.float] (Some 5%Z) (Some (decimal 9 10))
     = Ok [].
Proof.
  split.
  - do 2 eexists. split; vm_compute; reflexivity.
  - vm_compute. reflexivity.
Qed.

Lemma Rleb_true (x y : R) : Rleb x y = true -> (x <= y)%R.
Proof. unfold Rleb. destruct (Rle_dec x y); [trivial | discriminate]. Qed.

(** C1 (amended).  For every store whose embeddings have the dimension of
    the query, every threshold and every limit that is not negative,
    [search] returns normally; every result is a stored entry paired with
    its cosine similarity to the query, and that similarity is at least the
    threshold; the results are in descending order of similarity; and there
    are at most [limit] of them.  Arguments left out take the defaults 5 and
    0.5.  Numbers are real numbers here. *)
Theorem search_threshold_sorted_limit (vectors : VectorStore R) (q : list R)
    (lim : option Z) (thr : option R) :
  dimensionsMatch vectors q ->
  (0 <= default 5 lim)%Z ->
  exists results,
    search vectors q lim thr = Ok results
    /\ Forall (fun r => resultOf vectors q r
                        /\ (default lit_0_5 thr <= similarity r)%R) results
    /\ similarityDescending results
    /\ (Z.of_nat (length results) <= default 5 lim)%Z.
Proof.
  intros Hdim Hlim. unfold search.
  destruct (searchLoop_returns q (default lit_0_5 thr) vectors Hdim [])
    as [found [Hrun Hfound]].
  rewrite Hrun. eexists. split; [reflexivity |]. split; [| split].
  - rewrite Forall_forall. intros r Hr.
    apply slice0_In, sort_In in Hr.
    destruct (Hfound r Hr) as [[] | [Hof Hthr]].
    split; [exact Hof | now apply Rleb_true].
  - destruct (slice0_firstn (sort bySimilarityDesc found) (default 5%Z lim))
      as [n ->].
    apply firstn_StronglySorted.
    apply (sort_descending (@similarity R)).
  - now apply slice0_length.
Qed.

(** The theorem applies to the store [twoEntries] with the query
    [[1, 0, 0]], limit 5 and threshold 0.5. *)
Lemma search_threshold_sorted_limit_witness :
  exists results,
    search (twoEntries (num := R)) [one; zero; zero] (Some 5%Z) (Some lit_0_5)
      = Ok results
    /\ Forall (fun r => resultOf twoEntries [one; zero; zero] r
                        /\ (lit_0_5 <= similarity r)%R) results
    /\ similarityDescending results
    /\ (Z.of_nat (length results) <= 5)%Z.
Proof.
  apply (search_threshold_sorted_limit twoEntries [one; zero; zero]
           (Some 5%Z) (Some lit_0_5)).
  - repeat constructor.
  - simpl. lia.
Defined.

(** C1, as stated, fails for a negative limit: on binary64, [search] with
    limit -1 over two entries that both reach the threshold returns one
    result, which is more than the limit. *)
Lemma search_negative_limit :
  exists results,
    search (twoEntries (num := PrimFloat.float)) [one; zero; zero]
      (Some (-1)%Z) (Some lit_0_5) = Ok results
    /\ length results = 1%nat
    /\ (-1 < Z.of_nat (length results))%Z.
Proof.
  eexists. split; [vm_compute; reflexivity |]. split; [reflexivity | simpl; lia].
Qed.

(** ** Cosine similarity of all-zero vectors (binary64) *)

Lemma cosineStep_normA_zero (x y d nb : PrimFloat.float) :
  x = PrimFloat.zero \/ x = PrimFloat.neg_zero ->
  exists d' nb', cosineStep (d, zero, nb) (x, y) = (d', zero, nb').
Proof. intros [-> | ->]; do 2 eexists; reflexivity. Qed.

Lemma cosineStep_normB_zero (x y d na : PrimFloat.float) :
  y = PrimFloat.zero \/ y = PrimFloat.neg_zero ->
  exists d' na', cosineStep (d, na, zero) (x, y) = (d', na', zero).
Proof. intros [-> | ->]; do 2 eexists; reflexivity. Qed.

Lemma cosineFold_normA_zero (a b : list PrimFloat.float) :
  allZero a ->
  forall d nb, exists d' nb',
    fold_left cosineStep (combine a b) (d, zero, nb) = (d', zero, nb').
Proof.
  intros Ha. revert b.
  induction Ha as [| x a Hx _ IH]; intros b d nb.
  - simpl. eauto.
  - destruct b as [| y b]; [simpl; eauto |].
    cbn [combine fold_left].
    destruct (cosineStep_normA_zero x y d nb Hx) as [d1 [nb1 ->]].
    apply IH.
Qed.

Lemma cosineFold_normB_zero (a b : list PrimFloat.float) :
  allZero b ->
  forall d na, exists d' na',
    fold_left cosineStep (combine a b) (d, na, zero) = (d', na', zero).
Proof.
  intros Hb. revert a.
  induction Hb as [| y b Hy _ IH]; intros a d na.
  - destruct a; simpl; eauto.
  - destruct a as [| x a]; [simpl; eauto |].
    cbn [combine fold_left].
    destruct (cosineStep_normB_zero x y d na Hy) as [d1 [na1 ->]].
    apply IH.
Qed.

(** C2.  On binary64 numbers: for vectors of the same length of which one
    is all-zero, [cosineSimilarity] returns 0, whatever the other vector
    holds; for vectors of different lengths it throws, and so does every
    [search] with query [a] over a store that holds the embedding [b]. *)
Theorem cosineSimilarity_zero_or_mismatch (a b : list PrimFloat.float) :
  (length a = length b -> allZero a \/ allZero b ->
     cosineSimilarity a b = Ok zero)
  /\ (length a <> length b ->
        cosineSimilarity a b = Throw VectorsLengthMismatch
        /\ forall (vectors : VectorStore PrimFloat.float) k e lim thr,
             In (k, (e, b)) vectors ->
             search vectors a lim thr = Throw VectorsLengthMismatch).
Proof.
  split.
  - intros Hlen Hzero. unfold cosineSimilarity.
    rewrite Hlen, Nat.eqb_refl. cbn [negb].
    destruct Hzero as [Ha | Hb].
    + destruct (cosineFold_normA_zero a b Ha zero zero) as [d [nb ->]].
      reflexivity.
    + destruct (cosineFold_normB_zero a b Hb zero zero) as [d [na ->]].
      cbv beta iota.
      replace (eqb (sqrt zero) zero) with true by reflexivity.
      now rewrite orb_true_r.
  - intros Hne. split; [now apply cosineSimilarity_mismatch |].
    intros vectors k e lim thr Hin. apply search_throws.
    apply Exists_exists. exists (k, (e, b)). split; [exact Hin |].
    simpl. congruence.
Qed.

(** The theorem at the all-zero vector [[0, -0]] against [[1, 1]], and at
    vectors of lengths 1 and 2. *)
Lemma cosineSimilarity_zero_or_mismatch_witness :
  cosineSimilarity [PrimFloat.zero; PrimFloat.neg_zero] [one; one] = Ok zero
  /\ cosineSimilarity [one] [one; one : PrimFloat.float]
     = Throw VectorsLengthMismatch.
Proof.
  split.
  - apply (proj1 (cosineSimilarity_zero_or_mismatch _ _)).
    + reflexivity.
    + left. constructor; [now left |]. constructor; [now right |].
      constructor.
  - apply (proj2 (cosineSimilarity_zero_or_mismatch [one] [one; one])).
    simpl. lia.
Defined.

(** The same on real numbers. *)
Lemma cosineSimilarity_zero_real (a b : list R) :
  length a = length b ->
  Forall (eq 0%R) a \/ Forall (eq 0%R) b ->
  cosineSimilarity a b = Ok 0%R.
Proof.
  intros Hlen Hzero. unfold cosineSimilarity.
  rewrite Hlen, Nat.eqb_refl. cbn [negb].
  assert (HA : Forall (eq 0%R) a ->
               forall b d nb, exists d' nb',
                 fold_left cosineStep (combine a b) (d, 0%R, nb) = (d', 0%R, nb')).
  { clear. induction 1 as [| x a <- _ IH]; intros b d nb; [simpl; eauto |].
    destruct b as [| y b]; [simpl; eauto |]. cbn [combine fold_left].
    unfold cosineStep at 2. cbn [add mul RealNumber].
    replace (0 + 0 * 0)%R with 0%R by ring. apply IH. }
  assert (HB : Forall (eq 0%R) b ->
               forall a d na, exists d' na',
                 fold_left cosineStep (combine a b) (d, na, 0%R) = (d', na', 0%R)).
  { clear. induction 1 as [| y b <- _ IH]; intros a d na;
      [destruct a; simpl; eauto |].
    destruct a as [| x a]; [simpl; eauto |]. cbn [combine fold_left].
    unfold cosineStep at 2. cbn [add mul RealNumber].
    replace (0 + 0 * 0)%R with 0%R by ring. apply IH. }
  assert (Hz : eqb (sqrt (0%R)) zero = true).
  { cbn. rewrite sqrt_0. unfold Reqb.
    destruct (Req_dec_T 0 0); [reflexivity | contradiction]. }
  unfold zero at 1 2 3. cbn [ofN RealNumber Z.of_N].
  destruct Hzero as [Ha | Hb].
  - destruct (HA Ha b 0%R 0%R) as [d [nb ->]]. cbv beta iota.
    now rewrite Hz.
  - destruct (HB Hb a 0%R 0%R) as [d [na ->]]. cbv beta iota.
    now rewrite Hz, orb_true_r.
Qed.

(** ** VectorStore: storing embeddings of any dimension *)

Lemma mapGet_mapSet {V : Type} (k : jsstring) (v : V) (m : jsmap V) :
  mapGet k (mapSet k v m) = Some v.
Proof.
  induction m as [| [k' v'] m IH]; simpl.
  - now rewrite decide_True.
  - destruct (decide (k' = k)) as [-> | Hne]; simpl.
    + now rewrite decide_True.
    + now rewrite decide_False.
Qed.

Lemma mapGet_mapSet_ne {V : Type} (k k0 : jsstring) (v : V) (m : jsmap V) :
  k0 <> k -> mapGet k0 (mapSet k v m) = mapGet k0 m.
Proof.
  intros Hne. induction m as [| [k' v'] m IH]; simpl.
  - now rewrite decide_False.
  - destruct (decide (k' = k)) as [-> | Hk]; simpl.
    + rewrite !decide_False; congruence.
    + destruct (decide (k' = k0)); [reflexivity | exact IH].
Qed.

(** C8 (amended).  [store] checks no dimension: whatever the length of the
    embedding, the entry is recorded with it under its id.  Mixed
    dimensions are caught by [search], which throws 'Vectors must have the
    same length' exactly when some stored embedding's length differs from
    the query's; a store that holds two embeddings of different lengths
    therefore makes every search throw. *)
Theorem store_unchecked_search_checked {num : Type} {NUM : Number num}
    (vectors : VectorStore num) (e : MemoryEntry num) (emb q : list num)
    (lim : option Z) (thr : option num) :
  mapGet (id e) (store vectors e emb) = Some (e, emb)
  /\ (search vectors q lim thr = Throw VectorsLengthMismatch
      <-> Exists (fun kv => length (snd (snd kv)) <> length q) vectors)
  /\ (forall k1 e1 emb1 k2 e2 emb2,
        In (k1, (e1, emb1)) vectors -> In (k2, (e2, emb2)) vectors ->
        length emb1 <> length emb2 ->
        search vectors q lim thr = Throw VectorsLengthMismatch).
Proof.
  split; [apply mapGet_mapSet |]. split; [apply search_throws |].
  intros k1 e1 emb1 k2 e2 emb2 H1 H2 Hne.
  apply search_throws. apply Exists_exists.
  destruct (Nat.eq_dec (length emb1) (length q)) as [Heq | Hq].
  - exists (k2, (e2, emb2)). split; [exact H2 | simpl; congruence].
  - exists (k1, (e1, emb1)). split; [exact H1 | exact Hq].
Qed.

(** The theorem at the store [mixedEntries]: a search with the query
    [[1, 0, 0]] throws. *)
Lemma store_unchecked_search_checked_witness :
  search (mixedEntries (num := PrimFloat.float)) [one; zero; zero]
    (Some 5%Z) (Some lit_0_5) = Throw VectorsLengthMismatch.
Proof.
  apply (proj2 (proj2 (store_unchecked_search_checked mixedEntries
                         (exampleEntry (js "test-3") document) []
                         [one; zero; zero] (Some 5%Z) (Some lit_0_5)))
           (js "test-1") (exampleEntry (js "test-1") document)
           [one; zero; zero]
           (js "test-2") (exampleEntry (js "test-2") document)
           [one; zero]).
  - left. reflexivity.
  - right. left. reflexivity.
  - simpl. lia.
Defined.

(** C8, as stated, fails: two calls of [store] on the empty store, the
    second with a shorter embedding, both succeed and leave embeddings of
    lengths 3 and 2 in the store. *)
Lemma store_mixed_dimensions :
  List.map (fun kv => (fst kv, length (snd (snd kv))))
    (mixedEntries (num := PrimFloat.float))
  = [(js "test-1", 3%nat); (js "test-2", 2%nat)].
Proof. reflexivity. Qed.

(** ** The fallback embedding *)

Section HashFacts.
Context {num : Type} {NUM : Number num}.

Lemma hashChars_length (inc : num) (i j : nat) (word : jsstring)
    (embedding : list num) :
  length (hashChars inc i j word embedding) = length embedding.
Proof.
  revert j embedding.
  induction word as [| c word IH]; intros j embedding; simpl; [reflexivity |].
  now rewrite IH, length_alter.
Qed.

Lemma hashWords_length (inc : num) (i : nat) (words : list jsstring)
    (embedding : list num) :
  length (hashWords inc i words embedding) = length embedding.
Proof.
  revert i embedding.
  induction words as [| w words IH]; intros i embedding; simpl;
    [reflexivity |].
  now rewrite IH, hashChars_length.
Qed.

(** Words without code units leave the buckets untouched. *)
Lemma hashWords_empty_words (inc : num) (i : nat) (words : list jsstring)
    (embedding : list num) :
  Forall (fun w => w = []) words ->
  hashWords inc i words embedding = embedding.
Proof.
  intros H. revert i.
  induction H as [| w words -> _ IH]; intros i; simpl; [reflexivity |].
  apply IH.
Qed.

Lemma simpleFallbackEmbedding_length {LC : Lowercase} (text : jsstring) :
  length (simpleFallbackEmbedding text) = 384%nat.
Proof.
  unfold simpleFallbackEmbedding.
  destruct (ltb zero _);
    rewrite ?length_map, hashWords_length, length_replicate; reflexivity.
Qed.
End HashFacts.

Section RealEmbedding.
Open Scope R_scope.

Lemma sumSquares_fold (l : list R) (a : R) :
  fold_left (fun sum val => add sum (mul val val)) l a = a + sumSq l.
Proof.
  revert a. induction l as [| x l IH]; intros a; simpl; [ring |].
  rewrite IH. ring.
Qed.

Lemma sumSquares_sumSq (l : list R) : sumSquares l = sumSq l.
Proof.
  unfold sumSquares. rewrite sumSquares_fold. unfold zero. cbn. ring.
Qed.

Lemma sumSq_nonneg (l : list R) : 0 <= sumSq l.
Proof. induction l as [| x l IH]; simpl; [lra | nra]. Qed.

Lemma sumSq_pos (l : list R) : Exists (fun x => 0 < x) l -> 0 < sumSq l.
Proof.
  induction 1 as [x l Hx | x l _ IH]; simpl.
  - pose proof (sumSq_nonneg l). nra.
  - nra.
Qed.

Lemma sumSq_replicate_zero (n : nat) : sumSq (replicate n 0) = 0.
Proof. induction n as [| n IH]; simpl; [reflexivity | rewrite IH; ring]. Qed.

Lemma sumSq_scaled (l : list R) (n : R) :
  n <> 0 -> sumSq (List.map (fun v => div v n) l) = sumSq l / (n * n).
Proof.
  intros Hn. induction l as [| x l IH]; cbn [List.map sumSq].
  - field. exact Hn.
  - rewrite IH. cbn [div RealNumber]. field. exact Hn.
Qed.

Variable inc : R.
Hypothesis inc_pos : 0 < inc.

Lemma alter_gives_positive (l : list R) (i : nat) :
  Forall (fun x => 0 <= x) l -> (i < length l)%nat ->
  Exists (fun x => 0 < x) (alter (fun v => add v inc) i l).
Proof.
  intros Hl. revert i.
  induction Hl as [| x l Hx _ IH]; intros i Hi; simpl in Hi; [lia |].
  destruct i as [| i]; simpl.
  - apply Exists_cons_hd. cbn. lra.
  - apply Exists_cons_tl, IH. lia.
Qed.

Lemma alter_keeps_positive (l : list R) (i : nat) :
  Exists (fun x => 0 < x) l ->
  Exists (fun x => 0 < x) (alter (fun v => add v inc) i l).
Proof.
  intros Hl. revert i.
  induction Hl as [x l Hx | x l Hl IH]; intros [| i]; simpl.
  - apply Exists_cons_hd. cbn. lra.
  - now apply Exists_cons_hd.
  - now apply Exists_cons_tl.
  - apply Exists_cons_tl, IH.
Qed.

Lemma alter_keeps_nonneg (l : list R) (i : nat) :
  Forall (fun x => 0 <= x) l ->
  Forall (fun x => 0 <= x) (alter (fun v => add v inc) i l).
Proof.
  intros Hl. apply Forall_alter; [exact Hl |].
  intros x _ Hx. cbn. lra.
Qed.

Lemma hashChars_nonneg (i j : nat) (word : jsstring) (embedding : list R) :
  Forall (fun x => 0 <= x) embedding ->
  Forall (fun x => 0 <= x) (hashChars inc i j word embedding).
Proof.
  revert j embedding.
  induction word as [| c word IH]; intros j embedding H; simpl; [exact H |].
  apply IH, alter_keeps_nonneg, H.
Qed.

Lemma hashChars_keeps_positive (i j : nat) (word : jsstring)
    (embedding : list R) :
  Exists (fun x => 0 < x) embedding ->
  Exists (fun x => 0 < x) (hashChars inc i j word embedding).
Proof.
  revert j embedding.
  induction word as [| c word IH]; intros j embedding H; simpl; [exact H |].
  apply IH, alter_keeps_positive, H.
Qed.

(** A word with a code unit raises one of the 384 buckets. *)
Lemma hashChars_gives_positive (i j : nat) (word : jsstring)
    (embedding : list R) :
  word <> [] -> length embedding = 384%nat ->
  Forall (fun x => 0 <= x) embedding ->
  Exists (fun x => 0 < x) (hashChars inc i j word embedding).
Proof.
  intros Hw Hlen Hnn. destruct word as [| c word]; [contradiction |].
  simpl. apply hashChars_keeps_positive, alter_gives_positive; [exact Hnn |].
  rewrite Hlen.
  assert (((c + N.of_nat j * 17 + N.of_nat i * 31) mod 384 < 384)%N)
    by (apply N.mod_lt; lia).
  lia.
Qed.

Lemma hashWords_nonneg (i : nat) (words : list jsstring) (embedding : list R) :
  Forall (fun x => 0 <= x) embedding ->
  Forall (fun x => 0 <= x) (hashWords inc i words embedding).
Proof.
  revert i embedding.
  induction words as [| w words IH]; intros i embedding H; simpl; [exact H |].
  apply IH, hashChars_nonneg, H.
Qed.

Lemma hashWords_keeps_positive (i : nat) (words : list jsstring)
    (embedding : list R) :
  Exists (fun x => 0 < x) embedding ->
  Exists (fun x => 0 < x) (hashWords inc i words embedding).
Proof.
  revert i embedding.
  induction words as [| w words IH]; intros i embedding H; simpl; [exact H |].
  apply IH, hashChars_keeps_positive, H.
Qed.

Lemma hashWords_gives_positive (i : nat) (words : list jsstring)
    (embedding : list R) :
  Exists (fun w => w <> []) words -> length embedding = 384%nat ->
  Forall (fun x => 0 <= x) embedding ->
  Exists (fun x => 0 < x) (hashWords inc i words embedding).
Proof.
  intros Hw. revert i embedding.
  induction Hw as [w words Hne | w words _ IH]; intros i embedding Hlen Hnn;
    simpl.
  - now apply hashWords_keeps_positive, hashChars_gives_positive.
  - apply IH; [now rewrite hashChars_length | now apply hashChars_nonneg].
Qed.
End RealEmbedding.

Lemma Rltb_true (x y : R) : (x < y)%R -> Rltb x y = true.
Proof. intros H. unfold Rltb. destruct (Rlt_dec x y); [reflexivity | contradiction]. Qed.

Lemma Rltb_false (x y : R) : (y <= x)%R -> Rltb x y = false.
Proof. intros H. unfold Rltb. destruct (Rlt_dec x y); [lra | reflexivity]. Qed.

(** A text without a non-empty word is embedded as the zero vector. *)
Lemma simpleFallbackEmbedding_no_words {LC : Lowercase} (text : jsstring) :
  Forall (fun w => w = []) (splitWhite false (toLowerCase text)) ->
  simpleFallbackEmbedding text = replicate 384 0%R.
Proof.
  intros Hw. unfold simpleFallbackEmbedding.
  rewrite (hashWords_empty_words _ _ _ _ Hw).
  rewrite sumSquares_sumSq. unfold zero. cbn [ofN RealNumber Z.of_N].
  rewrite sumSq_replicate_zero. cbn [sqrt ltb RealNumber].
  rewrite sqrt_0, Rltb_false by lra. reflexivity.
Qed.

(** A text with a non-empty word is embedded as a vector of norm 1. *)
Lemma simpleFallbackEmbedding_some_word {LC : Lowercase} (text : jsstring) :
  Exists (fun w => w <> []) (splitWhite false (toLowerCase text)) ->
  l2norm (simpleFallbackEmbedding text) = 1%R.
Proof.
  intros Hw. unfold simpleFallbackEmbedding.
  set (words := splitWhite false (toLowerCase text)) in *.
  set (inc := div one (sqrt (ofN (N.of_nat (length words))))).
  set (emb := hashWords inc 0 words (replicate 384 zero)).
  assert (Hn : (0 < length words)%nat).
  { destruct Hw; simpl; lia. }
  assert (Hinc : (0 < inc)%R).
  { unfold inc, one. cbn [div sqrt ofN RealNumber].
    apply Rdiv_lt_0_compat; [simpl; lra |].
    apply sqrt_lt_R0. apply (IZR_lt 0). lia. }
  assert (Hpos : Exists (fun x => (0 < x)%R) emb).
  { apply hashWords_gives_positive; [exact Hinc | exact Hw | |].
    - apply length_replicate.
    - apply Forall_replicate. unfold zero. cbn. lra. }
  assert (HS : (0 < sumSq emb)%R) by now apply sumSq_pos.
  assert (Hnorm : (0 < R_sqrt.sqrt (sumSq emb))%R) by now apply sqrt_lt_R0.
  rewrite sumSquares_sumSq. unfold zero. cbn [sqrt ltb ofN RealNumber Z.of_N].
  rewrite Rltb_true by exact Hnorm.
  unfold l2norm. rewrite sumSquares_sumSq, sumSq_scaled by lra.
  rewrite sqrt_sqrt by lra.
  replace (sumSq emb / sumSq emb)%R with 1%R by (field; lra).
  cbn. apply sqrt_1.
Qed.

(** On binary64 too. *)
Lemma simpleFallbackEmbedding_no_words_float {LC : Lowercase}
    (text : jsstring) :
  Forall (fun w => w = []) (splitWhite false (toLowerCase text)) ->
  simpleFallbackEmbedding text = replicate 384 PrimFloat.zero.
Proof.
  intros Hw. unfold simpleFallbackEmbedding.
  rewrite (hashWords_empty_words _ _ _ _ Hw).
  replace (ltb zero (sqrt (sumSquares (replicate 384 zero)))) with false
    by (vm_compute; reflexivity).
  reflexivity.
Qed.

(** C3 (amended).  The fallback embedding is a function of the text alone:
    without a loaded model [embed] returns it whatever else the state of the
    service.  Its output always has length 384.  When the lower-cased text
    has no non-empty word between white space (the empty text and the texts
    of white space only) the output is the all-zero vector; otherwise its L2
    norm is 1 (in exact arithmetic).  Length and zero vector are stated on
    real numbers and on binary64, the norm on real numbers. *)
Theorem simpleFallbackEmbedding_norm {LC : Lowercase} (text : jsstring) :
  let words := splitWhite false (toLowerCase text) in
  let v : list R := simpleFallbackEmbedding text in
  let w : list PrimFloat.float := simpleFallbackEmbedding text in
  (embed None text = v /\ embed None text = w)
  /\ (length v = 384%nat /\ length w = 384%nat)
  /\ (Forall (fun word => word = []) words ->
      v = replicate 384 0%R /\ w = replicate 384 PrimFloat.zero)
  /\ (Exists (fun word => word <> []) words -> l2norm v = 1%R).
Proof.
  intros words v w. split; [split; reflexivity |].
  split; [split; apply simpleFallbackEmbedding_length |].
  split.
  - intros Hw. split.
    + now apply simpleFallbackEmbedding_no_words.
    + now apply simpleFallbackEmbedding_no_words_float.
  - apply simpleFallbackEmbedding_some_word.
Qed.

(** The theorem at the text ["ab"], which has a word, and at the empty
    text, which has none. *)
Lemma simpleFallbackEmbedding_norm_witness :
  l2norm (simpleFallbackEmbedding (LC := asciiLower) (js "ab")) = 1%R
  /\ simpleFallbackEmbedding (LC := asciiLower) (js "") = replicate 384 0%R.
Proof.
  split.
  - apply (proj2 (proj2 (proj2 (simpleFallbackEmbedding_norm
                                  (LC := asciiLower) (js "ab"))))).
    apply Exists_cons_hd. discriminate.
  - apply (proj1 (proj2 (proj2 (simpleFallbackEmbedding_norm
                                  (LC := asciiLower) (js ""))))).
    repeat constructor.
Defined.

(** C3, as stated, fails: the text [" "] is not empty, and its fallback
    embedding is the all-zero vector, in exact arithmetic and on
    binary64. *)
Lemma simpleFallbackEmbedding_blank_text :
  js " " <> []
  /\ simpleFallbackEmbedding (LC := asciiLower) (js " ") = replicate 384 0%R
  /\ simpleFallbackEmbedding (LC := asciiLower) (js " ")
     = replicate 384 PrimFloat.zero.
Proof.
  split; [discriminate |]. split.
  - apply simpleFallbackEmbedding_no_words. repeat constructor.
  - vm_compute. reflexivity.
Qed.

(** ** Chunking *)

Lemma chunkText_closeChunks (text : jsstring) (maxChunkSize : Z) :
  chunkText text maxChunkSize
  = match closeChunks (fold_left (chunkStep maxChunkSize)
                         (splitBlank false text) ([], [])) with
    | [] => [text]
    | c :: cs => c :: cs
    end.
Proof.
  unfold chunkText, closeChunks.
  destruct (fold_left _ _ _) as [chunks [| c cur]]; simpl.
  - now destruct chunks.
  - destruct chunks; reflexivity.
Qed.

(** A text that yields no paragraph (all pieces of the split are empty) is
    one chunk, the text itself. *)
Lemma chunkText_no_paragraphs (text : jsstring) (maxChunkSize : Z) :
  Forall (fun p => p = []) (splitBlank false text) ->
  chunkText text maxChunkSize = [text].
Proof.
  intros H. rewrite chunkText_closeChunks.
  assert (Hfold : fold_left (chunkStep maxChunkSize) (splitBlank false text)
                    ([], []) = ([], [])).
  { induction H as [| p ps -> _ IH]; [reflexivity |].
    cbn [fold_left]. unfold chunkStep at 2. cbn [length app].
    destruct (_ <=? _)%Z; exact IH. }
  now rewrite Hfold.
Qed.

Section ChunkLoop.
Variable maxChunkSize : Z.
Hypothesis max_nonneg : (0 <= maxChunkSize)%Z.

Lemma closeChunks_keeps (ps : list jsstring) (chunks : list jsstring)
    (cur x : jsstring) :
  In x chunks ->
  In x (closeChunks (fold_left (chunkStep maxChunkSize) ps (chunks, cur))).
Proof.
  revert chunks cur.
  induction ps as [| p ps IH]; intros chunks cur Hx.
  - unfold closeChunks. simpl. destruct cur; [exact Hx |].
    apply in_or_app. now left.
  - cbn [fold_left]. unfold chunkStep at 2.
    destruct (_ <=? _)%Z; [now apply IH |].
    apply IH. destruct cur; [exact Hx |]. apply in_or_app. now left.
Qed.

Lemma closeChunks_oversized_current (ps : list jsstring)
    (chunks : list jsstring) (cur : jsstring) :
  (maxChunkSize < Z.of_nat (length cur))%Z ->
  In cur (closeChunks (fold_left (chunkStep maxChunkSize) ps (chunks, cur))).
Proof.
  intros Hbig.
  assert (Hne : cur <> []) by (intros ->; simpl in Hbig; lia).
  destruct ps as [| p ps].
  - unfold closeChunks. simpl. destruct cur; [contradiction |].
    apply in_or_app. right. now left.
  - cbn [fold_left]. unfold chunkStep at 2.
    destruct (Z.leb_spec (Z.of_nat (length cur) + Z.of_nat (length p))
                maxChunkSize) as [Hle | _]; [lia |].
    apply closeChunks_keeps. destruct cur; [contradiction |].
    apply in_or_app. right. now left.
Qed.

Lemma closeChunks_oversized_paragraph (ps : list jsstring)
    (chunks : list jsstring) (cur p : jsstring) :
  In p ps -> (maxChunkSize < Z.of_nat (length p))%Z ->
  In p (closeChunks (fold_left (chunkStep maxChunkSize) ps (chunks, cur))).
Proof.
  revert chunks cur.
  induction ps as [| p' ps IH]; intros chunks cur Hin Hbig; [destruct Hin |].
  destruct Hin as [-> | Hin].
  - cbn [fold_left]. unfold chunkStep at 2.
    destruct (Z.leb_spec (Z.of_nat (length cur) + Z.of_nat (length p))
                maxChunkSize) as [Hle | _]; [lia |].
    now apply closeChunks_oversized_current.
  - cbn [fold_left]. destruct (chunkStep maxChunkSize (chunks, cur) p').
    now apply IH.
Qed.

(** A paragraph longer than the maximum is a chunk of its own. *)
Lemma chunkText_oversized_paragraph (text p : jsstring) :
  In p (splitBlank false text) ->
  (maxChunkSize < Z.of_nat (length p))%Z ->
  In p (chunkText text maxChunkSize).
Proof.
  intros Hin Hbig. rewrite chunkText_closeChunks.
  pose proof (closeChunks_oversized_paragraph _ [] [] p Hin Hbig) as H.
  destruct (closeChunks _); [destruct H | exact H].
Qed.
End ChunkLoop.

(** ** The size of accumulated chunks *)

Section ChunkBound.
Variable maxChunkSize : Z.
Hypothesis max_nonneg : (0 <= maxChunkSize)%Z.
Variable paragraphs : list jsstring.

(** A chunk is a paragraph as it stands, or it was accumulated and is at
    most two characters (one separator) above the maximum. *)
Let bounded (c : jsstring) : Prop :=
  In c paragraphs \/ (Z.of_nat (length c) <= maxChunkSize + 2)%Z.

Lemma closeChunks_bounded (ps chunks : list jsstring) (cur : jsstring) :
  (forall p, In p ps -> In p paragraphs) ->
  Forall bounded chunks -> bounded cur ->
  Forall bounded
    (closeChunks (fold_left (chunkStep maxChunkSize) ps (chunks, cur))).
Proof.
  revert chunks cur.
  induction ps as [| p ps IH]; intros chunks cur Hps Hchunks Hcur.
  - unfold closeChunks. simpl. destruct cur; [exact Hchunks |].
    apply Forall_app. split; [exact Hchunks | now constructor].
  - cbn [fold_left]. unfold chunkStep at 2.
    assert (Hp : In p paragraphs) by (apply Hps; now left).
    assert (Hps' : forall p', In p' ps -> In p' paragraphs)
      by (intros p' H; apply Hps; now right).
    destruct (Z.leb_spec (Z.of_nat (length cur) + Z.of_nat (length p))
                maxChunkSize) as [Hle | _].
    + apply IH; [exact Hps' | exact Hchunks |].
      destruct cur as [| c cur]; [now left |].
      right. rewrite !length_app. unfold blankLine.
      cbn [length] in *. lia.
    + apply IH; [exact Hps' | | now left].
      destruct cur; [exact Hchunks |].
      apply Forall_app. split; [exact Hchunks | now constructor].
Qed.
End ChunkBound.

(** Every chunk is the whole text, or a paragraph as it stands, or at most
    two characters longer than the maximum. *)
Lemma chunkText_bound (text : jsstring) (maxChunkSize : Z) (c : jsstring) :
  (0 <= maxChunkSize)%Z -> In c (chunkText text maxChunkSize) ->
  c = text \/ In c (splitBlank false text)
  \/ (Z.of_nat (length c) <= maxChunkSize + 2)%Z.
Proof.
  intros Hmax Hc. rewrite chunkText_closeChunks in Hc.
  pose proof (closeChunks_bounded maxChunkSize (splitBlank false text)
                (splitBlank false text) [] []) as H.
  cbv zeta in H.
  assert (Hall : Forall (fun c => In c (splitBlank false text)
                          \/ (Z.of_nat (length c) <= maxChunkSize + 2)%Z)
                   (closeChunks (fold_left (chunkStep maxChunkSize)
                                   (splitBlank false text) ([], [])))).
  { apply H; [auto | constructor |]. right. simpl. lia. }
  destruct (closeChunks _) as [| c0 cs].
  - destruct Hc as [<- | []]. now left.
  - right. rewrite Forall_forall in Hall. now apply Hall.
Qed.

(** C4 at the text [twoParagraphs] with the maximum 10: the two paragraphs
    are accumulated into one chunk, and that chunk has 12 characters. *)
Theorem chunkText_exceeds_maximum :
  splitBlank false twoParagraphs = [js "aaaaa"; js "bbbbb"]
  /\ chunkText twoParagraphs 10 = [twoParagraphs]
  /\ length twoParagraphs = 12%nat.
Proof. repeat split. Qed.

(** ** The historical success rate *)

(** [new Set(arr)] has the elements of [arr], each once. *)
Lemma newSet_fold (arr acc : list jsstring) :
  let s := fold_left (fun s x => if bool_decide (x ∈ s) then s else s ++ [x])
             arr acc in
  (forall x, x ∈ s <-> x ∈ acc \/ x ∈ arr)
  /\ (base.NoDup acc -> base.NoDup s).
Proof.
  revert acc. induction arr as [| y arr IH]; intros acc; cbn zeta.
  - simpl. split; [| trivial]. intros x. rewrite elem_of_nil. tauto.
  - cbn [fold_left]. destruct (IH (if bool_decide (y ∈ acc) then acc
                                   else acc ++ [y])) as [Hel Hnd].
    cbn zeta in Hel, Hnd. split.
    + intros x. rewrite Hel, elem_of_cons.
      case_bool_decide as Hy.
      * split; [tauto |]. intros [H | [-> | H]]; tauto.
      * rewrite elem_of_app, list_elem_of_singleton. tauto.
    + intros Hacc. apply Hnd. case_bool_decide as Hy; [exact Hacc |].
      apply list.NoDup_app. split; [exact Hacc |]. split.
      * intros x Hx Hx'. apply list_elem_of_singleton in Hx'. now subst.
      * apply NoDup_singleton.
Qed.

Lemma newSet_elem_of (arr : list jsstring) (x : jsstring) :
  x ∈ newSet arr <-> x ∈ arr.
Proof.
  unfold newSet. rewrite (proj1 (newSet_fold arr [])), elem_of_nil. tauto.
Qed.

Lemma newSet_NoDup (arr : list jsstring) : base.NoDup (newSet arr).
Proof. apply (proj2 (newSet_fold arr [])). constructor. Qed.

(** The [size] of [new Set(arr)] is the size of the set of its elements. *)
Lemma newSet_size (arr : list jsstring) (X : gset jsstring) :
  (forall x, x ∈ X <-> x ∈ arr) -> length (newSet arr) = size X.
Proof.
  intros HX. rewrite <- (size_list_to_set (C := gset jsstring) (newSet arr))
    by apply newSet_NoDup.
  f_equal. apply set_eq. intros x.
  now rewrite elem_of_list_to_set, newSet_elem_of, HX.
Qed.

(** *** Pieces, words and tokens *)

Lemma splitWhite_nonempty (skip : bool) (s : jsstring) :
  (0 < length (splitWhite skip s))%nat.
Proof.
  revert skip. induction s as [| c s IH]; intros skip; simpl; [lia |].
  destruct (isWhiteSpace c).
  - destruct skip; [apply IH | simpl; lia].
  - specialize (IH false). destruct (splitWhite false s); simpl in *; lia.
Qed.

(** The words of a text are the non-empty pieces of [split(/\s+/)]. *)
Lemma wordsFrom_splitWhite (s : jsstring) :
  (forall cur,
     wordsFrom cur s
     = List.filter (fun w => (0 <? length w)%nat)
         (match splitWhite false s with
          | w :: ws => (cur ++ w) :: ws
          | [] => []
          end))
  /\ wordsFrom [] s
     = List.filter (fun w => (0 <? length w)%nat) (splitWhite true s).
Proof.
  induction s as [| c s [IHf IHt]].
  - split; [| reflexivity]. intros [| x cur]; [reflexivity |].
    cbn [wordsFrom splitWhite List.filter]. now rewrite app_nil_r.
  - cbn [wordsFrom splitWhite]. destruct (isWhiteSpace c).
    + split; [| exact IHt]. intros [| x cur].
      * cbn [app List.filter length Nat.ltb Nat.leb]. exact IHt.
      * rewrite app_nil_r. cbn [List.filter length Nat.ltb Nat.leb].
        now rewrite IHt.
    + pose proof (splitWhite_nonempty false s) as Hne.
      split.
      * intros cur. rewrite IHf.
        destruct (splitWhite false s) as [| w ws]; [simpl in Hne; lia |].
        cbn [consHead]. now rewrite <- app_assoc.
      * rewrite IHf.
        destruct (splitWhite false s) as [| w ws]; [simpl in Hne; lia |].
        reflexivity.
Qed.

Lemma wordsOf_splitWhite (s : jsstring) :
  wordsOf s
  = List.filter (fun w => (0 <? length w)%nat) (splitWhite false s).
Proof.
  unfold wordsOf. rewrite (proj1 (wordsFrom_splitWhite s) []).
  now destruct (splitWhite false s).
Qed.

Lemma endsBlank_cons (c : N) (s : jsstring) :
  endsBlank (c :: s) = match s with [] => isWhiteSpace c | _ => endsBlank s end.
Proof. now destruct s. Qed.

(** Where the empty piece occurs: after the first piece only when the text
    ends with white space. *)
Lemma splitWhite_empty_tail (s : jsstring) :
  (In [] (tl (splitWhite false s)) <-> endsBlank s = true)
  /\ (In [] (splitWhite true s) <-> s = [] \/ endsBlank s = true).
Proof.
  induction s as [| c s [IHf IHt]].
  - simpl. split; [split; [tauto | discriminate] | tauto].
  - rewrite endsBlank_cons. cbn [splitWhite].
    destruct (isWhiteSpace c) eqn:Hc.
    + cbn [tl]. rewrite IHt.
      destruct s as [| c' s']; split; split; intros H;
        try tauto; try discriminate;
        try (destruct H as [H | H]; [discriminate | tauto]).
    + pose proof (splitWhite_nonempty false s) as Hne.
      destruct (splitWhite false s) as [| w ws]; [simpl in Hne; lia |].
      cbn [consHead tl In] in *.
      destruct s as [| c' s']; split; split; intros H; simpl in *;
        try tauto; try discriminate;
        try (destruct H as [H | H]; try discriminate; tauto).
Qed.

Lemma splitWhite_empty_piece (s : jsstring) :
  In [] (splitWhite false s) <-> edgeBlank s = true.
Proof.
  destruct s as [| c s]; [simpl; tauto |].
  unfold edgeBlank. rewrite endsBlank_cons. cbn [splitWhite].
  destruct (isWhiteSpace c) eqn:Hc; cbn [orb].
  - split; [reflexivity | intros _; now left].
  - pose proof (splitWhite_nonempty false s) as Hne.
    pose proof (proj1 (splitWhite_empty_tail s)) as Htl.
    destruct (splitWhite false s) as [| w ws]; [simpl in Hne; lia |].
    cbn [consHead tl In] in *.
    destruct s as [| c' s'].
    + simpl in Htl. split; [intros [H | H]; [discriminate | tauto] |
                             discriminate].
    + rewrite <- Htl. split; [intros [H | H]; [discriminate | exact H] | tauto].
Qed.

Section SuccessRateFacts.
Context {num : Type} {NUM : Number num} {LC : Lowercase}.

(** The pieces of the split are the tokens: the words, and the empty string
    for a query that is empty or begins or ends with white space. *)
Lemma pieceSet_tokenSet (q : jsstring) : pieceSet q = tokenSet q.
Proof.
  unfold pieceSet, tokenSet, wordSet. rewrite wordsOf_splitWhite.
  pose proof (splitWhite_empty_piece (toLowerCase q)) as Hempty.
  set (pieces := splitWhite false (toLowerCase q)) in *.
  apply set_eq. intros x.
  rewrite elem_of_union, !elem_of_list_to_set, !list_elem_of_In, filter_In.
  destruct x as [| c x].
  - rewrite Hempty. destruct (edgeBlank (toLowerCase q)).
    + split; [intros _; right; now apply elem_of_singleton | reflexivity].
    + split; [discriminate |].
      intros [[_ H] | H]; [discriminate | now apply not_elem_of_empty in H].
  - split; [intros H; left; now split |].
    intros [[H _] | H]; [exact H |].
    destruct (edgeBlank (toLowerCase q)).
    + apply elem_of_singleton in H. discriminate.
    + now apply not_elem_of_empty in H.
Qed.

(** The test of the source is the Jaccard test of the specification. *)
Lemma isSimilarContext_jaccard (context1 context2 : SkillContext num) :
  isSimilarContext context1 context2
  = similarQueries (query context1) (query context2).
Proof.
  unfold similarQueries. rewrite <- !pieceSet_tokenSet.
  unfold isSimilarContext, jaccard, pieceSet.
  set (l1 := splitWhite false (toLowerCase (query context1))).
  set (l2 := splitWhite false (toLowerCase (query context2))).
  rewrite (newSet_size _ (list_to_set l1 ∩ list_to_set l2)).
  - rewrite (newSet_size _ (list_to_set l1 ∪ list_to_set l2)); [reflexivity |].
    intros x. rewrite elem_of_union, !elem_of_list_to_set, elem_of_app.
    now rewrite !newSet_elem_of.
  - intros x. rewrite elem_of_intersection, !elem_of_list_to_set. split.
    + intros [H1 H2]. apply list_elem_of_In, filter_In. split.
      * now apply list_elem_of_In, newSet_elem_of.
      * now apply bool_decide_eq_true, newSet_elem_of.
    + intros H. apply list_elem_of_In, filter_In in H.
      destruct H as [H1 H2].
      apply list_elem_of_In in H1. apply bool_decide_eq_true in H2.
      rewrite newSet_elem_of in H1, H2. now split.
Qed.

Lemma filter_length_count (records : list (SkillExecutionHistory num)) :
  length (List.filter (fun h => success (history_result h)) records)
  = count_occ bool_dec
      (List.map (fun h => success (history_result h)) records) true.
Proof.
  induction records as [| h records IH]; simpl; [reflexivity |].
  destruct (success (history_result h)); simpl; now rewrite IH.
Qed.

(** C5 (amended).  The success rate computed by [calculateSuccessRate] is
    the fraction of the records with [success = true] among exactly the
    history records with the given skill id whose stored query has a
    token-level, case-insensitive Jaccard similarity above 0.3 with the
    current query, and it is 0.5 when there is no such record.  The tokens
    of a query are its words (the maximal runs of characters that are not
    white space) together with the empty string when the query is empty or
    begins or ends with white space.  This holds on every arithmetic,
    binary64 included. *)
Theorem calculateSuccessRate_spec (m : SkillManager num) (sid : jsstring)
    (ctx : SkillContext num) :
  calculateSuccessRate m sid ctx
  = specSuccessRate (executionHistory m) sid (query ctx).
Proof.
  unfold calculateSuccessRate, specSuccessRate, matchingRecords.
  rewrite (filter_ext _ (fun h => bool_decide (skillId h = sid)
             && similarQueries (query (history_context h)) (query ctx))).
  - destruct (List.filter _ (executionHistory m)) as [| h records];
      [reflexivity |].
    cbn [length Nat.eqb]. unfold successFraction.
    now rewrite filter_length_count.
  - intros h. now rewrite isSimilarContext_jaccard.
Qed.
End SuccessRateFacts.

(** C5, the claim as worded fails: on binary64, after one successful run of
    the skill ['ok'] for the query ['bar '], the success rate of ['ok'] for
    the query ['foo '] is 1, because the two queries share the empty token
    that the trailing space leaves; at word level the queries have nothing
    in common (their Jaccard similarity is 0), there is no similar record
    and the rate would be 0.5. *)
Lemma calculateSuccessRate_trailing_space :
  calculateSuccessRate (LC := asciiLower) barManager (js "ok")
    (queryContext (js "foo ")) = one
  /\ wordSet (LC := asciiLower) (js "bar ") ∩ wordSet (LC := asciiLower) (js "foo ")
     = ∅
  /\ wordLevelSuccessRate (LC := asciiLower) (executionHistory barManager)
       (js "ok") (js "foo ") = lit_0_5
  /\ PrimFloat.eqb one lit_0_5 = false.
Proof.
  split; [vm_compute; reflexivity |].
  assert (Hempty : wordSet (LC := asciiLower) (js "bar ")
                   ∩ wordSet (LC := asciiLower) (js "foo ")
                   = (∅ : gset jsstring)).
  { apply set_eq. intros x. unfold wordSet.
    rewrite elem_of_intersection, !elem_of_list_to_set.
    replace (wordsOf (toLowerCase (js "bar "))) with [js "bar"]
      by reflexivity.
    replace (wordsOf (toLowerCase (js "foo "))) with [js "foo"]
      by reflexivity.
    rewrite !list_elem_of_singleton. split.
    - intros [-> H]. discriminate.
    - intros H. now apply not_elem_of_empty in H. }
  split; [exact Hempty |]. split; [| vm_compute; reflexivity].
  unfold wordLevelSuccessRate, barManager.
  replace (executionHistory
             (snd (executeSkill (registerSkill newSkillManager succeedingSkill)
                     0 (js "ok") (queryContext (js "bar ")))))
    with [{| skillId := js "ok";
             history_context := queryContext (num := PrimFloat.float)
                                  (js "bar ");
             history_result := runSkill succeedingSkill
                                 (queryContext (js "bar "));
             history_timestamp := 0 |}] by reflexivity.
  cbn [List.filter skillId history_context queryContext query].
  rewrite bool_decide_eq_true_2 by reflexivity. cbn [andb].
  unfold similarWords, jaccard. rewrite Hempty, size_empty.
  assert (Hlt : ltb (num := PrimFloat.float) lit_0_3
                  (div (ofN (N.of_nat 0))
                     (ofN (N.of_nat
                             (size (wordSet (LC := asciiLower) (js "bar ")
                                    ∪ wordSet (LC := asciiLower) (js "foo "))))))
                = false).
  { assert (Hsize : size (wordSet (LC := asciiLower) (js "bar ")
                          ∪ wordSet (LC := asciiLower) (js "foo ")) = 2%nat).
    { unfold wordSet.
      replace (wordsOf (toLowerCase (js "bar "))) with [js "bar"]
        by reflexivity.
      replace (wordsOf (toLowerCase (js "foo "))) with [js "foo"]
        by reflexivity.
      rewrite !list_to_set_singleton.
      rewrite size_union by (apply disjoint_singleton_l;
                             rewrite elem_of_singleton; discriminate).
      now rewrite !size_singleton. }
    rewrite Hsize. vm_compute. reflexivity. }
  now rewrite Hlt.
Qed.

(** ** Executing a skill *)

(** C7.  [executeSkill(skillId, context)] on an unregistered id throws
    'Skill not found' and leaves the manager, its history included, as it
    was.  On a registered skill it returns normally, also when the skill's
    [execute] throws: the result is then [success = false] with the error
    message captured; and in either case exactly one record, made of the
    skill id, the context, the result and the time, is appended to the
    history. *)
Theorem executeSkill_records {num : Type} {NUM : Number num}
    (m : SkillManager num) (now : Z) (sid : jsstring)
    (ctx : SkillContext num) :
  (mapGet sid (skills m) = None ->
     executeSkill m now sid ctx = (Throw (SkillNotFound sid), m))
  /\ (forall s, mapGet sid (skills m) = Some s ->
        exists r,
          executeSkill m now sid ctx
          = (Ok r,
             {| skills := skills m;
                executionHistory :=
                  executionHistory m
                  ++ [{| skillId := sid; history_context := ctx;
                         history_result := r; history_timestamp := now |}] |})
          /\ match execute s ctx with
             | inl returned => r = returned
             | inr (ThrownError message) =>
                 success r = false /\ error r = Some message
             | inr (ThrownOther asString) =>
                 success r = false /\ error r = Some asString
             end).
Proof.
  split.
  - intros Hnone. unfold executeSkill. now rewrite Hnone.
  - intros s Hsome. exists (runSkill s ctx). split.
    + unfold executeSkill. now rewrite Hsome.
    + unfold runSkill. destruct (execute s ctx) as [r | [msg | str]];
        simpl; auto.
Qed.

(** The theorem at a manager that holds only [failingSkill]: executing it
    gives a failed result and one history record; executing an unknown id
    throws. *)
Lemma executeSkill_records_witness :
  (exists r,
     executeSkill (registerSkill newSkillManager failingSkill) 0 (js "fail")
       (exampleContext (num := R))
     = (Ok r,
        {| skills := [(js "fail", failingSkill)];
           executionHistory :=
             [{| skillId := js "fail"; history_context := exampleContext;
                 history_result := r; history_timestamp := 0 |}] |})
     /\ success r = false /\ error r = Some (js "boom"))
  /\ executeSkill (registerSkill newSkillManager failingSkill) 0 (js "other")
       (exampleContext (num := R))
     = (Throw (SkillNotFound (js "other")),
        registerSkill newSkillManager failingSkill).
Proof.
  split.
  - apply (proj2 (executeSkill_records
                    (registerSkill newSkillManager failingSkill) 0
                    (js "fail") exampleContext) failingSkill).
    reflexivity.
  - apply (proj1 (executeSkill_records
                    (registerSkill newSkillManager failingSkill) 0
                    (js "other") exampleContext)).
    reflexivity.
Defined.

(** ** Relevance and confidence *)


Section RelevanceFacts.
Context {num : Type} {NUM : Number num} {LC : Lowercase}.



End RelevanceFacts.

Section ConfidenceFacts.
Context {LC : Lowercase}.
Open Scope R_scope.








End ConfidenceFacts.


(** ** Ingestion *)

Lemma idsFrom_nth (randomHex : nat -> jsstring) (n k j : nat) :
  (j < k)%nat -> nth_error (idsFrom randomHex n k) j = Some (randomHex (n + j)%nat).
Proof.
  revert n j. induction k as [| k IH]; intros n j Hj; [lia |].
  destruct j as [| j]; simpl.
  - now rewrite Nat.add_0_r.
  - rewrite IH by lia. f_equal. f_equal. lia.
Qed.

Section IngestFacts.
Context {num : Type} {NUM : Number num} {LC : Lowercase}.
Variable convertToText : jsstring -> result ConversionResult.
Variable randomHex : nat -> jsstring.
Variable dateNow : nat -> Z.

(** The loop of [ingest] draws one id per chunk, in chunk order; it leaves
    the entries under other ids alone; and, when the ids drawn are pairwise
    distinct, the entry under the [j]-th id holds the [j]-th chunk. *)
Lemma ingestLoop_ids (filePath : jsstring) (options : IngestionOptions)
    (conv : ConversionResult) (totalChunks : nat) (chunks : list jsstring) :
  forall (i : nat) (am : AgentMemory num) (memoryIds : list jsstring),
    let res := ingestLoop randomHex dateNow filePath options conv totalChunks
                 i chunks (am, memoryIds) in
    let ids := idsFrom randomHex (idsDrawn am) (length chunks) in
    snd res = memoryIds ++ ids
    /\ idsDrawn (fst res) = (idsDrawn am + length chunks)%nat
    /\ (forall k, ~ In k ids ->
          mapGet k (vectorStore (fst res)) = mapGet k (vectorStore am))
    /\ (NoDup ids ->
        forall j chunk, nth_error chunks j = Some chunk ->
          exists e,
            get (vectorStore (fst res)) (randomHex (idsDrawn am + j)%nat)
              = Some e
            /\ id e = randomHex (idsDrawn am + j)%nat
            /\ content e = chunk).
Proof.
  induction chunks as [| c chunks IH]; intros i am memoryIds; cbn zeta.
  - simpl. rewrite app_nil_r, Nat.add_0_r.
    repeat split; try reflexivity. intros _ [| j] chunk H; discriminate.
  - cbn [ingestLoop length idsFrom].
    unfold ingestChunk at 1 2 3 4.
    match goal with
    | |- context [ingestLoop _ _ _ _ _ _ _ _ (?a, ?l)] =>
        set (am1 := a); set (ids1 := l)
    end.
    destruct (IH (S i) am1 ids1) as [Hids [Hdrawn [Hframe Hstored]]].
    cbn zeta in Hids, Hdrawn, Hframe, Hstored.
    assert (Hd1 : idsDrawn am1 = S (idsDrawn am)) by reflexivity.
    rewrite Hd1 in *.
    split; [| split; [| split]].
    + rewrite Hids. unfold ids1. now rewrite <- app_assoc.
    + rewrite Hdrawn. lia.
    + intros k Hk. rewrite Hframe by (intros Hin; apply Hk; now right).
      unfold am1. cbn [vectorStore]. unfold store. cbn [id].
      apply mapGet_mapSet_ne. intros ->. apply Hk. now left.
    + intros Hnd j chunk Hj. apply NoDup_cons_iff in Hnd.
      destruct Hnd as [Hfresh Hnd]. destruct j as [| j].
      * injection Hj as <-. rewrite Nat.add_0_r. unfold get.
        rewrite Hframe by exact Hfresh.
        unfold am1. cbn [vectorStore]. unfold store. cbn [id].
        rewrite mapGet_mapSet. cbn [fst]. eexists. split; [reflexivity |].
        split; reflexivity.
      * replace (idsDrawn am + S j)%nat with (S (idsDrawn am) + j)%nat by lia.
        now apply Hstored.
Qed.

(** C9 (amended).  When the conversion of the file succeeds and yields [k]
    chunks, [ingest] draws [k] ids and returns one string: these ids, in
    chunk order, joined by commas.  When the ids drawn are pairwise
    distinct, the entry stored under the [j]-th id holds the [j]-th
    chunk. *)
Theorem ingest_joined_ids (am : AgentMemory num) (filePath : jsstring)
    (options : IngestionOptions) (conv : ConversionResult) :
  convertToText filePath = Ok conv ->
  let chunks :=
    chunkText (conv_content conv) (orNumber (chunkSize options) 1000) in
  let ids := idsFrom randomHex (idsDrawn am) (length chunks) in
  let res := ingest convertToText randomHex dateNow am filePath options in
  fst res = Ok (join (js ",") ids)
  /\ idsDrawn (snd res) = (idsDrawn am + length chunks)%nat
  /\ (NoDup ids ->
      forall j chunk, nth_error chunks j = Some chunk ->
        exists i e,
          nth_error ids j = Some i
          /\ get (vectorStore (snd res)) i = Some e
          /\ id e = i /\ content e = chunk).
Proof.
  intros Hconv chunks ids res. unfold res, ingest. rewrite Hconv.
  fold chunks.
  destruct (ingestLoop_ids filePath options conv (length chunks) chunks 0 am [])
    as [Hids [Hdrawn [_ Hstored]]].
  cbn zeta in Hids, Hdrawn, Hstored. fold ids in Hids, Hstored.
  destruct (ingestLoop _ _ _ _ _ _ _ _ _) as [am' memoryIds].
  cbn [fst snd] in *. subst memoryIds. cbn [app].
  split; [reflexivity |]. split; [exact Hdrawn |].
  intros Hnd j chunk Hj.
  destruct (Hstored Hnd j chunk Hj) as [e [Hget [Hid Hcontent]]].
  exists (randomHex (idsDrawn am + j)%nat), e.
  split; [| auto].
  apply idsFrom_nth. apply nth_error_Some. congruence.
Qed.
End IngestFacts.

(** The theorem at a file whose text [twoParagraphs] is cut into two chunks
    of five characters: the string returned is the first two ids drawn,
    joined by a comma. *)
Lemma ingest_joined_ids_witness :
  fst (ingest (LC := asciiLower) readTwoParagraphs hexId (fun _ => 0%Z)
         freshMemory (js "notes.txt") chunksOfFive)
  = Ok (join (js ",") [hexId 0; hexId 1]).
Proof.
  apply (proj1 (ingest_joined_ids (LC := asciiLower) readTwoParagraphs hexId
                  (fun _ => 0%Z) freshMemory (js "notes.txt") chunksOfFive
                  {| conv_content := twoParagraphs;
                     originalFormat := js "txt" |} eq_refl)).
Defined.

(** C9, as stated, fails: for a file of two chunks [ingest] returns not a
    list of two ids but one string of 65 characters, the two ids with a
    comma between them. *)
Lemma ingest_returns_one_string :
  chunkText twoParagraphs 5 = [js "aaaaa"; js "bbbbb"]
  /\ fst (ingest (LC := asciiLower) readTwoParagraphs hexId (fun _ => 0%Z)
            freshMemory (js "notes.txt") chunksOfFive)
     = Ok (hexId 0 ++ js "," ++ hexId 1)
  /\ length (hexId 0 ++ js "," ++ hexId 1) = 65%nat.
Proof. repeat split; vm_compute; reflexivity. Qed.

(** ** Recall *)

(** C10.  [recall] cuts the results down to [limit] inside [search], before
    it filters them.  In the memory [threeHellos], which holds the text
    ['hello'] three times, as two conversations and then a document, the
    query ['hello'] with limit 1 and the filter [type = document] returns no
    result, although one stored entry reaches the threshold and passes the
    filter: the only result of the search is the first conversation. *)
Theorem recall_limit_before_filter :
  let options :=
    {| limit := Some 1%Z; threshold := None; filters := Some documentsOnly |} in
  recall (LC := asciiLower) threeHellos (js "hello") options = Ok []
  /\ List.map (fun e => type (metadata e))
       (qualifying (LC := asciiLower) threeHellos (js "hello")
          (similarityThreshold threeHellos) documentsOnly)
     = [document]
  /\ count (vectorStore threeHellos) = 3%nat.
Proof. repeat split; vm_compute; reflexivity. Qed.

(* ================================================================== *)
(** * Further properties *)

(** ** VectorStore as a map *)

Lemma mapSet_keys {V : Type} (k : jsstring) (v : V) (m : jsmap V) :
  List.map fst (mapSet k v m)
  = match mapGet k m with
    | Some _ => List.map fst m
    | None => List.map fst m ++ [k]
    end.
Proof.
  induction m as [| [k' v'] m IH]; simpl; [reflexivity |].
  destruct (decide (k' = k)) as [-> | Hne]; simpl; [reflexivity |].
  rewrite IH. now destruct (mapGet k m).
Qed.

Lemma mapGet_None {V : Type} (k : jsstring) (m : jsmap V) :
  mapGet k m = None <-> ~ In k (List.map fst m).
Proof.
  induction m as [| [k' v'] m IH]; simpl; [tauto |].
  destruct (decide (k' = k)) as [-> | Hne].
  - split; [discriminate | intros H; exfalso; apply H; now left].
  - rewrite IH. split; [intros H [? | ?]; congruence | tauto].
Qed.

Lemma mapSet_In {V : Type} (k : jsstring) (v : V) (m : jsmap V)
    (kv : jsstring * V) :
  In kv (mapSet k v m) -> kv = (k, v) \/ In kv m.
Proof.
  induction m as [| [k' v'] m IH]; simpl.
  - intros [<- | []]. now left.
  - destruct (decide (k' = k)) as [-> | Hne]; simpl.
    + intros [<- | H]; auto.
    + intros [<- | H]; auto. destruct (IH H); auto.
Qed.

Lemma mapDelete_keys {V : Type} (k : jsstring) (m : jsmap V) :
  List.map fst (mapDelete k m)
  = List.filter (fun k' => negb (bool_decide (k' = k))) (List.map fst m).
Proof.
  unfold mapDelete. induction m as [| [k' v'] m IH]; simpl; [reflexivity |].
  destruct (bool_decide (k' = k)); simpl; now rewrite IH.
Qed.

Lemma NoDup_filter_keys (f : jsstring -> bool) (l : list jsstring) :
  NoDup l -> NoDup (List.filter f l).
Proof.
  induction 1 as [| x l Hx Hl IH]; simpl; [constructor |].
  destruct (f x); [| exact IH].
  constructor; [| exact IH]. intros Hin. apply filter_In in Hin. tauto.
Qed.

Lemma mapGet_mapDelete {V : Type} (k k0 : jsstring) (m : jsmap V) :
  mapGet k0 (mapDelete k m) = if decide (k0 = k) then None else mapGet k0 m.
Proof.
  unfold mapDelete. induction m as [| [k' v'] m IH]; simpl.
  - now destruct (decide (k0 = k)).
  - destruct (decide (k' = k)) as [-> | Hne].
    + rewrite bool_decide_eq_true_2 by reflexivity. simpl. rewrite IH.
      destruct (decide (k0 = k)) as [-> | Hk0]; [reflexivity |].
      now rewrite decide_False by congruence.
    + rewrite bool_decide_eq_false_2 by exact Hne. simpl. rewrite IH.
      destruct (decide (k' = k0)) as [-> | Hk'].
      * now rewrite decide_False by congruence.
      * reflexivity.
Qed.

Lemma mapDelete_length {V : Type} (k : jsstring) (m : jsmap V) (v : V) :
  NoDup (List.map fst m) -> mapGet k m = Some v ->
  S (length (mapDelete k m)) = length m.
Proof.
  unfold mapDelete. induction m as [| [k' v'] m IH]; simpl; [discriminate |].
  intros Hnd Hget. apply NoDup_cons_iff in Hnd. destruct Hnd as [Hfresh Hnd].
  destruct (decide (k' = k)) as [-> | Hne].
  - rewrite bool_decide_eq_true_2 by reflexivity. simpl. f_equal.
    clear IH Hget. induction m as [| [k1 v1] m IH]; simpl; [reflexivity |].
    simpl in Hfresh. apply NoDup_cons_iff in Hnd.
    rewrite bool_decide_eq_false_2 by tauto. simpl. f_equal.
    apply IH; tauto.
  - rewrite bool_decide_eq_false_2 by exact Hne. simpl. f_equal. now apply IH.
Qed.

Section StoreFacts.
Context {num : Type} {NUM : Number num}.

Lemma get_mapGet (vectors : VectorStore num) (k : jsstring) :
  get vectors k = option_map fst (mapGet k vectors).
Proof. unfold get. now destruct (mapGet k vectors). Qed.

(** X1.  [get] after [store]: the id of the stored entry gives back that
    entry, whether it is new or overwrites an older one, and every other id
    gives what it gave before. *)
Theorem store_get (vectors : VectorStore num) (e : MemoryEntry num)
    (emb : list num) (k : jsstring) :
  get (store vectors e emb) k
  = if decide (k = id e) then Some e else get vectors k.
Proof.
  rewrite !get_mapGet. unfold store.
  destruct (decide (k = id e)) as [-> | Hne].
  - now rewrite mapGet_mapSet.
  - now rewrite mapGet_mapSet_ne.
Qed.

(** X2.  [store] under an id that is already present replaces the entry
    and leaves [count()] as it is; under a new id it adds one. *)
Theorem store_count (vectors : VectorStore num) (e : MemoryEntry num)
    (emb : list num) :
  count (store vectors e emb)
  = match get vectors (id e) with
    | Some _ => count vectors
    | None => S (count vectors)
    end.
Proof.
  unfold count, store. rewrite get_mapGet.
  rewrite <- (length_map fst (mapSet _ _ _)), mapSet_keys.
  destruct (mapGet (id e) vectors); simpl.
  - now rewrite length_map.
  - rewrite length_app, length_map. simpl. lia.
Qed.

Lemma store_wellKeyed (vectors : VectorStore num) (e : MemoryEntry num)
    (emb : list num) :
  wellKeyed vectors -> wellKeyed (store vectors e emb).
Proof.
  intros [Hnd Hid]. unfold store. split.
  - rewrite mapSet_keys. destruct (mapGet (id e) vectors) eqn:Hget;
      [exact Hnd |].
    apply mapGet_None in Hget.
    apply NoDup_app; [exact Hnd | repeat constructor; auto |].
    intros k Hk [<- | []]. contradiction.
  - rewrite Forall_forall in *. intros kv Hkv.
    apply mapSet_In in Hkv. destruct Hkv as [-> | Hkv]; [reflexivity |].
    now apply Hid.
Qed.

Lemma delete_wellKeyed (vectors : VectorStore num) (k : jsstring) :
  wellKeyed vectors -> wellKeyed (snd (delete vectors k)).
Proof.
  intros [Hnd Hid]. unfold delete.
  destruct (mapGet k vectors); [| now split]. simpl. split.
  - rewrite mapDelete_keys. now apply NoDup_filter_keys.
  - rewrite Forall_forall in *. intros kv Hkv.
    apply filter_In in Hkv. now apply Hid.
Qed.

Lemma applyOps_wellKeyed (ops : list (storeOp num)) :
  wellKeyed (storeAfter ops).
Proof.
  unfold storeAfter.
  assert (H : forall vectors, wellKeyed vectors ->
                wellKeyed (fold_left applyOp ops vectors)).
  { induction ops as [| op ops IH]; intros vectors Hv; [exact Hv |].
    simpl. apply IH. destruct op as [e emb | k |]; simpl.
    - now apply store_wellKeyed.
    - now apply delete_wellKeyed.
    - split; constructor. }
  apply H. split; constructor.
Qed.

(** X3.  Whatever sequence of [store], [delete] and [clear] is applied to a
    new store, the ids in it are pairwise distinct and every entry is kept
    under its own id. *)
Theorem storeAfter_wellKeyed (ops : list (storeOp num)) :
  wellKeyed (storeAfter ops).
Proof. apply applyOps_wellKeyed. Qed.

(** X4.  [delete(id)] returns [true] exactly when the id is present; after
    it [get(id)] is absent and the other ids are untouched; a second
    [delete(id)] returns [false]; a [delete] that returns [false] changes
    nothing, and one that returns [true] lowers [count()] by one in a store
    with distinct ids. *)
Theorem delete_get (vectors : VectorStore num) (k k' : jsstring) :
  let res := delete vectors k in
  fst res = (if get vectors k is Some _ then true else false)
  /\ get (snd res) k' = (if decide (k' = k) then None else get vectors k')
  /\ fst (delete (snd res) k) = false
  /\ (fst res = false -> snd res = vectors)
  /\ (wellKeyed vectors -> fst res = true ->
      S (count (snd res)) = count vectors).
Proof.
  cbn zeta. unfold delete. rewrite !get_mapGet.
  destruct (mapGet k vectors) as [r |] eqn:Hget; simpl.
  - split; [reflexivity |]. split.
    + rewrite mapGet_mapDelete. now destruct (decide (k' = k)).
    + split.
      * rewrite mapGet_mapDelete, decide_True by reflexivity. reflexivity.
      * split; [discriminate |]. intros [Hnd _] _. unfold count.
        now apply (mapDelete_length k vectors r).
  - split; [reflexivity |]. split.
    + destruct (decide (k' = k)) as [-> | _]; [now rewrite Hget |].
      reflexivity.
    + split; [now rewrite Hget |]. split; [reflexivity | discriminate].
Qed.

(** X5.  In a store with distinct ids [getAll()] lists exactly the entries
    that [get] returns under their ids, one per id. *)
Theorem getAll_get (vectors : VectorStore num) (e : MemoryEntry num) :
  wellKeyed vectors ->
  (In e (getAll vectors) <-> get vectors (id e) = Some e)
  /\ length (getAll vectors) = count vectors.
Proof.
  intros [Hnd Hid]. split; [| apply length_map].
  unfold getAll. rewrite get_mapGet.
  induction vectors as [| [k [e' emb]] vectors IH]; simpl.
  - split; [intros [] | discriminate].
  - apply NoDup_cons_iff in Hnd. destruct Hnd as [Hfresh Hnd].
    inversion Hid as [| ? ? Hk Hid']; subst. simpl in Hk, Hfresh.
    specialize (IH Hnd Hid'). subst k.
    destruct (decide (id e' = id e)) as [Heq | Hne]; simpl.
    + split; [| intros [= ->]; now left].
      intros [-> | Hin]; [reflexivity |].
      exfalso. apply Hfresh. rewrite Heq.
      apply IH in Hin. destruct (mapGet (id e) vectors) eqn:Hget;
        [| discriminate].
      assert (Hn : mapGet (id e) vectors <> None) by congruence.
      rewrite mapGet_None in Hn.
      destruct (ListDec.In_dec (list_eq_dec N.eq_dec) (id e)
                  (List.map fst vectors)); tauto.
    + rewrite <- IH. split; [| tauto].
      intros [-> | Hin]; [contradiction | exact Hin].
Qed.
End StoreFacts.

(** The theorem at the store [twoEntries]: deleting ['test-1'] leaves one
    entry. *)
Lemma delete_get_witness :
  S (count (snd (delete (twoEntries (num := PrimFloat.float)) (js "test-1"))))
  = count (twoEntries (num := PrimFloat.float)).
Proof.
  apply (proj2 (proj2 (proj2 (proj2
           (delete_get (num := PrimFloat.float) twoEntries (js "test-1")
              (js "test-1")))))).
  - apply (applyOps_wellKeyed (num := PrimFloat.float)
             [OpStore (exampleEntry (js "test-1") document) [one; zero; zero];
              OpStore (exampleEntry (js "test-2") document) [one; zero; zero]]).
  - reflexivity.
Defined.

(** The theorem at the store [twoEntries] and its first entry. *)
Lemma getAll_get_witness :
  In (exampleEntry (js "test-1") document)
     (getAll (twoEntries (num := PrimFloat.float)))
  <-> get (twoEntries (num := PrimFloat.float)) (js "test-1")
      = Some (exampleEntry (js "test-1") document).
Proof.
  exact (proj1 (getAll_get (num := PrimFloat.float) twoEntries
                  (exampleEntry (js "test-1") document)
                  (applyOps_wellKeyed
                     [OpStore (exampleEntry (js "test-1") document)
                        [one; zero; zero];
                      OpStore (exampleEntry (js "test-2") document)
                        [one; zero; zero]]))).
Defined.

(** ** Cosine similarity on real numbers *)

Section CosineReal.
Open Scope R_scope.

Lemma cosineFold_real (a b : list R) :
  length a = length b ->
  forall d na nb,
    fold_left cosineStep (combine a b) (d, na, nb)
    = (d + dot a b, na + sumSq a, nb + sumSq b).
Proof.
  revert b. induction a as [| x a IH]; intros [| y b] Hlen d na nb;
    try discriminate.
  - simpl. f_equal; [f_equal |]; ring.
  - injection Hlen as Hlen. cbn [combine fold_left dot sumSq].
    unfold cosineStep at 2. cbn [add mul RealNumber].
    rewrite (IH b Hlen). f_equal; [f_equal |]; ring.
Qed.

(** The value of [cosineSimilarity] on vectors of the same length. *)
Lemma cosineSimilarity_real (a b : list R) :
  length a = length b ->
  cosineSimilarity a b
  = Ok (if Reqb (R_sqrt.sqrt (sumSq a)) 0 || Reqb (R_sqrt.sqrt (sumSq b)) 0 then 0
        else dot a b / (R_sqrt.sqrt (sumSq a) * R_sqrt.sqrt (sumSq b))).
Proof.
  intros Hlen. unfold cosineSimilarity.
  rewrite Hlen, Nat.eqb_refl. cbn [negb].
  rewrite (cosineFold_real a b Hlen). unfold zero.
  cbn [ofN add mul div sqrt eqb RealNumber Z.of_N].
  rewrite !Rplus_0_l. now destruct (_ || _).
Qed.

Lemma dot_comm (a b : list R) : dot a b = dot b a.
Proof.
  revert b. induction a as [| x a IH]; intros [| y b]; simpl; try reflexivity.
  rewrite IH. ring.
Qed.



(** Cauchy-Schwarz. *)
Lemma dot_sq_le (a b : list R) :
  dot a b * dot a b <= sumSq a * sumSq b.
Proof.
  revert b. induction a as [| x a IH]; intros [| y b]; simpl.
  - lra.
  - pose proof (sumSq_nonneg b). nra.
  - pose proof (sumSq_nonneg a). nra.
  - specialize (IH b).
    pose proof (sumSq_nonneg a) as HA. pose proof (sumSq_nonneg b) as HB.
    set (d := dot a b) in *. set (A := sumSq a) in *. set (B := sumSq b) in *.
    assert (Hmix : 2 * d * (x * y) <= A * (y * y) + B * (x * x)).
    { destruct (Rle_dec (2 * d * (x * y)) 0) as [Hneg | Hpos].
      - nra.
      - apply Rnot_le_lt in Hpos.
        apply Rsqr_incr_0_var; [| nra]. unfold Rsqr.
        assert (0 <= (A * (y * y) - B * (x * x)) * (A * (y * y) - B * (x * x)))
          by apply Rle_0_sqr.
        assert (d * d * (x * x * (y * y)) <= A * B * (x * x * (y * y))).
        { apply Rmult_le_compat_r; [nra | exact IH]. }
        nra. }
    nra.
Qed.

(** X6.  On real numbers cosine similarity is symmetric, the error for
    vectors of different lengths included. *)
Theorem cosineSimilarity_symmetric (a b : list R) :
  cosineSimilarity a b = cosineSimilarity b a.
Proof.
  destruct (Nat.eq_dec (length a) (length b)) as [Hlen | Hne].
  - rewrite (cosineSimilarity_real a b Hlen).
    rewrite (cosineSimilarity_real b a (eq_sym Hlen)).
    rewrite (dot_comm a b), (Rmult_comm (R_sqrt.sqrt (sumSq a))).
    now rewrite (orb_comm (Reqb (R_sqrt.sqrt (sumSq a)) 0)).
  - rewrite !cosineSimilarity_mismatch; auto.
Qed.


Lemma cosineSimilarity_bounds (a b : list R) (s : R) :
  cosineSimilarity a b = Ok s -> -1 <= s <= 1.
Proof.
  intros Hs. destruct (Nat.eq_dec (length a) (length b)) as [Hlen | Hne];
    [| rewrite cosineSimilarity_mismatch in Hs by exact Hne; discriminate].
  rewrite (cosineSimilarity_real a b Hlen) in Hs. injection Hs as <-.
  unfold Reqb.
  destruct (Req_dec_T (R_sqrt.sqrt (sumSq a)) 0) as [| Ha]; [cbn [orb]; lra |].
  destruct (Req_dec_T (R_sqrt.sqrt (sumSq b)) 0) as [| Hb]; [cbn [orb]; lra |].
  cbn [orb].
  pose proof (sqrt_pos (sumSq a)) as HA. pose proof (sqrt_pos (sumSq b)) as HB.
  set (n := R_sqrt.sqrt (sumSq a) * R_sqrt.sqrt (sumSq b)).
  assert (Hn : 0 < n) by (unfold n; apply Rmult_lt_0_compat; lra).
  assert (Hnn : n * n = sumSq a * sumSq b).
  { unfold n.
    replace (R_sqrt.sqrt (sumSq a) * R_sqrt.sqrt (sumSq b) * (R_sqrt.sqrt (sumSq a) * R_sqrt.sqrt (sumSq b)))
      with ((R_sqrt.sqrt (sumSq a) * R_sqrt.sqrt (sumSq a)) * (R_sqrt.sqrt (sumSq b) * R_sqrt.sqrt (sumSq b)))
      by ring.
    rewrite !sqrt_sqrt by apply sumSq_nonneg. reflexivity. }
  pose proof (dot_sq_le a b) as Hcs. rewrite <- Hnn in Hcs.
  assert (Hd : - n <= dot a b <= n) by (split; nra).
  split.
  - apply (Rmult_le_reg_r n); [exact Hn |].
    unfold Rdiv. rewrite Rmult_assoc, Rinv_l by lra. lra.
  - apply (Rmult_le_reg_r n); [exact Hn |].
    unfold Rdiv. rewrite Rmult_assoc, Rinv_l by lra. lra.
Qed.

End CosineReal.


(** X8.  In exact arithmetic every value that [cosineSimilarity] returns
    lies between -1 and 1.  On binary64, on which the program computes, the
    result can exceed 1: for the fallback embedding of ['hello'] against
    itself [cosineSimilarity] returns a number above 1. *)
Theorem cosineSimilarity_range :
  (forall (a b : list R) (s : R),
     cosineSimilarity a b = Ok s -> (-1 <= s <= 1)%R)
  /\ (exists s : PrimFloat.float,
        cosineSimilarity
          (simpleFallbackEmbedding (LC := asciiLower) (js "hello"))
          (simpleFallbackEmbedding (LC := asciiLower) (js "hello")) = Ok s
        /\ ltb one s = true).
Proof.
  split; [apply cosineSimilarity_bounds |].
  eexists. split; vm_compute; reflexivity.
Qed.

(** ** What a search returns *)

Lemma slice0_all {A : Type} (arr : list A) (e : Z) :
  (Z.of_nat (length arr) <= e)%Z -> slice0 arr e = arr.
Proof.
  intros He. unfold slice0.
  destruct (Z.ltb_spec e 0) as [Hneg | _]; [lia |].
  apply firstn_all2. lia.
Qed.

Lemma slice0_split {A : Type} (arr : list A) (e : Z) :
  exists n, slice0 arr e = firstn n arr /\ arr = slice0 arr e ++ skipn n arr.
Proof.
  unfold slice0. eexists. split; [reflexivity |].
  symmetry. apply firstn_skipn.
Qed.

Lemma StronglySorted_split {A : Type} (Rel : A -> A -> Prop) (n : nat)
    (l : list A) (x y : A) :
  StronglySorted Rel l -> In x (firstn n l) -> In y (skipn n l) -> Rel x y.
Proof.
  intros Hs. revert n.
  induction Hs as [| z l Hs IH Hz]; intros [| n]; simpl; try tauto.
  intros [<- | Hx] Hy.
  - rewrite Forall_forall in Hz. apply Hz.
    rewrite <- (firstn_skipn n l). apply in_or_app. now right.
  - now apply (IH n).
Qed.

Lemma filter_firstn {A : Type} (p : A -> bool) (n : nat) (l : list A) :
  exists m, List.filter p (firstn n l) = firstn m (List.filter p l).
Proof.
  revert n. induction l as [| x l IH]; intros [| n]; simpl;
    try (exists 0%nat; reflexivity).
  destruct (IH n) as [m Hm]. destruct (p x).
  - exists (S m). simpl. now rewrite Hm.
  - exists m. exact Hm.
Qed.

Section CandidateFacts.
Context {num : Type} {NUM : Number num}.

(** The loop of [search] collects the candidates, in the order of the
    store. *)
Lemma searchLoop_candidates (q : list num) (thr : num)
    (vectors : VectorStore num) :
  dimensionsMatch vectors q ->
  forall results,
    searchLoop q thr vectors results
    = Ok (results ++ candidates vectors q thr).
Proof.
  induction 1 as [| [k [e emb]] rest Hlen _ IH]; intros results; simpl.
  - now rewrite app_nil_r.
  - simpl in Hlen.
    destruct (cosineSimilarity_returns q emb (eq_sym Hlen)) as [s Hs].
    rewrite Hs, IH. destruct (leb thr s); simpl; [| reflexivity].
    now rewrite <- app_assoc.
Qed.

Lemma candidates_length (q : list num) (thr : num)
    (vectors : VectorStore num) :
  (length (candidates vectors q thr) <= count vectors)%nat.
Proof.
  unfold count. induction vectors as [| [k [e emb]] rest IH]; simpl; [lia |].
  rewrite length_app.
  destruct (cosineSimilarity q emb) as [s |]; [destruct (leb thr s) |];
    simpl; lia.
Qed.

Lemma search_all_candidates (vectors : VectorStore num) (q : list num)
    (lim : option Z) (thr : option num) :
  dimensionsMatch vectors q ->
  (Z.of_nat (count vectors) <= default 5 lim)%Z ->
  exists results,
    search vectors q lim thr = Ok results
    /\ Permutation results (candidates vectors q (default lit_0_5 thr)).
Proof.
  intros Hdim Hlim. unfold search.
  rewrite (searchLoop_candidates q _ vectors Hdim []). cbn [app].
  eexists. split; [reflexivity |].
  rewrite slice0_all; [apply sort_perm |].
  rewrite (Permutation_length (sort_perm bySimilarityDesc _)).
  pose proof (candidates_length q (default lit_0_5 thr) vectors). lia.
Qed.

(** X9.  When the stored embeddings have the dimension of the query and the
    limit is at least the number of stored entries, [search] returns every
    stored entry whose similarity reaches the threshold, each once: its
    result is a permutation of the candidates.  This holds on every
    arithmetic. *)
Theorem search_complete (vectors : VectorStore num) (q : list num)
    (lim : option Z) (thr : option num) :
  dimensionsMatch vectors q ->
  (Z.of_nat (count vectors) <= default 5 lim)%Z ->
  exists results,
    search vectors q lim thr = Ok results
    /\ Permutation results (candidates vectors q (default lit_0_5 thr)).
Proof. apply search_all_candidates. Qed.
End CandidateFacts.

(** The theorem at the store [twoEntries] with limit 5. *)
Lemma search_complete_witness :
  exists results,
    search (twoEntries (num := PrimFloat.float)) [one; zero; zero]
      (Some 5%Z) (Some lit_0_5) = Ok results
    /\ Permutation results (candidates twoEntries [one; zero; zero] lit_0_5).
Proof.
  apply (search_complete (num := PrimFloat.float) twoEntries
           [one; zero; zero] (Some 5%Z) (Some lit_0_5)).
  - repeat constructor.
  - simpl. lia.
Defined.

Lemma sortInsert_ties (s : R) (x : MemoryRecallResult R)
    (l : list (MemoryRecallResult R)) :
  withSimilarity s (sortInsert bySimilarityDesc x l)
  = withSimilarity s (x :: l).
Proof.
  unfold withSimilarity.
  induction l as [| y l IH]; [reflexivity |].
  cbn [sortInsert]. unfold bySimilarityDesc at 1.
  cbn [ltb sub RealNumber]. unfold Rltb, zero. cbn [ofN RealNumber Z.of_N].
  destruct (Rlt_dec 0 (similarity y - similarity x)) as [Hlt | _];
    [| reflexivity].
  cbn [List.filter] in *. rewrite IH. unfold Reqb.
  destruct (Req_dec_T (similarity x) s), (Req_dec_T (similarity y) s);
    try reflexivity.
  lra.
Qed.

Lemma sort_ties (s : R) (l : list (MemoryRecallResult R)) :
  withSimilarity s (sort bySimilarityDesc l) = withSimilarity s l.
Proof.
  induction l as [| x l IH]; [reflexivity |].
  cbn [sort foldr]. fold (sort bySimilarityDesc l).
  rewrite sortInsert_ties. unfold withSimilarity in *.
  cbn [List.filter]. now rewrite IH.
Qed.

(** X10.  On real numbers, [search] returns the best candidates: the
    candidates are its results together with the ones it left out, and no
    candidate left out has a higher similarity than a result. *)
Theorem search_best (vectors : VectorStore R) (q : list R) (lim : option Z)
    (thr : option R) :
  dimensionsMatch vectors q ->
  exists results rest,
    search vectors q lim thr = Ok results
    /\ Permutation (results ++ rest)
         (candidates vectors q (default lit_0_5 thr))
    /\ forall r c, In r results -> In c rest ->
         (similarity c <= similarity r)%R.
Proof.
  intros Hdim. unfold search.
  rewrite (searchLoop_candidates q _ vectors Hdim []). cbn [app].
  set (sorted := sort bySimilarityDesc _).
  destruct (slice0_split sorted (default 5%Z lim)) as [n [Hfirst Hsplit]].
  exists (slice0 sorted (default 5%Z lim)), (skipn n sorted).
  split; [reflexivity |]. split.
  - rewrite <- Hsplit. apply sort_perm.
  - intros r c Hr Hc. rewrite Hfirst in Hr.
    apply (StronglySorted_split
             (fun a b => (similarity b <= similarity a)%R) n sorted r c);
      [| exact Hr | exact Hc].
    apply (sort_descending (@similarity R)).
Qed.

Lemma search_best_witness :
  exists results rest,
    search (twoEntries (num := R)) [one; zero; zero] (Some 1%Z) (Some lit_0_5)
      = Ok results
    /\ Permutation (results ++ rest)
         (candidates twoEntries [one; zero; zero] lit_0_5)
    /\ forall r c, In r results -> In c rest ->
         (similarity c <= similarity r)%R.
Proof.
  apply (search_best twoEntries [one; zero; zero] (Some 1%Z) (Some lit_0_5)).
  repeat constructor.
Defined.

(** X11.  On real numbers, ties are broken by insertion order: the results
    of [search] with one and the same similarity are the first candidates
    with that similarity, in the order of the store. *)
Theorem search_ties (vectors : VectorStore R) (q : list R) (lim : option Z)
    (thr : option R) (s : R) :
  dimensionsMatch vectors q ->
  exists results n,
    search vectors q lim thr = Ok results
    /\ withSimilarity s results
       = firstn n (withSimilarity s
                     (candidates vectors q (default lit_0_5 thr))).
Proof.
  intros Hdim. unfold search.
  rewrite (searchLoop_candidates q _ vectors Hdim []). cbn [app].
  set (found := candidates vectors q (default lit_0_5 thr)).
  destruct (slice0_firstn (sort bySimilarityDesc found) (default 5%Z lim))
    as [n Hn].
  destruct (filter_firstn (fun r => Reqb (similarity r) s) n
              (sort bySimilarityDesc found)) as [m Hm].
  exists (slice0 (sort bySimilarityDesc found) (default 5%Z lim)), m.
  split; [reflexivity |].
  rewrite Hn. unfold withSimilarity at 1. rewrite Hm.
  fold (withSimilarity s (sort bySimilarityDesc found)).
  now rewrite sort_ties.
Qed.

Lemma search_ties_witness :
  exists results n,
    search (twoEntries (num := R)) [one; zero; zero] (Some 1%Z) (Some lit_0_5)
      = Ok results
    /\ withSimilarity 1 results
       = firstn n (withSimilarity 1
                     (candidates twoEntries [one; zero; zero] lit_0_5)).
Proof.
  apply (search_ties twoEntries [one; zero; zero] (Some 1%Z) (Some lit_0_5)).
  repeat constructor.
Defined.

(** ** Similarity of fallback embeddings (real numbers) *)

Section FallbackSimilarity.
Context {LC : Lowercase}.
Open Scope R_scope.

Lemma simpleFallbackEmbedding_nonneg (text : jsstring) :
  Forall (fun x => 0 <= x) (simpleFallbackEmbedding text : list R).
Proof.
  unfold simpleFallbackEmbedding.
  set (words := splitWhite false (toLowerCase text)).
  set (inc := div one (sqrt (ofN (N.of_nat (length words))))).
  assert (Hinc : 0 < inc).
  { unfold inc, one. cbn [div sqrt ofN RealNumber].
    pose proof (splitWhite_nonempty false (toLowerCase text)) as Hn.
    fold words in Hn.
    apply Rdiv_lt_0_compat; [simpl; lra |].
    apply sqrt_lt_R0. apply (IZR_lt 0). lia. }
  assert (Hnn : Forall (fun x => 0 <= x)
                  (hashWords inc 0 words (replicate 384 zero))).
  { apply hashWords_nonneg; [exact Hinc |].
    apply Forall_replicate. unfold zero. cbn. lra. }
  destruct (ltb zero _) eqn:Hnorm; [| exact Hnn].
  cbn [ltb RealNumber] in Hnorm. unfold Rltb in Hnorm.
  destruct (Rlt_dec _ _) as [Hpos | _]; [| discriminate].
  unfold zero in Hpos. cbn [ofN RealNumber Z.of_N] in Hpos.
  rewrite Forall_forall in *. intros y Hy. apply in_map_iff in Hy.
  destruct Hy as [x [<- Hx]]. cbn [div RealNumber].
  apply Rmult_le_pos; [now apply Hnn |].
  left. now apply Rinv_0_lt_compat.
Qed.

Lemma dot_nonneg (a b : list R) :
  Forall (fun x => 0 <= x) a -> Forall (fun x => 0 <= x) b -> 0 <= dot a b.
Proof.
  intros Ha. revert b. induction Ha as [| x a Hx _ IH]; intros b Hb;
    [simpl; lra |].
  destruct Hb as [| y b Hy Hb]; simpl; [lra |].
  specialize (IH b Hb). nra.
Qed.

Lemma simpleFallbackEmbedding_similarity_exact (text1 text2 : jsstring) :
  exists s,
    cosineSimilarity (simpleFallbackEmbedding text1)
      (simpleFallbackEmbedding text2) = Ok s
    /\ 0 <= s <= 1.
Proof.
  set (a := simpleFallbackEmbedding text1 : list R).
  set (b := simpleFallbackEmbedding text2 : list R).
  assert (Hlen : length a = length b).
  { unfold a, b. now rewrite !simpleFallbackEmbedding_length. }
  destruct (cosineSimilarity_returns a b Hlen) as [s Hs].
  exists s. split; [exact Hs |].
  split; [| now apply (cosineSimilarity_bounds a b)].
  rewrite (cosineSimilarity_real a b Hlen) in Hs. injection Hs as <-.
  destruct (_ || _); [lra |].
  pose proof (dot_nonneg a b (simpleFallbackEmbedding_nonneg text1)
                (simpleFallbackEmbedding_nonneg text2)) as Hdot.
  apply Rmult_le_pos; [exact Hdot |].
  pose proof (sqrt_pos (sumSq a)) as Hsa.
  pose proof (sqrt_pos (sumSq b)) as Hsb.
  destruct (Req_dec_T (R_sqrt.sqrt (sumSq a) * R_sqrt.sqrt (sumSq b)) 0)
    as [Hz | Hne].
  - rewrite Hz, Rinv_0. lra.
  - left. apply Rinv_0_lt_compat. nra.
Qed.

End FallbackSimilarity.

(** X12.  Two fallback embeddings can always be compared: for any two
    texts [cosineSimilarity] returns a number, on every arithmetic.  In
    exact arithmetic this number lies between 0 and 1.  On binary64, on
    which the program computes, it can exceed 1: it does for ['world']
    against itself. *)
Theorem simpleFallbackEmbedding_similarity :
  (forall (num : Type) (NUM : Number num) (LC : Lowercase)
          (text1 text2 : jsstring),
     exists s : num,
       cosineSimilarity (simpleFallbackEmbedding text1)
         (simpleFallbackEmbedding text2) = Ok s)
  /\ (forall (LC : Lowercase) (text1 text2 : jsstring),
       exists s : R,
         cosineSimilarity (simpleFallbackEmbedding text1)
           (simpleFallbackEmbedding text2) = Ok s
         /\ (0 <= s <= 1)%R)
  /\ (exists s : PrimFloat.float,
        cosineSimilarity
          (simpleFallbackEmbedding (LC := asciiLower) (js "world"))
          (simpleFallbackEmbedding (LC := asciiLower) (js "world")) = Ok s
        /\ ltb one s = true).
Proof.
  split; [| split].
  - intros num NUM LC text1 text2. apply cosineSimilarity_returns.
    now rewrite !simpleFallbackEmbedding_length.
  - intros LC text1 text2. apply simpleFallbackEmbedding_similarity_exact.
  - eexists. split; vm_compute; reflexivity.
Qed.

(** ** Registering and executing skills *)

Section SkillFacts.
Context {num : Type} {NUM : Number num} {LC : Lowercase}.

(** X14.  [registerSkill] makes the skill the one executed under its id,
    replacing a skill registered under the same id before; it leaves the
    skills under other ids and the history alone; and [getSkills()] grows
    by one exactly when the id is new. *)
Theorem registerSkill_replaces (m : SkillManager num) (s : Skill num)
    (now : Z) (sid : jsstring) (ctx : SkillContext num) :
  fst (executeSkill (registerSkill m s) now (skill_id s) ctx)
  = Ok (runSkill s ctx)
  /\ (sid <> skill_id s ->
      mapGet sid (skills (registerSkill m s)) = mapGet sid (skills m))
  /\ executionHistory (registerSkill m s) = executionHistory m
  /\ length (getSkills (registerSkill m s))
     = match mapGet (skill_id s) (skills m) with
       | Some _ => length (getSkills m)
       | None => S (length (getSkills m))
       end.
Proof.
  split; [| split; [| split]].
  - unfold executeSkill, registerSkill. cbn [skills].
    now rewrite mapGet_mapSet.
  - intros Hne. unfold registerSkill. cbn [skills].
    now apply mapGet_mapSet_ne.
  - reflexivity.
  - unfold getSkills, registerSkill. cbn [skills].
    rewrite !length_map, <- (length_map fst (mapSet _ _ _)), mapSet_keys.
    destruct (mapGet (skill_id s) (skills m)).
    + now rewrite length_map.
    + rewrite length_app, length_map. simpl. lia.
Qed.

(** X15.  After [executeSkill(skillId, context)] the history of [skillId]
    is the old one followed by the new record, when the skill is
    registered; the history of every other skill, and every history when
    the call throws, is unchanged. *)
Theorem executeSkill_getSkillHistory (m : SkillManager num) (now : Z)
    (sid sid' : jsstring) (ctx : SkillContext num) :
  getSkillHistory (snd (executeSkill m now sid ctx)) sid'
  = getSkillHistory m sid'
    ++ match fst (executeSkill m now sid ctx) with
       | Ok r =>
           if decide (sid = sid')
           then [{| skillId := sid; history_context := ctx;
                    history_result := r; history_timestamp := now |}]
           else []
       | Throw _ => []
       end.
Proof.
  unfold executeSkill, getSkillHistory.
  destruct (mapGet sid (skills m)) as [s |]; cbn [fst snd executionHistory].
  - rewrite filter_app. f_equal. cbn [List.filter skillId].
    destruct (decide (sid = sid')) as [-> | Hne].
    + now rewrite bool_decide_eq_true_2.
    + now rewrite bool_decide_eq_false_2.
  - now rewrite app_nil_r.
Qed.

Lemma calculateSuccessRate_relevant (m : SkillManager num) (sid : jsstring)
    (ctx : SkillContext num) :
  calculateSuccessRate m sid ctx
  = match relevantHistory m sid ctx with
    | [] => lit_0_5
    | records =>
        div (ofN (N.of_nat (successes records)))
            (ofN (N.of_nat (length records)))
    end.
Proof.
  unfold calculateSuccessRate. fold (relevantHistory m sid ctx).
  now destruct (relevantHistory m sid ctx).
Qed.

Lemma executeSkill_relevantHistory (m : SkillManager num) (now : Z)
    (sid sid' : jsstring) (ctx ctx' : SkillContext num) (s : Skill num) :
  mapGet sid (skills m) = Some s ->
  relevantHistory (snd (executeSkill m now sid ctx)) sid' ctx'
  = relevantHistory m sid' ctx'
    ++ (if bool_decide (sid = sid') && isSimilarContext ctx ctx'
        then [{| skillId := sid; history_context := ctx;
                 history_result := runSkill s ctx;
                 history_timestamp := now |}]
        else []).
Proof.
  intros Hs. unfold executeSkill, relevantHistory. rewrite Hs.
  cbn [snd executionHistory]. rewrite filter_app. f_equal.
Qed.

Lemma executeSkill_other_rate (m : SkillManager num) (now : Z)
    (sid sid' : jsstring) (ctx ctx' : SkillContext num) :
  sid <> sid' \/ isSimilarContext ctx ctx' = false ->
  calculateSuccessRate (snd (executeSkill m now sid ctx)) sid' ctx'
  = calculateSuccessRate m sid' ctx'.
Proof.
  intros Hother. destruct (mapGet sid (skills m)) as [s |] eqn:Hs.
  - rewrite !calculateSuccessRate_relevant.
    rewrite (executeSkill_relevantHistory m now sid sid' ctx ctx' s Hs).
    replace (bool_decide (sid = sid') && isSimilarContext ctx ctx')
      with false; [now rewrite app_nil_r |].
    destruct Hother as [Hne | ->].
    + now rewrite bool_decide_eq_false_2.
    + now rewrite andb_false_r.
  - unfold executeSkill. now rewrite Hs.
Qed.

(** X16.  Executing a skill does not change the success rate of any other
    skill, nor the success rate of the same skill for a context that is not
    similar to the executed one. *)
Theorem executeSkill_rate_isolated (m : SkillManager num) (now : Z)
    (sid sid' : jsstring) (ctx ctx' : SkillContext num) :
  sid <> sid' \/ isSimilarContext ctx ctx' = false ->
  calculateSuccessRate (snd (executeSkill m now sid ctx)) sid' ctx'
  = calculateSuccessRate m sid' ctx'.
Proof. apply executeSkill_other_rate. Qed.

Lemma executeSkill_counted (m : SkillManager num) (now : Z)
    (sid : jsstring) (ctx ctx' : SkillContext num) (s : Skill num) :
  mapGet sid (skills m) = Some s ->
  isSimilarContext ctx ctx' = true ->
  calculateSuccessRate (snd (executeSkill m now sid ctx)) sid ctx'
  = div (ofN (N.of_nat (successes (relevantHistory m sid ctx')
                        + (if success (runSkill s ctx) then 1 else 0))))
        (ofN (N.of_nat (S (length (relevantHistory m sid ctx'))))).
Proof.
  intros Hs Hsim. rewrite calculateSuccessRate_relevant.
  rewrite (executeSkill_relevantHistory m now sid sid ctx ctx' s Hs).
  rewrite bool_decide_eq_true_2, Hsim by reflexivity. cbn [andb].
  set (old := relevantHistory m sid ctx').
  assert (Hlen : length (old ++ [{| skillId := sid; history_context := ctx;
                                    history_result := runSkill s ctx;
                                    history_timestamp := now |}])
                 = S (length old)) by (rewrite length_app; simpl; lia).
  destruct (old ++ _) as [| h0 rest] eqn:Hold; [simpl in Hlen; lia |].
  rewrite Hlen, <- Hold. unfold successes at 1.
  rewrite filter_app, length_app. cbn [List.filter history_result].
  fold (successes old). now destruct (success (runSkill s ctx)).
Qed.

(** X17.  Every execution of a registered skill is counted: for a context
    similar to the executed one, the success rate afterwards is the number
    of earlier relevant successes, plus one if this execution succeeded,
    over the number of earlier relevant records plus one. *)
Theorem executeSkill_rate_updated (m : SkillManager num) (now : Z)
    (sid : jsstring) (ctx ctx' : SkillContext num) (s : Skill num) :
  mapGet sid (skills m) = Some s ->
  isSimilarContext ctx ctx' = true ->
  calculateSuccessRate (snd (executeSkill m now sid ctx)) sid ctx'
  = div (ofN (N.of_nat (successes (relevantHistory m sid ctx')
                        + (if success (runSkill s ctx) then 1 else 0))))
        (ofN (N.of_nat (S (length (relevantHistory m sid ctx'))))).
Proof. apply executeSkill_counted. Qed.

(** X18.  Similarity of contexts is symmetric, on every arithmetic. *)
Theorem isSimilarContext_symmetric (context1 context2 : SkillContext num) :
  isSimilarContext context1 context2 = isSimilarContext context2 context1.
Proof.
  rewrite !isSimilarContext_jaccard. unfold similarQueries, jaccard.
  now rewrite (intersection_comm_L (tokenSet (query context1))),
              (union_comm_L (tokenSet (query context1))).
Qed.

Lemma recommendation_query (m : SkillManager num)
    (ctx1 ctx2 : SkillContext num) (sid : jsstring) (s : Skill num) :
  query ctx1 = query ctx2 ->
  recommendation m ctx1 sid s = recommendation m ctx2 sid s.
Proof.
  intros Hq. unfold recommendation.
  assert (Hrate : calculateSuccessRate m sid ctx1
                  = calculateSuccessRate m sid ctx2).
  { unfold calculateSuccessRate.
    rewrite (filter_ext
               (fun h => bool_decide (skillId h = sid)
                         && isSimilarContext (history_context h) ctx1)
               (fun h => bool_decide (skillId h = sid)
                         && isSimilarContext (history_context h) ctx2));
      [reflexivity |].
    intros h. unfold isSimilarContext. now rewrite Hq. }
  assert (Hrel : calculateRelevance s ctx1 = calculateRelevance s ctx2).
  { unfold calculateRelevance. now rewrite Hq. }
  now rewrite Hrate, Hrel.
Qed.

(** X19.  The recommendations depend on the context only through its query
    text: the memories and the metadata of the context play no part. *)
Theorem recommendSkills_query_only (m : SkillManager num)
    (ctx1 ctx2 : SkillContext num) (lim : option Z) :
  query ctx1 = query ctx2 ->
  recommendSkills m ctx1 lim = recommendSkills m ctx2 lim.
Proof.
  intros Hq. unfold recommendSkills. do 2 f_equal.
  apply map_ext. intros [sid s]. now apply recommendation_query.
Qed.
End SkillFacts.

(** The theorems above at a manager that holds [failingSkill] or
    [succeedingSkill], on binary64. *)
Lemma registerSkill_replaces_witness :
  mapGet (js "ok")
    (skills (registerSkill (num := PrimFloat.float) newSkillManager
               failingSkill))
  = mapGet (js "ok") (skills newSkillManager).
Proof.
  apply (proj1 (proj2 (registerSkill_replaces (num := PrimFloat.float)
                         newSkillManager failingSkill 0
                         (js "ok") exampleContext))).
  discriminate.
Defined.

Lemma executeSkill_rate_isolated_witness :
  calculateSuccessRate (LC := asciiLower)
    (snd (executeSkill (registerSkill (num := PrimFloat.float)
                          newSkillManager failingSkill)
            0 (js "fail") exampleContext))
    (js "ok") exampleContext
  = calculateSuccessRate (LC := asciiLower)
      (registerSkill newSkillManager failingSkill) (js "ok") exampleContext.
Proof.
  apply (executeSkill_rate_isolated (num := PrimFloat.float)
           (LC := asciiLower)).
  left. discriminate.
Defined.

Lemma executeSkill_rate_updated_witness :
  calculateSuccessRate (LC := asciiLower)
    (snd (executeSkill (registerSkill (num := PrimFloat.float)
                          newSkillManager succeedingSkill)
            0 (js "ok") exampleContext))
    (js "ok") exampleContext
  = div (ofN 1) (ofN 1).
Proof.
  exact (executeSkill_rate_updated (num := PrimFloat.float)
           (LC := asciiLower)
           (registerSkill newSkillManager succeedingSkill) 0 (js "ok")
           exampleContext exampleContext succeedingSkill eq_refl eq_refl).
Defined.

Lemma recommendSkills_query_only_witness :
  recommendSkills (LC := asciiLower)
    (registerSkill (num := PrimFloat.float) newSkillManager succeedingSkill)
    exampleContext None
  = recommendSkills (LC := asciiLower)
      (registerSkill newSkillManager succeedingSkill)
      {| query := js "search the document";
         memories := Some [exampleEntry (js "test-1") document];
         context_metadata := None |}
      None.
Proof.
  apply (recommendSkills_query_only (num := PrimFloat.float)
           (LC := asciiLower)).
  reflexivity.
Defined.

(** ** Similar contexts and first executions (real numbers) *)

Section SkillReal.
Context {LC : Lowercase}.
Open Scope R_scope.

Lemma tokenSet_size (q : jsstring) : (0 < size (tokenSet q))%nat.
Proof.
  rewrite <- pieceSet_tokenSet. unfold pieceSet.
  pose proof (splitWhite_nonempty false (toLowerCase q)) as Hn.
  destruct (splitWhite false (toLowerCase q)) as [| w ws];
    [simpl in Hn; lia |].
  assert (Hne : size (list_to_set (C := gset jsstring) (w :: ws)) <> 0%nat).
  { apply size_non_empty_iff. intros Hempty.
    assert (Hw : w ∈ (list_to_set (w :: ws) : gset jsstring))
      by (apply elem_of_list_to_set; now left).
    rewrite Hempty in Hw. now apply not_elem_of_empty in Hw. }
  lia.
Qed.

Lemma isSimilarContext_same (c : SkillContext R) : isSimilarContext c c = true.
Proof.
  rewrite isSimilarContext_jaccard. unfold similarQueries, jaccard.
  rewrite intersection_idemp_L, union_idemp_L.
  pose proof (tokenSet_size (query c)) as Hn.
  unfold lit_0_3. cbn [ltb div ofN RealNumber]. apply Rltb_true.
  set (n := IZR (Z.of_N (N.of_nat (size (tokenSet (query c)))))).
  assert (0 < n) by (apply (IZR_lt 0); lia).
  replace (n / n) with 1 by (field; lra). simpl. lra.
Qed.

(** X20.  On real numbers every context is similar to itself: the Jaccard
    similarity of a query with itself is 1, whatever the query, the empty
    one included. *)
Theorem isSimilarContext_reflexive (c : SkillContext R) :
  isSimilarContext c c = true.
Proof. apply isSimilarContext_same. Qed.

(** X21.  On real numbers: when a registered skill has no relevant history
    for a context, then after one execution with this context its success
    rate for the context is 1 if the execution succeeded and 0 if it
    failed, a thrown error included. *)
Theorem executeSkill_first_rate (m : SkillManager R) (now : Z)
    (sid : jsstring) (ctx : SkillContext R) (s : Skill R) :
  mapGet sid (skills m) = Some s ->
  relevantHistory m sid ctx = [] ->
  calculateSuccessRate (snd (executeSkill m now sid ctx)) sid ctx
  = if success (runSkill s ctx) then 1 else 0.
Proof.
  intros Hs Hnone.
  rewrite (executeSkill_counted m now sid ctx ctx s Hs
             (isSimilarContext_same ctx)).
  rewrite Hnone. cbn [successes length List.filter Nat.add].
  cbn [div ofN RealNumber].
  destruct (success (runSkill s ctx)); simpl; field.
Qed.

(** X22.  On real numbers [recommendSkills] returns recommendations in
    descending order of confidence, at most [limit] of them when the limit
    is not negative, and one for every registered skill when the limit is
    at least their number. *)
Theorem recommendSkills_sorted (m : SkillManager R) (ctx : SkillContext R)
    (lim : option Z) :
  confidenceDescending (recommendSkills m ctx lim)
  /\ ((0 <= default 3 lim)%Z ->
      (Z.of_nat (length (recommendSkills m ctx lim)) <= default 3 lim)%Z)
  /\ ((Z.of_nat (length (getSkills m)) <= default 3 lim)%Z ->
      Permutation (List.map skill (recommendSkills m ctx lim))
        (getSkills m)).
Proof.
  unfold recommendSkills, confidenceDescending.
  set (recs := List.map _ (skills m)).
  split; [| split].
  - destruct (slice0_firstn (sort byConfidenceDesc recs) (default 3%Z lim))
      as [n ->].
    apply firstn_StronglySorted. apply (sort_descending (@confidence R)).
  - apply slice0_length.
  - intros Hlim. rewrite slice0_all.
    + rewrite (sort_perm byConfidenceDesc recs). unfold recs, getSkills.
      rewrite map_map. cbn [skill recommendation]. reflexivity.
    + rewrite (Permutation_length (sort_perm byConfidenceDesc recs)).
      unfold recs. rewrite length_map. unfold getSkills in Hlim.
      now rewrite length_map in Hlim.
Qed.
End SkillReal.

Lemma executeSkill_first_rate_witness :
  calculateSuccessRate (LC := asciiLower)
    (snd (executeSkill (registerSkill (num := R) newSkillManager
                          succeedingSkill)
            0 (js "ok") exampleContext))
    (js "ok") exampleContext
  = 1%R.
Proof.
  exact (executeSkill_first_rate (LC := asciiLower)
           (registerSkill newSkillManager succeedingSkill) 0 (js "ok")
           exampleContext succeedingSkill eq_refl eq_refl).
Defined.

Lemma recommendSkills_sorted_witness :
  Permutation
    (List.map skill
       (recommendSkills (LC := asciiLower)
          (registerSkill (num := R) newSkillManager succeedingSkill)
          exampleContext None))
    [succeedingSkill].
Proof.
  apply (proj2 (proj2 (recommendSkills_sorted (LC := asciiLower)
                         (registerSkill newSkillManager succeedingSkill)
                         exampleContext None))).
  simpl. lia.
Defined.

(** ** What chunking keeps *)

Lemma closeChunks_nonempty (maxChunkSize : Z) (ps chunks : list jsstring)
    (cur : jsstring) :
  Forall (fun c => c <> []) chunks ->
  Forall (fun c => c <> [])
    (closeChunks (fold_left (chunkStep maxChunkSize) ps (chunks, cur))).
Proof.
  revert chunks cur.
  induction ps as [| p ps IH]; intros chunks cur Hchunks.
  - unfold closeChunks. simpl. destruct cur; [exact Hchunks |].
    apply Forall_app. split; [exact Hchunks |]. now constructor.
  - cbn [fold_left]. unfold chunkStep at 2.
    destruct (_ <=? _)%Z; [now apply IH |].
    apply IH. destruct cur; [exact Hchunks |].
    apply Forall_app. split; [exact Hchunks |]. now constructor.
Qed.

Lemma chunkText_chunks_nonempty_aux (text : jsstring) (maxChunkSize : Z) :
  chunkText text maxChunkSize <> []
  /\ (text <> [] -> Forall (fun c => c <> []) (chunkText text maxChunkSize)).
Proof.
  rewrite chunkText_closeChunks.
  pose proof (closeChunks_nonempty maxChunkSize (splitBlank false text) [] []
                (Forall_nil _)) as Hall.
  destruct (closeChunks _) as [| c cs]; split; try discriminate.
  - intros Hne. now constructor.
  - intros _. exact Hall.
Qed.

(** X23.  [chunkText] returns at least one chunk, and none of its chunks is
    empty unless the text itself is empty. *)
Theorem chunkText_chunks_nonempty (text : jsstring) (maxChunkSize : Z) :
  chunkText text maxChunkSize <> []
  /\ (text <> [] -> Forall (fun c => c <> []) (chunkText text maxChunkSize)).
Proof. apply chunkText_chunks_nonempty_aux. Qed.

Lemma chunkText_chunks_nonempty_witness :
  Forall (fun c => c <> []) (chunkText twoParagraphs 5).
Proof.
  apply (proj2 (chunkText_chunks_nonempty twoParagraphs 5)). discriminate.
Defined.

Lemma join_cons (sep p : jsstring) (parts : list jsstring) :
  join sep (p :: parts) = p ++ joinRest sep parts.
Proof.
  revert p. induction parts as [| q parts IH]; intros p.
  - simpl. now rewrite app_nil_r.
  - change (join sep (p :: q :: parts))
      with (p ++ sep ++ join sep (q :: parts)).
    rewrite IH. unfold joinRest. cbn [flat_map].
    now rewrite <- !app_assoc.
Qed.

Lemma join_app (sep : jsstring) (l l' : list jsstring) :
  l <> [] -> join sep (l ++ l') = join sep l ++ joinRest sep l'.
Proof.
  destruct l as [| p l]; [contradiction |]. intros _.
  rewrite <- app_comm_cons, !join_cons. unfold joinRest.
  now rewrite flat_map_app, app_assoc.
Qed.

Lemma closeChunks_step_join (maxChunkSize : Z) (chunks : list jsstring)
    (cur p : jsstring) :
  p <> [] ->
  closeChunks (chunkStep maxChunkSize (chunks, cur) p) <> []
  /\ join blankLine (closeChunks (chunkStep maxChunkSize (chunks, cur) p))
     = join blankLine (closeChunks (chunks, cur) ++ [p]).
Proof.
  intros Hp. unfold chunkStep.
  destruct (_ <=? _)%Z.
  - destruct cur as [| c cur]; unfold closeChunks; cbn [fst snd app].
    + destruct p; [contradiction |]. split; [now destruct chunks |].
      reflexivity.
    + split; [now destruct chunks |].
      destruct chunks as [| c0 chunks].
      * cbn [app join]. reflexivity.
      * rewrite <- app_assoc.
        rewrite !(join_app blankLine (c0 :: chunks)) by discriminate.
        f_equal. unfold joinRest. simpl. now rewrite !app_nil_r.
  - destruct p as [| c0 p]; [contradiction |].
    unfold closeChunks. cbn [fst snd].
    destruct cur; split; try reflexivity; now destruct chunks.
Qed.

Lemma closeChunks_fold_join (maxChunkSize : Z) (ps : list jsstring) :
  Forall (fun p => p <> []) ps ->
  forall chunks cur,
    closeChunks (chunks, cur) <> [] ->
    join blankLine
      (closeChunks (fold_left (chunkStep maxChunkSize) ps (chunks, cur)))
    = join blankLine (closeChunks (chunks, cur) ++ ps)
    /\ closeChunks (fold_left (chunkStep maxChunkSize) ps (chunks, cur)) <> [].
Proof.
  induction 1 as [| p ps Hp _ IH]; intros chunks cur Hne.
  - simpl. now rewrite app_nil_r.
  - cbn [fold_left].
    destruct (closeChunks_step_join maxChunkSize chunks cur p Hp)
      as [Hne' Hjoin].
    destruct (chunkStep maxChunkSize (chunks, cur) p) as [chunks' cur'].
    destruct (IH chunks' cur' Hne') as [Hj Hn]. split; [| exact Hn].
    rewrite Hj, (join_app blankLine _ ps) by exact Hne'.
    rewrite Hjoin.
    replace (closeChunks (chunks, cur) ++ p :: ps)
      with ((closeChunks (chunks, cur) ++ [p]) ++ ps)
      by now rewrite <- app_assoc.
    rewrite (join_app blankLine (closeChunks (chunks, cur) ++ [p]) ps);
      [reflexivity |].
    now destruct (closeChunks (chunks, cur)).
Qed.

Lemma splitBlank_nonempty (skip : bool) (s : jsstring) :
  splitBlank skip s <> [].
Proof.
  revert skip. induction s as [| c s IH]; intros skip; simpl; [discriminate |].
  assert (Hcons : forall l, consHead c l <> []) by (intros []; discriminate).
  destruct (isNewline c); [| apply Hcons].
  destruct skip; [apply IH |].
  destruct s as [| c' s]; [apply Hcons |].
  destruct (isNewline c'); [discriminate | apply Hcons].
Qed.

(** X24.  Chunking loses no text: when no piece of the split is empty (the
    text does not begin or end with a blank line and is not empty), the
    chunks joined by blank lines are the paragraphs joined by blank
    lines. *)
Theorem chunkText_join (text : jsstring) (maxChunkSize : Z) :
  Forall (fun p => p <> []) (splitBlank false text) ->
  join blankLine (chunkText text maxChunkSize)
  = join blankLine (splitBlank false text).
Proof.
  intros Hps. rewrite chunkText_closeChunks.
  destruct (splitBlank false text) as [| p ps] eqn:Hsplit.
  - now apply splitBlank_nonempty in Hsplit.
  - inversion Hps as [| ? ? Hp Hps']; subst. cbn [fold_left].
    destruct (closeChunks_step_join maxChunkSize [] [] p Hp) as [Hne Hjoin].
    remember (chunkStep maxChunkSize ([], []) p) as st eqn:Hst.
    destruct st as [chunks cur].
    assert (Hne' : closeChunks (chunks, cur) <> [])
      by (rewrite Hst; exact Hne).
    assert (Hjoin' : join blankLine (closeChunks (chunks, cur))
                     = join blankLine [p])
      by (rewrite Hst; exact Hjoin).
    destruct (closeChunks_fold_join maxChunkSize ps Hps' chunks cur Hne')
      as [Hj Hn].
    destruct (closeChunks (fold_left _ ps (chunks, cur))) as [| c cs];
      [contradiction |].
    rewrite Hj, (join_app blankLine _ ps) by exact Hne'.
    rewrite Hjoin', (join_cons blankLine p ps). reflexivity.
Qed.

Lemma chunkText_join_witness :
  join blankLine (chunkText twoParagraphs 5)
  = join blankLine (splitBlank false twoParagraphs).
Proof.
  apply (chunkText_join twoParagraphs 5).
  repeat constructor; discriminate.
Defined.

(** ** Ingesting without embeddings *)

Lemma mapSet_In_new {V : Type} (k : jsstring) (v : V) (m : jsmap V) :
  In (k, v) (mapSet k v m).
Proof.
  induction m as [| [k' v'] m IH]; simpl; [now left |].
  destruct (decide (k' = k)); [now left | now right].
Qed.

Lemma mapSet_Exists {V : Type} (P : jsstring * V -> Prop) (k : jsstring)
    (v : V) (m : jsmap V) :
  P (k, v) -> Exists P m -> Exists P (mapSet k v m).
Proof.
  intros Hkv _. apply Exists_exists. exists (k, v).
  split; [apply mapSet_In_new | exact Hkv].
Qed.

Section IngestWithoutEmbedding.
Context {num : Type} {NUM : Number num} {LC : Lowercase}.
Variable convertToText : jsstring -> result ConversionResult.
Variable randomHex : nat -> jsstring.
Variable dateNow : nat -> Z.

Lemma ingestLoop_service (filePath : jsstring) (options : IngestionOptions)
    (conv : ConversionResult) (totalChunks : nat) (chunks : list jsstring) :
  forall (i : nat) (st : AgentMemory num * list jsstring),
    embeddingService
      (fst (ingestLoop randomHex dateNow filePath options conv totalChunks i
              chunks st))
    = embeddingService (fst st)
    /\ similarityThreshold
         (fst (ingestLoop randomHex dateNow filePath options conv totalChunks
                 i chunks st))
       = similarityThreshold (fst st)
    /\ skillManager
         (fst (ingestLoop randomHex dateNow filePath options conv totalChunks
                 i chunks st))
       = skillManager (fst st).
Proof.
  induction chunks as [| c chunks IH]; intros i [am memoryIds];
    [now split |].
  cbn [ingestLoop]. destruct (IH (S i)
    (ingestChunk randomHex dateNow filePath options conv totalChunks
       (am, memoryIds) i c)) as [H1 [H2 H3]].
  rewrite H1, H2, H3. now split.
Qed.

Lemma ingestLoop_empty_embedding (filePath : jsstring)
    (options : IngestionOptions) (conv : ConversionResult)
    (totalChunks : nat) (chunks : list jsstring) :
  generateEmbedding options = Some false ->
  forall (i : nat) (st : AgentMemory num * list jsstring),
    chunks <> [] \/ Exists (fun kv => snd (snd kv) = []) (vectorStore (fst st)) ->
    Exists (fun kv => snd (snd kv) = [])
      (vectorStore
         (fst (ingestLoop randomHex dateNow filePath options conv totalChunks
                 i chunks st))).
Proof.
  intros Hgen. induction chunks as [| c chunks IH]; intros i [am memoryIds] H.
  - destruct H as [H | H]; [contradiction | exact H].
  - cbn [ingestLoop]. apply IH. right.
    unfold ingestChunk. rewrite Hgen. cbn [fst vectorStore]. unfold store.
    apply Exists_exists. eexists. split; [apply mapSet_In_new | reflexivity].
Qed.

(** X25.  After a successful [ingest] with [generateEmbedding: false],
    which stores each chunk with the empty embedding, every [recall] whose
    query embedding is not empty throws 'Vectors must have the same
    length'. *)
Theorem ingest_without_embedding_breaks_recall (am : AgentMemory num)
    (filePath : jsstring) (options : IngestionOptions)
    (conv : ConversionResult) (q : jsstring) (ropts : RecallOptions num) :
  convertToText filePath = Ok conv ->
  generateEmbedding options = Some false ->
  embed (embeddingService am) q <> [] ->
  recall (snd (ingest convertToText randomHex dateNow am filePath options))
    q ropts
  = Throw VectorsLengthMismatch.
Proof.
  intros Hconv Hgen Hq. unfold ingest. rewrite Hconv.
  set (chunks := chunkText _ _).
  pose proof (ingestLoop_service filePath options conv (length chunks) chunks
                0 (am, [])) as [Hsvc _].
  pose proof (ingestLoop_empty_embedding filePath options conv
                (length chunks) chunks Hgen 0 (am, [])) as Hempty.
  destruct (ingestLoop _ _ _ _ _ _ _ _ _) as [am' memoryIds].
  cbn [fst snd] in *. unfold recall. rewrite Hsvc.
  assert (Hthrow : forall lim thr,
            search (vectorStore am') (embed (embeddingService am) q) lim thr
            = Throw VectorsLengthMismatch).
  { intros lim thr. apply search_throws.
    assert (Hex : Exists (fun kv => snd (snd kv) = []) (vectorStore am')).
    { apply Hempty. left. unfold chunks.
      apply (proj1 (chunkText_chunks_nonempty_aux _ _)). }
    apply Exists_exists in Hex. destruct Hex as [kv [Hin Hkv]].
    apply Exists_exists. exists kv. split; [exact Hin |].
    rewrite Hkv. simpl. intros H0. symmetry in H0.
    apply length_zero_iff_nil in H0. contradiction. }
  now rewrite Hthrow.
Qed.
End IngestWithoutEmbedding.

Lemma ingest_without_embedding_breaks_recall_witness :
  recall (LC := asciiLower)
    (snd (ingest (LC := asciiLower) readTwoParagraphs hexId (fun _ => 0%Z)
            freshMemory (js "notes.txt") withoutEmbedding))
    (js "hello") noOptions
  = Throw VectorsLengthMismatch.
Proof.
  apply (ingest_without_embedding_breaks_recall (LC := asciiLower)
           readTwoParagraphs hexId (fun _ => 0%Z) freshMemory (js "notes.txt")
           withoutEmbedding
           {| conv_content := twoParagraphs; originalFormat := js "txt" |}
           (js "hello") noOptions eq_refl eq_refl).
  intros H. apply (f_equal (@length _)) in H.
  unfold freshMemory, newAgentMemory, embed in H. cbn [embeddingService] in H.
  rewrite simpleFallbackEmbedding_length in H. discriminate.
Defined.

(** ** Ingesting a text and recalling *)

Section RecallFacts.
Context {num : Type} {NUM : Number num} {LC : Lowercase}.
Variable randomHex : nat -> jsstring.
Variable dateNow : nat -> Z.

(** X26.  [ingestText(text, metadata)] returns the id it drew; under this
    id the store then holds an entry with the text as content, the given
    type (['conversation'] when none is given) and the embedding of the
    text; the entries under other ids are as before. *)
Theorem ingestText_get (am : AgentMemory num) (text : jsstring)
    (mtype : option MemoryType) (msource : option jsstring)
    (mtags : option (list jsstring)) (mcontext : option (jsmap (jsany num)))
    (k : jsstring) :
  let res := ingestText randomHex dateNow am text mtype msource mtags
               mcontext in
  fst res = randomHex (idsDrawn am)
  /\ idsDrawn (snd res) = S (idsDrawn am)
  /\ (exists e,
        get (vectorStore (snd res)) (fst res) = Some e
        /\ id e = fst res /\ content e = text
        /\ type (metadata e) = default conversation mtype
        /\ embedding e = Some (embed (embeddingService am) text)
        /\ mapGet (fst res) (vectorStore (snd res))
           = Some (e, embed (embeddingService am) text))
  /\ (k <> fst res ->
      get (vectorStore (snd res)) k = get (vectorStore am) k).
Proof.
  cbn zeta. unfold ingestText. cbn [fst snd vectorStore idsDrawn].
  split; [reflexivity |]. split; [reflexivity |]. split.
  - eexists. rewrite get_mapGet. unfold store. cbn [id].
    rewrite mapGet_mapSet. cbn [option_map fst].
    repeat split; reflexivity.
  - intros Hk. rewrite !get_mapGet. unfold store. cbn [id].
    now rewrite mapGet_mapSet_ne.
Qed.

Lemma recall_search (am : AgentMemory num) (q : jsstring)
    (options : RecallOptions num) :
  recall am q options
  = match search (vectorStore am) (embed (embeddingService am) q)
            (Some (effectiveLimit options))
            (Some (effectiveThreshold am options)) with
    | Throw err => Throw err
    | Ok results =>
        Ok (match filters options with
            | Some f => applyFilters results f
            | None => results
            end)
    end.
Proof.
  unfold recall, effectiveLimit, effectiveThreshold.
  destruct (threshold options) as [t |];
    destruct (search _ _ _ _); try reflexivity;
    now destruct (filters options).
Qed.

(** X27.  Whatever [recall] returns was stored, reaches the threshold in
    force ([options.threshold], else the configured one, else 0.5) and
    passes the filters given; and for a limit in force that is not negative
    ([options.limit], or 5 when it is absent or 0) there are at most that
    many results.  This holds on every arithmetic. *)
Theorem recall_sound (am : AgentMemory num) (q : jsstring)
    (options : RecallOptions num)
    (results : list (MemoryRecallResult num)) :
  recall am q options = Ok results ->
  Forall (fun r =>
            resultOf (vectorStore am) (embed (embeddingService am) q) r
            /\ leb (effectiveThreshold am options) (similarity r) = true
            /\ match filters options with
               | Some f => passesFilters f r = true
               | None => True
               end) results
  /\ effectiveLimit options <> 0%Z
  /\ ((0 <= effectiveLimit options)%Z ->
      (Z.of_nat (length results) <= effectiveLimit options)%Z).
Proof.
  rewrite recall_search. intros Hrecall.
  destruct (search _ _ _ _) as [found |] eqn:Hsearch; [| discriminate].
  injection Hrecall as <-.
  destruct (search_threshold_limit _ _ _ _ _ Hsearch) as [Hall Hlen].
  cbn [default] in Hall, Hlen. unfold Datatypes.id in Hall, Hlen.
  split; [| split].
  - rewrite Forall_forall in *. intros r Hr.
    destruct (filters options) as [f |].
    + apply filter_In in Hr. destruct Hr as [Hr Hf].
      destruct (Hall r Hr). auto.
    + destruct (Hall r Hr). auto.
  - unfold effectiveLimit, orNumber. destruct (limit options) as [v |];
      [| discriminate].
    destruct (Z.eqb_spec v 0); [discriminate | assumption].
  - intros H0. specialize (Hlen H0).
    destruct (filters options) as [f |]; [| exact Hlen].
    pose proof (filter_length_le (passesFilters f) found) as Hle.
    unfold applyFilters. cbv beta iota. lia.
Qed.
End RecallFacts.

Lemma ingestText_get_witness :
  get (vectorStore
         (snd (ingestText (LC := asciiLower) hexId (fun _ => 0%Z) freshMemory
                 (js "hello") None None None None)))
    (js "other")
  = get (vectorStore freshMemory) (js "other").
Proof.
  apply (proj2 (proj2 (proj2
           (ingestText_get (LC := asciiLower) hexId (fun _ => 0%Z) freshMemory
              (js "hello") None None None None (js "other"))))).
  discriminate.
Defined.

Lemma recall_sound_witness :
  exists results,
    recall (LC := asciiLower) threeHellos (js "hello") noOptions = Ok results
    /\ Forall (fun r =>
                 resultOf (vectorStore threeHellos)
                   (embed (LC := asciiLower) (embeddingService threeHellos)
                      (js "hello")) r
                 /\ leb (effectiveThreshold threeHellos noOptions)
                      (similarity r) = true
                 /\ True) results.
Proof.
  assert (H : exists results,
            recall (LC := asciiLower) threeHellos (js "hello") noOptions
            = Ok results) by (eexists; vm_compute; reflexivity).
  destruct H as [results H]. exists results. split; [exact H |].
  exact (proj1 (recall_sound (LC := asciiLower) threeHellos (js "hello")
                  noOptions results H)).
Defined.

(** ** Recalling what was ingested (real numbers) *)

Lemma mapSet_Forall {V : Type} (P : jsstring * V -> Prop) (k : jsstring)
    (v : V) (m : jsmap V) :
  P (k, v) -> Forall P m -> Forall P (mapSet k v m).
Proof.
  intros Hkv Hm. rewrite Forall_forall in *. intros kv Hin.
  apply mapSet_In in Hin. destruct Hin as [-> | Hin]; auto.
Qed.

Lemma mapSet_length {V : Type} (k : jsstring) (v : V) (m : jsmap V) :
  (length (mapSet k v m) <= S (length m))%nat.
Proof.
  induction m as [| [k' v'] m IH]; simpl; [lia |].
  destruct (decide (k' = k)); simpl; lia.
Qed.

Lemma candidates_In {num : Type} {NUM : Number num}
    (vectors : VectorStore num) (q : list num) (thr : num) (k : jsstring)
    (e : MemoryEntry num) (emb : list num) (s : num) :
  In (k, (e, emb)) vectors -> cosineSimilarity q emb = Ok s ->
  leb thr s = true ->
  In {| entry := e; similarity := s |} (candidates vectors q thr).
Proof.
  intros Hin Hs Hthr. unfold candidates. apply in_flat_map.
  exists (k, (e, emb)). split; [exact Hin |].
  cbn [fst snd]. rewrite Hs, Hthr. now left.
Qed.

Section IngestRecall.
Context {num : Type} {NUM : Number num} {LC : Lowercase}.
Variable randomHex : nat -> jsstring.
Variable dateNow : nat -> Z.

(** X28.  On every arithmetic, binary64 included, what [ingestText] stores
    is found again by its own text whenever the similarity [s] of the
    text's embedding with itself, as [cosineSimilarity] computes it, reaches
    the threshold in force: when the stored embeddings have the dimension
    of this embedding, the limit in force exceeds the number of entries
    stored before and no filter is given, then [recall(text, options)]
    after [ingestText(text, metadata)] returns a result for the new id,
    with the text as content and the similarity [s]. *)
Theorem ingestText_recall (am : AgentMemory num) (text : jsstring)
    (mtype : option MemoryType) (msource : option jsstring)
    (mtags : option (list jsstring)) (mcontext : option (jsmap (jsany num)))
    (options : RecallOptions num) (s : num) :
  let res := ingestText randomHex dateNow am text mtype msource mtags
               mcontext in
  let q := embed (embeddingService am) text in
  dimensionsMatch (vectorStore am) q ->
  cosineSimilarity q q = Ok s ->
  leb (effectiveThreshold am options) s = true ->
  (Z.of_nat (count (vectorStore am)) < effectiveLimit options)%Z ->
  filters options = None ->
  exists results r,
    recall (snd res) text options = Ok results
    /\ In r results
    /\ id (entry r) = fst res /\ content (entry r) = text
    /\ similarity r = s.
Proof.
  cbn zeta. intros Hdim Hself Hthr Hlim Hf.
  rewrite recall_search, Hf. unfold ingestText.
  cbn [fst snd vectorStore embeddingService].
  set (q := embed (embeddingService am) text) in *.
  match goal with
  | |- context [store (vectorStore am) ?e0 q] => set (e := e0)
  end.
  match goal with
  | |- context [effectiveThreshold ?am0 options] =>
      change (effectiveThreshold am0 options)
        with (effectiveThreshold am options)
  end.
  destruct (search_all_candidates (store (vectorStore am) e q) q
              (Some (effectiveLimit options))
              (Some (effectiveThreshold am options)))
    as [results [Hs Hperm]].
  - unfold store. apply mapSet_Forall; [reflexivity | exact Hdim].
  - cbn [default]. unfold Datatypes.id, count, store in *.
    pose proof (mapSet_length (id e) (e, q) (vectorStore am)). lia.
  - rewrite Hs. exists results, {| entry := e; similarity := s |}.
    split; [reflexivity |]. split; [| now repeat split].
    apply (Permutation_in _ (Permutation_sym Hperm)).
    apply (candidates_In _ q _ (id e) e q).
    + unfold store. apply mapSet_In_new.
    + exact Hself.
    + exact Hthr.
Qed.
End IngestRecall.

(** The theorem on binary64, at a fresh memory with the fallback embedding,
    the text ['hello'] and the default threshold 0.5. *)
Lemma ingestText_recall_witness :
  exists results r,
    recall (LC := asciiLower)
      (snd (ingestText (LC := asciiLower) hexId (fun _ => 0%Z)
              freshMemory (js "hello") None None None None))
      (js "hello") noOptions = Ok results
    /\ In r results
    /\ id (entry r) = hexId 0 /\ content (entry r) = js "hello"
    /\ ltb one (similarity r) = true.
Proof.
  assert (Hself : exists s : PrimFloat.float,
            cosineSimilarity
              (embed (LC := asciiLower) (embeddingService freshMemory)
                 (js "hello"))
              (embed (LC := asciiLower) (embeddingService freshMemory)
                 (js "hello")) = Ok s
            /\ leb (effectiveThreshold freshMemory noOptions) s = true
            /\ ltb one s = true)
    by (eexists; repeat split; vm_compute; reflexivity).
  destruct Hself as [s [Hs [Hthr Habove]]].
  destruct (ingestText_recall (LC := asciiLower) hexId (fun _ => 0%Z)
              freshMemory (js "hello") None None None None noOptions s)
    as [results [r [Hrecall [Hin [Hid [Hcontent Hsim]]]]]].
  - constructor.
  - exact Hs.
  - exact Hthr.
  - cbn. lia.
  - reflexivity.
  - exists results, r. rewrite Hsim. auto.
Defined.

(** ** Statistics *)

Lemma MemoryType_eqb_eq (a b : MemoryType) :
  MemoryType_eqb a b = true <-> a = b.
Proof. destruct a, b; simpl; split; congruence. Qed.

Lemma MemoryType_eqb_refl (a : MemoryType) : MemoryType_eqb a a = true.
Proof. now destruct a. Qed.

Lemma typeGet_typeSet (t t' : MemoryType) (n : nat) (m : typeCounts) :
  typeGet t' (typeSet t n m)
  = if MemoryType_eqb t t' then Some n else typeGet t' m.
Proof.
  induction m as [| [t0 n0] m IH]; simpl.
  - reflexivity.
  - destruct (MemoryType_eqb t0 t) eqn:H0; simpl.
    + apply MemoryType_eqb_eq in H0. subst t0.
      now destruct (MemoryType_eqb t t').
    + rewrite IH. destruct (MemoryType_eqb t0 t') eqn:H1; [| reflexivity].
      apply MemoryType_eqb_eq in H1. subst t0.
      destruct (MemoryType_eqb t t') eqn:H2; [| reflexivity].
      apply MemoryType_eqb_eq in H2. subst t'.
      now rewrite MemoryType_eqb_refl in H0.
Qed.

Lemma typeSet_sum (t : MemoryType) (m : typeCounts) :
  list_sum (List.map snd (typeSet t (default 0%nat (typeGet t m) + 1)%nat m))
  = S (list_sum (List.map snd m)).
Proof.
  induction m as [| [t0 n0] m IH]; simpl; [reflexivity |].
  destruct (MemoryType_eqb t0 t); simpl; [lia |].
  rewrite IH. lia.
Qed.

Section StatsFacts.
Context {num : Type}.

(** What the loop of [getStats] has computed after the entries
    [memories]. *)
Lemma statsLoop (memories : list (MemoryEntry num)) :
  forall types oldest newest,
    fold_left statsStep memories ([], None, None) = (types, oldest, newest) ->
    (forall t,
       typeGet t types
       = if (ofType t memories =? 0)%nat then None
         else Some (ofType t memories))
    /\ list_sum (List.map snd types) = length memories
    /\ match oldest with
       | None => memories = []
       | Some o =>
           In o (List.map timestamp memories)
           /\ Forall (fun e => (o <= timestamp e)%Z) memories
       end
    /\ match newest with
       | None => memories = []
       | Some n =>
           In n (List.map timestamp memories)
           /\ Forall (fun e => (timestamp e <= n)%Z) memories
       end.
Proof.
  induction memories as [| e seen IH] using rev_ind;
    intros types oldest newest Hfold.
  - injection Hfold as <- <- <-. repeat split; intros t; now destruct t.
  - rewrite fold_left_app in Hfold. cbn [fold_left] in Hfold.
    destruct (fold_left statsStep seen ([], None, None))
      as [[types0 oldest0] newest0].
    destruct (IH types0 oldest0 newest0 eq_refl) as [Ht [Hsum [Ho Hn]]].
    unfold statsStep in Hfold. injection Hfold as <- <- <-.
    split; [| split; [| split]].
    + intros t. rewrite typeGet_typeSet. unfold ofType in *.
      rewrite filter_app, length_app. cbn [List.filter].
      destruct (MemoryType_eqb (type (metadata e)) t) eqn:Heq.
      * apply MemoryType_eqb_eq in Heq. subst t. rewrite Ht.
        cbn [length].
        destruct (Nat.eqb_spec
                    (length (List.filter
                               (fun e0 => MemoryType_eqb
                                            (type (metadata e0))
                                            (type (metadata e))) seen)) 0)
          as [-> | Hpos]; cbn [default].
        -- reflexivity.
        -- destruct (Nat.eqb_spec (length (List.filter
                               (fun e0 => MemoryType_eqb
                                            (type (metadata e0))
                                            (type (metadata e))) seen) + 1) 0);
             [lia | reflexivity].
      * cbn [length]. rewrite Nat.add_0_r. apply Ht.
    + rewrite typeSet_sum, Hsum, length_app. simpl. lia.
    + destruct oldest0 as [o |].
      * destruct Ho as [Hin Hall].
        destruct (Z.ltb_spec (timestamp e) o) as [Hlt | Hge];
          rewrite map_app, Forall_app; cbn [List.map].
        -- split; [apply in_or_app; right; now left |].
           split; [| repeat constructor; lia].
           eapply Forall_impl; [| exact Hall]. cbv beta. intros; lia.
        -- split; [apply in_or_app; now left |].
           split; [exact Hall | repeat constructor; lia].
      * subst seen. split; [now left |].
        repeat constructor. lia.
    + destruct newest0 as [n |].
      * destruct Hn as [Hin Hall].
        destruct (Z.ltb_spec n (timestamp e)) as [Hlt | Hge];
          rewrite map_app, Forall_app; cbn [List.map].
        -- split; [apply in_or_app; right; now left |].
           split; [| repeat constructor; lia].
           eapply Forall_impl; [| exact Hall]. cbv beta. intros; lia.
        -- split; [apply in_or_app; now left |].
           split; [exact Hall | repeat constructor; lia].
      * subst seen. split; [now left |].
        repeat constructor. lia.
Qed.

(** X29.  [getStats()] summarises the store: [totalMemories] is [count()];
    [memoryTypes] has a property exactly for the types that occur, holding
    the number of entries of that type, and its values add up to
    [totalMemories]; [oldestMemory] and [newestMemory] are absent exactly
    when the store is empty, and are otherwise the least and the greatest
    timestamp of a stored entry. *)
Theorem getStats_summary (am : AgentMemory num) :
  let stats := getStats am in
  let memories := getAll (vectorStore am) in
  totalMemories stats = count (vectorStore am)
  /\ (forall t,
        typeGet t (memoryTypes stats)
        = if (ofType t memories =? 0)%nat then None
          else Some (ofType t memories))
  /\ list_sum (List.map snd (memoryTypes stats)) = totalMemories stats
  /\ match oldestMemory stats with
     | None => memories = []
     | Some o =>
         In o (List.map timestamp memories)
         /\ Forall (fun e => (o <= timestamp e)%Z) memories
     end
  /\ match newestMemory stats with
     | None => memories = []
     | Some n =>
         In n (List.map timestamp memories)
         /\ Forall (fun e => (timestamp e <= n)%Z) memories
     end.
Proof.
  cbn zeta. unfold getStats.
  destruct (fold_left statsStep (getAll (vectorStore am)) ([], None, None))
    as [[types oldest] newest] eqn:Hfold.
  cbn [totalMemories memoryTypes oldestMemory newestMemory].
  destruct (statsLoop _ _ _ _ Hfold) as [Ht [Hsum [Ho Hn]]].
  split; [unfold getAll, count; apply length_map |].
  repeat split; assumption.
Qed.
End StatsFacts.

(** ** Conversions *)

Lemma has_In (labels : list jsstring) (x : jsstring) :
  has labels x = true <-> In x labels.
Proof.
  unfold has. rewrite existsb_exists. split.
  - intros [l [Hin Hl]]. apply bool_decide_eq_true_1 in Hl. now subst.
  - intros Hin. exists x. split; [exact Hin |].
    now apply bool_decide_eq_true_2.
Qed.

(** Of the pieces of a split at white space, only the first and the last
    can be empty. *)
Lemma splitWhite_emptyPieces (s : jsstring) :
  forall skip,
    (emptyPieces (tl (splitWhite skip s)) <= 1)%nat
    /\ (emptyPieces (splitWhite true s) <= 1)%nat.
Proof.
  unfold emptyPieces.
  induction s as [| c s IH]; intros skip; simpl; [lia |].
  destruct (isWhiteSpace c).
  - destruct skip; [apply IH |]. simpl. split; apply (IH true).
  - destruct (IH false) as [Htl _].
    pose proof (splitWhite_nonempty false s) as Hne.
    destruct (splitWhite false s) as [| w ws]; [simpl in Hne; lia |].
    simpl in *. lia.
Qed.

Lemma wordCount_bounds (content : jsstring) :
  (nonEmptyWords content <= length (splitWhite false content)
   <= nonEmptyWords content + 2)%nat
  /\ (1 <= length (splitWhite false content))%nat.
Proof.
  unfold nonEmptyWords.
  destruct (splitWhite_emptyPieces content false) as [Htl _].
  pose proof (splitWhite_nonempty false content) as Hne.
  assert (Hsplit : forall l : list jsstring,
            length l
            = (length (List.filter (fun w => (0 <? length w)%nat) l)
               + emptyPieces l)%nat).
  { unfold emptyPieces. induction l as [| w l IHl]; simpl; [reflexivity |].
    destruct (0 <? length w)%nat; simpl; lia. }
  destruct (splitWhite false content) as [| w ws]; [simpl in Hne; lia |].
  cbn [tl] in Htl. pose proof (Hsplit ws) as Hws.
  cbn [List.filter length].
  destruct (0 <? length w)%nat; cbn [length]; lia.
Qed.

Section ConvertFacts.
Context {LC : Lowercase}.
Variable existsSync : jsstring -> bool.
Variable extname : jsstring -> jsstring.
Variable readFileSync : jsstring -> jsstring + jsstring.
Variable pdfParse : jsstring -> external (jsstring * nat).
Variable extractRawText : jsstring -> external jsstring.

(** X30.  What a successful [convertToText] implies, whatever the file
    system and the packages do: the file exists; its lower-cased extension
    is a supported format, and [originalFormat] is that extension without
    its dot, also for PDF and DOCX; [convertedFormat] is ['text'];
    [wordCount] is the number of non-empty words of the content for the
    plain-text formats, whose content is the file as read, but for PDF and
    DOCX it counts the empty pieces before and after the text too: it is
    at least 1 and exceeds the number of non-empty words by at most 2. *)
Theorem convertToText_sound (filePath : jsstring) (c : Converted) :
  convertToText existsSync extname readFileSync pdfParse extractRawText
    filePath = Ok c ->
  let ext := toLowerCase (extname filePath) in
  let content := conv_content (conversion c) in
  existsSync filePath = true
  /\ In ext supportedFormats
  /\ originalFormat (conversion c) = skipn 1 ext
  /\ convertedFormat c = js "text"
  /\ (nonEmptyWords content <= wordCount c <= nonEmptyWords content + 2)%nat
  /\ (In ext plainTextFormats ->
      wordCount c = nonEmptyWords content
      /\ readFileSync filePath = inl content)
  /\ (~ In ext plainTextFormats ->
      wordCount c = length (splitWhite false content)
      /\ (1 <= wordCount c)%nat).
Proof.
  unfold convertToText, isSupported. cbn zeta.
  destruct (existsSync filePath); cbn [negb]; [| discriminate].
  set (ext := toLowerCase (extname filePath)).
  destruct (has supportedFormats ext) eqn:Hsup; cbn [negb]; [| discriminate].
  apply has_In in Hsup.
  destruct (has plainTextFormats ext) eqn:Hplain.
  - apply has_In in Hplain. unfold convertPlainText.
    destruct (readFileSync filePath) as [content | message];
      [| discriminate].
    intros [= <-]. cbn [conversion conv_content originalFormat
                          convertedFormat wordCount].
    fold (nonEmptyWords content).
    repeat split; try reflexivity; try assumption; try lia.
    all: contradiction.
  - assert (Hnot : ~ In ext plainTextFormats).
    { intros Hin. apply has_In in Hin. congruence. }
    destruct (bool_decide (ext = js ".pdf")) eqn:Hpdf.
    + apply bool_decide_eq_true_1 in Hpdf. unfold convertPDF.
      destruct (pdfParse filePath) as [[text numpages] | | error];
        try discriminate.
      intros [= <-]. cbn [conversion conv_content originalFormat
                            convertedFormat wordCount].
      pose proof (wordCount_bounds text) as [Hb H1].
      rewrite Hpdf.
      repeat split; try reflexivity; try assumption; try lia.
      all: try (rewrite <- Hpdf; assumption).
      all: rewrite <- Hpdf in *; contradiction.
    + destruct (bool_decide (ext = js ".docx")) eqn:Hdocx; [| discriminate].
      apply bool_decide_eq_true_1 in Hdocx. unfold convertDOCX.
      destruct (extractRawText filePath) as [text | | error];
        try discriminate.
      intros [= <-]. cbn [conversion conv_content originalFormat
                            convertedFormat wordCount].
      pose proof (wordCount_bounds text) as [Hb H1].
      rewrite Hdocx.
      repeat split; try reflexivity; try assumption; try lia.
      all: try (rewrite <- Hdocx; assumption).
      all: rewrite <- Hdocx in *; contradiction.
Qed.
End ConvertFacts.

(** The theorem at the file [helloFile]: the upper-case extension [.TXT] is
    reported as ['txt'], and the two words are counted. *)
Lemma convertToText_sound_witness :
  originalFormat
    (conversion
       {| conversion := {| conv_content := js "hello world";
                           originalFormat := js "txt" |};
          convertedFormat := js "text"; pageCount := None; wordCount := 2 |})
  = skipn 1 (asciiLower (js ".TXT"))
  /\ (2 = nonEmptyWords (js "hello world"))%nat.
Proof.
  pose proof (convertToText_sound (LC := asciiLower) (fun _ => true)
                (fun _ => js ".TXT") (fun _ => inl (js "hello world"))
                (fun _ => ModuleNotFound) (fun _ => ModuleNotFound)
                (js "NOTES.TXT")
                {| conversion := {| conv_content := js "hello world";
                                    originalFormat := js "txt" |};
                   convertedFormat := js "text"; pageCount := None;
                   wordCount := 2 |} eq_refl) as H.
  cbn zeta in H.
  destruct H as [_ [_ [Hformat [_ [_ [Hplain _]]]]]].
  split; [exact Hformat |].
  apply Hplain. vm_compute. tauto.
Defined.
